(** * parse-csv-4-fun: the CSV user pipeline, embedded and verified

    The development follows the JavaScript sources:
    - [src/stats.mjs]                       the [Stats] counters;
    - [src/csv-parser.mjs] (class version)  [CsvParser] with its three
      entry points [processUsers], [processUsersAsStream] and
      [processUsersAsStreamAndConcurrency];
    - [src/csv-parser.mjs] (static version) the earlier
      [CsvParser.processUsers (inputFilePath, outputFilePath)].

    Modelling conventions.
    - A JavaScript string is a [string]; its characters are read as ASCII
      code units.  [trim] strips the ASCII white space and line terminators
      (TAB, LF, VT, FF, CR, SPACE) and [toUpperCase] maps [a-z] to [A-Z].
    - A JavaScript number that the parser manipulates is either [NaN] or an
      integer [Num z]; the model is exact on the safe-integer range of
      doubles.  The value [-0] is identified with [0]: the code only
      compares it with [0] and prints it, and both agree on the two.
    - The file system is a finite map from paths to contents, given as a
      function; [appendFile] consults an oracle that tells, per call,
      whether that append succeeds.  [writeFile] succeeds, and [unlink]
      fails on a missing file only.
    - The concurrent method is a transition system over the promises it
      created; a rejection is seen by the program only where the program
      awaits it.  What Node does with a rejection that nobody handles is
      not part of the model.
    - Whether an append fails is told by the oracle from the number of the
      call, in the order of issue; a sink whose failures depend on the moment
      an append completes is not modelled.
    - [os.EOL] is the POSIX line separator. *)

From Stdlib Require Import List String Ascii ZArith Lia Bool Arith PeanoNat.
From Stdlib Require Import DecimalString DecimalPos Permutation.
Import ListNotations.

Open Scope string_scope.
Open Scope Z_scope.

(** ** JavaScript string primitives *)

Module Js.

Definition LF : ascii := "010"%char.
Definition CR : ascii := "013"%char.

(** White space and line terminators removed by [String.prototype.trim]. *)
Definition isWhiteSpace (c : ascii) : bool :=
  let n := nat_of_ascii c in
  (Nat.eqb n 9 || Nat.eqb n 10 || Nat.eqb n 11 || Nat.eqb n 12
   || Nat.eqb n 13 || Nat.eqb n 32)%bool.

Definition isEmpty (s : string) : bool :=
  match s with EmptyString => true | String _ _ => false end.

Fixpoint trimStart (s : string) : string :=
  match s with
  | EmptyString => EmptyString
  | String c s' => if isWhiteSpace c then trimStart s' else s
  end.

Fixpoint trimEnd (s : string) : string :=
  match s with
  | EmptyString => EmptyString
  | String c s' =>
      let t := trimEnd s' in
      if (isWhiteSpace c && isEmpty t)%bool then EmptyString else String c t
  end.

Definition trim (s : string) : string := trimEnd (trimStart s).

(** [s.split(sep)] for a one-character separator. *)
Fixpoint split (sep : ascii) (s : string) : list string :=
  match s with
  | EmptyString => [EmptyString]
  | String c s' =>
      if Ascii.eqb c sep then EmptyString :: split sep s'
      else match split sep s' with
           | f :: fs => String c f :: fs
           | [] => [String c EmptyString]
           end
  end.

(** [xs.join(sep)]. *)
Fixpoint join (sep : string) (xs : list string) : string :=
  match xs with
  | [] => EmptyString
  | [x] => x
  | x :: rest => x ++ sep ++ join sep rest
  end.

(** [xs.indexOf(x)]: the first position of [x], or [-1]. *)
Fixpoint indexOf (xs : list string) (x : string) : Z :=
  match xs with
  | [] => -1
  | y :: ys =>
      if String.eqb y x then 0
      else let r := indexOf ys x in if r <? 0 then -1 else r + 1
  end.

(** [xs[i]]: [None] stands for [undefined]. *)
Definition get (xs : list string) (i : Z) : option string :=
  if i <? 0 then None else nth_error xs (Z.to_nat i).

(** [s.includes(c)] for a one-character needle. *)
Fixpoint includes (c : ascii) (s : string) : bool :=
  match s with
  | EmptyString => false
  | String d s' => (Ascii.eqb d c || includes c s')%bool
  end.

Definition upper (c : ascii) : ascii :=
  let n := nat_of_ascii c in
  if (Nat.leb 97 n && Nat.leb n 122)%bool then ascii_of_nat (n - 32) else c.

Fixpoint toUpperCase (s : string) : string :=
  match s with
  | EmptyString => EmptyString
  | String c s' => String (upper c) (toUpperCase s')
  end.

(** Truthiness of a possibly undefined string: [undefined] and [''] are
    falsy. *)
Definition truthy (v : option string) : bool :=
  match v with
  | None => false
  | Some s => negb (isEmpty s)
  end.

(** The string held by a value; it is only used on values that passed a
    truthiness test. *)
Definition str (v : option string) : string :=
  match v with
  | Some s => s
  | None => EmptyString
  end.

(** *** Numbers *)

Inductive number := NaN | Num (z : Z).

Definition digit (c : ascii) : option Z :=
  let n := nat_of_ascii c in
  if (Nat.leb 48 n && Nat.leb n 57)%bool then Some (Z.of_nat (n - 48)) else None.

(** Reads the longest prefix of decimal digits; [acc] is the value read so
    far and the result tells whether a digit was seen at all. *)
Fixpoint digits (acc : Z) (seen : bool) (s : string) : option Z :=
  match s with
  | EmptyString => if seen then Some acc else None
  | String c s' =>
      match digit c with
      | Some d => digits (acc * 10 + d) true s'
      | None => if seen then Some acc else None
      end
  end.

(** [parseInt(s, 10)]: leading white space, an optional sign, then the
    longest run of digits; [NaN] when there is no digit. *)
Definition parseInt (s : string) : number :=
  let t := trimStart s in
  let (negative, r) :=
    match t with
    | String c r =>
        if Ascii.eqb c "-" then (true, r)
        else if Ascii.eqb c "+" then (false, r)
        else (false, t)
    | EmptyString => (false, t)
    end in
  match digits 0 false r with
  | Some v => Num (if negative then - v else v)
  | None => NaN
  end.

Definition isDigit (c : ascii) : bool :=
  match digit c with Some _ => true | None => false end.

Fixpoint allDigits (s : string) : bool :=
  match s with
  | EmptyString => true
  | String c s' => (isDigit c && allDigits s')%bool
  end.

Definition startsWithDigit (s : string) : bool :=
  match s with
  | EmptyString => false
  | String c _ => isDigit c
  end.

(** [String(z)] for an integer. *)
Definition toString (z : Z) : string := NilZero.string_of_int (Z.to_int z).

End Js.

(** ** [node:path], as far as the parser uses it *)

(** The constructor only calls [path.dirname] and [path.join]; they are kept
    abstract.  [join_nonempty] is the one fact about them that matters to
    the parser: joining onto a non-empty segment never yields ['']. *)
Class PathApi := {
  dirname : string -> string;
  join : string -> string -> string;
  join_nonempty : forall d f, f <> EmptyString -> join d f <> EmptyString
}.

(** ** [src/stats.mjs] *)

Inductive Error :=
| TypeError
| RangeError
| HeaderError
| SystemError (code : string).

Inductive Result (A : Type) :=
| Ok (a : A)
| Throw (e : Error).
Arguments Ok {A} a.
Arguments Throw {A} e.

Module Stats.

Record t := mk { processed : Z; skipped : Z }.

(** [new Stats(processed, skipped)]; the arguments are numbers by typing. *)
Definition create (processed skipped : Z) : Result t :=
  if ((processed <? 0) || (skipped <? 0))%bool then Throw RangeError
  else Ok (mk processed skipped).

(** [new Stats()]: both arguments default to [0]. *)
Definition new : t := mk 0 0.

(** [get total()]. *)
Definition total (s : t) : Z := processed s + skipped s.

End Stats.

(** ** The file system *)

Module Fs.

Definition Files := string -> option string.

(** [appendOk n] tells whether the [n]-th call of [appendFile] (in the order
    the calls are issued) succeeds; [appendCalls] counts the calls. *)
Record World := mk {
  files : Files;
  appendCalls : nat;
  appendOk : nat -> bool
}.

Definition store (p : string) (c : option string) (f : Files) : Files :=
  fun q => if String.eqb q p then c else f q.

Definition setFiles (f : Files) (w : World) : World :=
  mk f (appendCalls w) (appendOk w).

(** [fs.readFile(p, 'utf8')]. *)
Definition readFile (p : string) (w : World) : Result string :=
  match files w p with
  | Some c => Ok c
  | None => Throw (SystemError "ENOENT")
  end.

(** [fs.writeFile(p, c)]: creates or truncates. *)
Definition writeFile (p c : string) (w : World) : World :=
  setFiles (store p (Some c) (files w)) w.

(** [fs.unlink(p)]. *)
Definition unlink (p : string) (w : World) : Result unit * World :=
  match files w p with
  | Some _ => (Ok tt, setFiles (store p None (files w)) w)
  | None => (Throw (SystemError "ENOENT"), w)
  end.

(** [fs.appendFile(p, chunk)] in two halves.  The call is issued, which
    gives it its number; later it completes, and only then is the file
    changed and the promise settled. *)
Definition appendIssue (w : World) : nat * World :=
  (appendCalls w, mk (files w) (S (appendCalls w)) (appendOk w)).

Definition appendComplete (n : nat) (p chunk : string) (w : World)
  : Result unit * World :=
  if appendOk w n then
    let old := match files w p with Some c => c | None => EmptyString end in
    (Ok tt, setFiles (store p (Some (old ++ chunk)) (files w)) w)
  else (Throw (SystemError "EIO"), w).

(** [await fs.appendFile(p, chunk)]: issued and completed in one go. *)
Definition appendFile (p chunk : string) (w : World) : Result unit * World :=
  let (n, w1) := appendIssue w in appendComplete n p chunk w1.

(** The lines a [readline] interface yields for a content: CR, LF and CRLF
    all end a line, and a last line is yielded only when it is not empty.
    [scan skipLF s] returns the segments of [s]; [skipLF] holds right after a
    CR. *)
Fixpoint scan (skipLF : bool) (s : string) : list string :=
  match s with
  | EmptyString => [EmptyString]
  | String c s' =>
      if Ascii.eqb c Js.LF then
        if skipLF then scan false s' else EmptyString :: scan false s'
      else if Ascii.eqb c Js.CR then EmptyString :: scan true s'
      else match scan false s' with
           | f :: fs => String c f :: fs
           | [] => [String c EmptyString]
           end
  end.

Fixpoint dropLastIfEmpty (xs : list string) : list string :=
  match xs with
  | [] => []
  | [x] => if Js.isEmpty x then [] else [x]
  | x :: rest => x :: dropLastIfEmpty rest
  end.

Definition readLines (content : string) : list string :=
  dropLastIfEmpty (scan false content).

End Fs.

(** [os.EOL]. *)
Definition EOL : string := String Js.LF EmptyString.

(** ** [src/csv-parser.mjs], class version *)

Module CsvParser.

(** The fields of a parser object; the three indices are private and
    mutable. *)
Record t := mk {
  inputFilePath : string;
  outputFilePath : string;
  nameIndex : Z;
  emailIndex : Z;
  ageIndex : Z
}.

Definition USER_HEADERS : list string := ["name"; "email"; "age"].

Definition headerLine : string := Js.join "," USER_HEADERS.

(** [constructor(inputFilePath, outputFilePath)]; [None] is an omitted
    argument. *)
Definition new `{PathApi} (inputFilePath : string)
    (outputFilePath : option string) : t :=
  mk inputFilePath
     (if Js.truthy outputFilePath then Js.str outputFilePath
      else join (dirname inputFilePath) "output.csv")
     (-1) (-1) (-1).

(** What a method can touch: the parser object, the [stats] object of the
    run, and the world. *)
Record State := mkState {
  this : t;
  stats : Stats.t;
  world : Fs.World
}.

(** Computations that read and write the state and may throw. *)
Definition M (A : Type) : Type := State -> Result A * State.

Definition ret {A} (a : A) : M A := fun st => (Ok a, st).

Definition throw {A} (e : Error) : M A := fun st => (Throw e, st).

Definition bind {A B} (m : M A) (k : A -> M B) : M B :=
  fun st =>
    match m st with
    | (Ok a, st') => k a st'
    | (Throw e, st') => (Throw e, st')
    end.

(** [try { m } catch (error) { h error }]. *)
Definition tryCatch {A} (m : M A) (h : Error -> M A) : M A :=
  fun st =>
    match m st with
    | (Ok a, st') => (Ok a, st')
    | (Throw e, st') => h e st'
    end.

(** An awaited promise seen as a value: how it settled. *)
Definition settled {A} (m : M A) : M (Result A) :=
  fun st => let (r, st') := m st in (Ok r, st').

Notation "x <- m ;; k" := (bind m (fun x => k))
  (at level 61, m at next level, right associativity).
Notation "m ;; k" := (bind m (fun _ => k))
  (at level 61, right associativity).

Definition getThis : M t := fun st => (Ok (this st), st).
Definition getStats : M Stats.t := fun st => (Ok (stats st), st).
Definition setThis (p : t) : M unit :=
  fun st => (Ok tt, mkState p (stats st) (world st)).
Definition setStats (s : Stats.t) : M unit :=
  fun st => (Ok tt, mkState (this st) s (world st)).

(** [stats.processed++] and [stats.skipped++]. *)
Definition incProcessed : M unit :=
  fun st =>
    (Ok tt, mkState (this st)
              (Stats.mk (Stats.processed (stats st) + 1) (Stats.skipped (stats st)))
              (world st)).

Definition incSkipped : M unit :=
  fun st =>
    (Ok tt, mkState (this st)
              (Stats.mk (Stats.processed (stats st)) (Stats.skipped (stats st) + 1))
              (world st)).

(** Lifting the file operations. *)
Definition liftFs {A} (op : Fs.World -> Result A * Fs.World) : M A :=
  fun st =>
    let (r, w) := op (world st) in (r, mkState (this st) (stats st) w).

Definition readFile (p : string) : M string :=
  liftFs (fun w => (Fs.readFile p w, w)).

Definition writeFile (p c : string) : M unit :=
  liftFs (fun w => (Ok tt, Fs.writeFile p c w)).

Definition unlink (p : string) : M unit := liftFs (Fs.unlink p).

Definition appendFile (p chunk : string) : M unit :=
  liftFs (Fs.appendFile p chunk).

(** [for (const x of xs) { await f x }]. *)
Fixpoint forEach {A} (xs : list A) (f : A -> M unit) : M unit :=
  match xs with
  | [] => ret tt
  | x :: rest => f x ;; forEach rest f
  end.

Record User := mkUser { name : string; email : string; age : Js.number }.

(** [#processUser({ name, email, age })]: the output line, or [None] for
    [null]. *)
Definition processUser (u : User) : option string :=
  if negb (Js.includes "@" (email u)) then None
  else
    match age u with
    | Js.NaN => None
    | Js.Num a =>
        if a <? 0 then None
        else Some (Js.join "," [Js.toUpperCase (name u); email u; Js.toString a])
    end.

(** [#safeDelete(filePath)]: the rejection of [unlink] is caught; it is
    logged unless its code is ENOENT, and never re-thrown. *)
Definition safeDelete (filePath : string) : M unit :=
  tryCatch (unlink filePath) (fun _ => ret tt).

(** [#processHeaders(line)]; [None] is [undefined], on which [line.split]
    throws a TypeError.  The indices are assigned before the check. *)
Definition processHeaders (line : option string) : M unit :=
  match line with
  | None => throw TypeError
  | Some l =>
      let headers := Js.split "," l in
      p <- getThis ;;
      let p' := mk (inputFilePath p) (outputFilePath p)
                   (Js.indexOf headers "name")
                   (Js.indexOf headers "email")
                   (Js.indexOf headers "age") in
      setThis p' ;;
      if ((nameIndex p' =? -1) || (emailIndex p' =? -1) || (ageIndex p' =? -1))%bool
      then throw HeaderError
      else ret tt
  end.

(** *** [#processUsersLine]

    The function is [async] and awaits once, on [fs.appendFile].  The part
    before the await runs when the function is called: it either finishes
    the call or leaves it suspended on the append of a chunk to a path. *)
Inductive Suspension :=
| Finished
| Awaiting (path chunk : string).

Definition processUsersLineSync (line : string) : M Suspension :=
  if Js.isEmpty (Js.trim line) then ret Finished
  else
    p <- getThis ;;
    let values := Js.split "," line in
    let name := Js.get values (nameIndex p) in
    let email := Js.get values (emailIndex p) in
    let age := Js.get values (ageIndex p) in
    if (negb (Js.truthy name) || negb (Js.truthy email)
        || negb (Js.truthy age))%bool
    then incSkipped ;; ret Finished
    else
      let processedLine :=
        processUser (mkUser (Js.trim (Js.str name)) (Js.trim (Js.str email))
                            (Js.parseInt (Js.trim (Js.str age)))) in
      if Js.truthy processedLine
      then ret (Awaiting (outputFilePath p) (EOL ++ Js.str processedLine))
      else incSkipped ;; ret Finished.

(** The part after the await: a failed append rejects the call, a successful
    one is counted. *)
Definition processUsersLineResume (r : Result unit) : M unit :=
  match r with
  | Ok _ => incProcessed
  | Throw e => throw e
  end.

(** [await this.#processUsersLine(line, stats)]. *)
Definition processUsersLine (line : string) : M unit :=
  s <- processUsersLineSync line ;;
  match s with
  | Finished => ret tt
  | Awaiting path chunk =>
      r <- settled (appendFile path chunk) ;;
      processUsersLineResume r
  end.

(** [new Stats()] bound to the [stats] of the run. *)
Definition newStats : M unit := setStats Stats.new.

(** [if (stats.processed === 0) await safeDelete(out); return stats]. *)
Definition finish : M Stats.t :=
  s <- getStats ;;
  p <- getThis ;;
  (if Stats.processed s =? 0 then safeDelete (outputFilePath p) else ret tt) ;;
  getStats.

(** [catch (error) { await safeDelete(out); throw error }]. *)
Definition cleanup {A} (e : Error) : M A :=
  p <- getThis ;;
  safeDelete (outputFilePath p) ;;
  throw e.

(** [processUsers()].  The body of the [try] returns [true] when it leaves
    the method through its [return stats]. *)
Definition processUsers : M Stats.t :=
  newStats ;;
  p <- getThis ;;
  early <- tryCatch
    (csv <- readFile (inputFilePath p) ;;
     if Js.isEmpty (Js.trim csv) then ret true
     else
       writeFile (outputFilePath p) headerLine ;;
       let parts := Js.split Js.LF csv in
       processHeaders (hd_error parts) ;;
       forEach (tl parts) processUsersLine ;;
       ret false)
    cleanup ;;
  if early then getStats else finish.

(** [#getLines()] together with the reads of the iterator: the stream is
    opened lazily, so the content is the one found at the first [next()]. *)
Definition getLines : M (list string) :=
  p <- getThis ;;
  csv <- readFile (inputFilePath p) ;;
  ret (Fs.readLines csv).

(** The statements of the [try] block that precede the loop, common to the
    two stream methods; the result is what the iterator has left. *)
Definition openAndReadHeader : M (list string) :=
  p <- getThis ;;
  writeFile (outputFilePath p) headerLine ;;
  lines <- getLines ;;
  processHeaders (hd_error lines) ;;
  ret (tl lines).

(** [processUsersAsStream()]. *)
Definition processUsersAsStream : M Stats.t :=
  newStats ;;
  tryCatch
    (lines <- openAndReadHeader ;;
     forEach lines processUsersLine)
    cleanup ;;
  finish.

(** *** [processUsersAsStreamAndConcurrency()]

    Every promise the method creates lives in [heap]; the array [promises]
    holds positions in it.  A promise is pending on an append that has been
    issued, or settled. *)
Definition batchSize : nat := 1000.

Inductive Promise :=
| Pending (call : nat) (path chunk : string)
| Fulfilled
| Rejected (e : Error).

Inductive Pc :=
| Pulling         (* in [for await], about to ask the iterator for a line *)
| AwaitingBatch   (* at [await Promise.allSettled(promises)] in the loop *)
| AwaitingRest    (* at [await Promise.allSettled(promises)] after it *)
| Leaving.        (* past the [try] block *)

Record Conc := mkConc {
  source : list string;
  promises : list nat;
  heap : list Promise;
  st : State;
  pc : Pc
}.

(** [this.#processUsersLine(line, stats)] without [await]: the call runs up
    to its await and hands back a promise. *)
Definition launch (line : string) (s : State) : Promise * State :=
  match processUsersLineSync line s with
  | (Ok Finished, s') => (Fulfilled, s')
  | (Ok (Awaiting path chunk), s') =>
      let (n, w) := Fs.appendIssue (world s') in
      (Pending n path chunk, mkState (this s') (stats s') w)
  | (Throw e, s') => (Rejected e, s')
  end.

(** The append of a pending call completes and the call resumes. *)
Definition resume (n : nat) (path chunk : string) (s : State)
  : Promise * State :=
  let (r, w) := Fs.appendComplete n path chunk (world s) in
  match processUsersLineResume r (mkState (this s) (stats s) w) with
  | (Ok _, s') => (Fulfilled, s')
  | (Throw e, s') => (Rejected e, s')
  end.

Definition isSettled (h : list Promise) (i : nat) : bool :=
  match nth_error h i with
  | Some (Pending _ _ _) => false
  | _ => true
  end.

(** [Promise.allSettled(ps)] is ready to resume its awaiter. *)
Definition allSettled (h : list Promise) (ps : list nat) : bool :=
  forallb (isSettled h) ps.

Fixpoint update {A} (i : nat) (x : A) (xs : list A) : list A :=
  match xs, i with
  | [], _ => []
  | _ :: rest, O => x :: rest
  | y :: rest, S j => y :: update j x rest
  end.

(** One move of the event loop.  The method pulls a line and launches its
    call, or resumes from an [allSettled]; at any time a pending append may
    complete, in any order. *)
Inductive step : Conc -> Conc -> Prop :=
| step_launch c line rest pr s' :
    pc c = Pulling ->
    source c = line :: rest ->
    launch line (st c) = (pr, s') ->
    step c (mkConc rest (promises c ++ [List.length (heap c)])%list (heap c ++ [pr])%list s'
              (if (batchSize <=? S (List.length (promises c)))%nat
               then AwaitingBatch else Pulling))
| step_complete c i n path chunk pr s' :
    nth_error (heap c) i = Some (Pending n path chunk) ->
    resume n path chunk (st c) = (pr, s') ->
    step c (mkConc (source c) (promises c) (update i pr (heap c)) s' (pc c))
| step_batch c :
    pc c = AwaitingBatch ->
    allSettled (heap c) (promises c) = true ->
    step c (mkConc (source c) [] (heap c) (st c) Pulling)
| step_exhausted c :
    pc c = Pulling ->
    source c = [] ->
    step c (mkConc [] (promises c) (heap c) (st c)
              (if (0 <? List.length (promises c))%nat then AwaitingRest else Leaving))
| step_rest c :
    pc c = AwaitingRest ->
    allSettled (heap c) (promises c) = true ->
    step c (mkConc (source c) (promises c) (heap c) (st c) Leaving).

Inductive steps : Conc -> Conc -> Prop :=
| steps_refl c : steps c c
| steps_next c1 c2 c3 : step c1 c2 -> steps c2 c3 -> steps c1 c3.

(** [let promises = []] at the head of the loop. *)
Definition enterLoop (lines : list string) (s : State) : Conc :=
  mkConc lines [] [] s Pulling.

(** The runs of the method from a state: the promises a run created and
    its outcome.  Nothing in the loop throws, so the [catch] block is only
    reached from the statements before it. *)
Inductive processUsersAsStreamAndConcurrency (s0 : State)
  : list Promise -> Result Stats.t * State -> Prop :=
| run_throws e s1 :
    (newStats ;; openAndReadHeader) s0 = (Throw e, s1) ->
    processUsersAsStreamAndConcurrency s0 [] (cleanup e s1)
| run_returns lines s1 c :
    (newStats ;; openAndReadHeader) s0 = (Ok lines, s1) ->
    steps (enterLoop lines s1) c ->
    pc c = Leaving ->
    processUsersAsStreamAndConcurrency s0 (heap c) (finish (st c)).

(** One schedule, as a function: every append completes right after its
    call was launched. *)
Definition launchAndComplete (line : string) (c : Conc) : Conc :=
  let (pr, s1) := launch line (st c) in
  let i := List.length (heap c) in
  let ps := (promises c ++ [i])%list in
  let full := (batchSize <=? List.length ps)%nat in
  match pr with
  | Pending n path chunk =>
      let (pr', s2) := resume n path chunk s1 in
      mkConc (tl (source c)) (if full then [] else ps)
             (update i pr' (heap c ++ [pr])%list) s2 Pulling
  | _ =>
      mkConc (tl (source c)) (if full then [] else ps) (heap c ++ [pr])%list s1 Pulling
  end.

Fixpoint eagerLoop (lines : list string) (c : Conc) : Conc :=
  match lines with
  | [] => c
  | line :: rest => eagerLoop rest (launchAndComplete line c)
  end.

Definition processUsersAsStreamAndConcurrencyEager : M Stats.t :=
  fun s0 =>
    match (newStats ;; openAndReadHeader) s0 with
    | (Throw e, s1) => cleanup e s1
    | (Ok lines, s1) => finish (st (eagerLoop lines (enterLoop lines s1)))
    end.

(** A run, started on a parser object in a world. *)
Definition run {A} (m : M A) (p : t) (w : Fs.World) : Result A * State :=
  m (mkState p Stats.new w).

End CsvParser.

(** ** [src/csv-parser.mjs], static version *)

Module CsvParserStatic.

Definition USER_HEADERS : list string := ["name"; "email"; "age"].

(** The local variables of [processUsers] that the loop changes, with the
    world. *)
Record Locals := mkLocals {
  isFirstLine : bool;
  nameIndex : Z;
  emailIndex : Z;
  ageIndex : Z;
  stats : Stats.t;
  world : Fs.World
}.

(** [static #processUser({ name, email, age })]. *)
Definition processUser (name email : string) (age : Js.number)
  : option string :=
  if negb (Js.includes "@" email) then None
  else
    match age with
    | Js.NaN => None
    | Js.Num a =>
        if a <? 0 then None
        else Some (Js.join "," [Js.toUpperCase name; email; Js.toString a])
    end.

(** [static #safeDelete(filePath)]. *)
Definition safeDelete (filePath : string) (w : Fs.World) : Fs.World :=
  match Fs.unlink filePath w with
  | (Ok _, w') => w'
  | (Throw _, w') => w'
  end.

(** The body of the [for await] loop, for one line. *)
Definition iteration (outputFilePath line : string) (l : Locals)
  : Result unit * Locals :=
  if isFirstLine l then
    let headers := Js.split "," line in
    let l' := mkLocals false (Js.indexOf headers "name")
                (Js.indexOf headers "email") (Js.indexOf headers "age")
                (stats l) (world l) in
    if ((nameIndex l' =? -1) || (emailIndex l' =? -1)
        || (ageIndex l' =? -1))%bool
    then (Throw HeaderError, l')
    else (Ok tt, l')
  else if Js.isEmpty (Js.trim line) then (Ok tt, l)
  else
    let values := Js.split "," line in
    let name := Js.get values (nameIndex l) in
    let email := Js.get values (emailIndex l) in
    let age := Js.get values (ageIndex l) in
    let skip :=
      mkLocals (isFirstLine l) (nameIndex l) (emailIndex l) (ageIndex l)
        (Stats.mk (Stats.processed (stats l)) (Stats.skipped (stats l) + 1))
        (world l) in
    if (negb (Js.truthy name) || negb (Js.truthy email)
        || negb (Js.truthy age))%bool
    then (Ok tt, skip)
    else
      let processedLine :=
        processUser (Js.trim (Js.str name)) (Js.trim (Js.str email))
                    (Js.parseInt (Js.trim (Js.str age))) in
      if Js.truthy processedLine then
        match Fs.appendFile outputFilePath (EOL ++ Js.str processedLine)
                (world l) with
        | (Ok _, w) =>
            (Ok tt,
             mkLocals (isFirstLine l) (nameIndex l) (emailIndex l) (ageIndex l)
               (Stats.mk (Stats.processed (stats l) + 1)
                         (Stats.skipped (stats l)))
               w)
        | (Throw e, w) =>
            (Throw e,
             mkLocals (isFirstLine l) (nameIndex l) (emailIndex l) (ageIndex l)
               (stats l) w)
        end
      else (Ok tt, skip).

Fixpoint loop (outputFilePath : string) (lines : list string) (l : Locals)
  : Result unit * Locals :=
  match lines with
  | [] => (Ok tt, l)
  | line :: rest =>
      match iteration outputFilePath line l with
      | (Ok _, l') => loop outputFilePath rest l'
      | (Throw e, l') => (Throw e, l')
      end
  end.

Definition setWorld (w : Fs.World) (l : Locals) : Locals :=
  mkLocals (isFirstLine l) (nameIndex l) (emailIndex l) (ageIndex l)
    (stats l) w.

(** [static async processUsers(inputFilePath, outputFilePath)]; the result
    comes with the locals as the method leaves them. *)
Definition processUsers `{PathApi} (inputFilePath : string)
    (outputFilePath : option string) (w : Fs.World)
  : Result Stats.t * Locals :=
  let outputFilePath :=
    if negb (Js.truthy outputFilePath)
    then join (dirname inputFilePath) "output.csv"
    else Js.str outputFilePath in
  let l0 := mkLocals true (-1) (-1) (-1) (Stats.mk 0 0)
              (Fs.writeFile outputFilePath (Js.join "," USER_HEADERS) w) in
  let body :=
    match Fs.readFile inputFilePath (world l0) with
    | Ok csv => loop outputFilePath (Fs.readLines csv) l0
    | Throw e => (Throw e, l0)
    end in
  match body with
  | (Throw e, l) => (Throw e, setWorld (safeDelete outputFilePath (world l)) l)
  | (Ok _, l) =>
      if Stats.processed (stats l) =? 0
      then (Ok (stats l), setWorld (safeDelete outputFilePath (world l)) l)
      else (Ok (stats l), l)
  end.

End CsvParserStatic.

(** ** A [node:path] for the examples

    Paths without dot segments and without doubled or trailing slashes:
    [dirname] cuts at the last slash and [join] puts one slash between its
    arguments, dropping a leading [.] directory. *)
Module SimplePath.

Fixpoint dirnameAux (s : string) : option string :=
  match s with
  | EmptyString => None
  | String c s' =>
      match dirnameAux s' with
      | Some d => Some (String c d)
      | None => if Ascii.eqb c "/" then Some EmptyString else None
      end
  end.

Definition dirname (s : string) : string :=
  match dirnameAux s with
  | None => "."
  | Some EmptyString => "/"
  | Some d => d
  end.

Definition join (d f : string) : string :=
  if String.eqb d "." then f
  else if String.eqb d "/" then d ++ f
  else d ++ "/" ++ f.

End SimplePath.

(** ** Vocabulary for the statements

    What the spec calls the classification of a line, the lines of a file
    that count, and the bookkeeping of the concurrent loop. *)

Module Ledger.

Import CsvParser.

Inductive Verdict :=
| Blank
| Skipped
| Accepted (out : string).

(** The verdict on a line for a parser whose indices are set; see
    [sync_verdict] for its agreement with [processUsersLineSync]. *)
Definition verdict (p : t) (line : string) : Verdict :=
  if Js.isEmpty (Js.trim line) then Blank
  else
    let values := Js.split "," line in
    match Js.get values (nameIndex p), Js.get values (emailIndex p),
          Js.get values (ageIndex p) with
    | Some n, Some e, Some a =>
        if (Js.isEmpty n || Js.isEmpty e || Js.isEmpty a)%bool then Skipped
        else
          match processUser (mkUser (Js.trim n) (Js.trim e)
                                    (Js.parseInt (Js.trim a))) with
          | Some l => if Js.isEmpty l then Skipped else Accepted l
          | None => Skipped
          end
    | _, _, _ => Skipped
    end.

Definition isBlank (line : string) : bool := Js.isEmpty (Js.trim line).

(** The number of lines that are not blank. *)
Definition countNonBlank (lines : list string) : Z :=
  Z.of_nat (List.length (filter (fun l => negb (isBlank l)) lines)).

Fixpoint countSkipped (p : t) (lines : list string) : Z :=
  match lines with
  | [] => 0
  | l :: rest =>
      match verdict p l with
      | Skipped => 1 + countSkipped p rest
      | _ => countSkipped p rest
      end
  end.

(** The chunks of the accepted lines whose append succeeds, when the next
    call of [appendFile] has number [n]. *)
Fixpoint okChunks (p : t) (ok : nat -> bool) (n : nat) (lines : list string)
  : list string :=
  match lines with
  | [] => []
  | l :: rest =>
      match verdict p l with
      | Accepted o =>
          if ok n then (EOL ++ o) :: okChunks p ok (S n) rest
          else okChunks p ok (S n) rest
      | _ => okChunks p ok n rest
      end
  end.

Definition skip (s : State) : State :=
  mkState (this s)
    (Stats.mk (Stats.processed (stats s)) (Stats.skipped (stats s) + 1))
    (world s).

(** The indices are those [processHeaders] leaves when it accepts a
    header. *)
Definition Resolved (p : t) : Prop :=
  exists headers : list string,
    nameIndex p = Js.indexOf headers "name" /\
    emailIndex p = Js.indexOf headers "email" /\
    ageIndex p = Js.indexOf headers "age" /\
    nameIndex p <> -1 /\ emailIndex p <> -1 /\ ageIndex p <> -1.

(** A header line that lacks one of the three column names. *)
Definition lacksColumn (header : string) : bool :=
  let headers := Js.split "," header in
  ((Js.indexOf headers "name" =? -1) || (Js.indexOf headers "email" =? -1)
   || (Js.indexOf headers "age" =? -1))%bool.

(** Bookkeeping on the heap of promises. *)
Definition isPending (pr : Promise) : bool :=
  match pr with Pending _ _ _ => true | _ => false end.

Definition isRejected (pr : Promise) : bool :=
  match pr with Rejected _ => true | _ => false end.

Fixpoint pendingCount (h : list Promise) : nat :=
  match h with
  | [] => O
  | Pending _ _ _ :: rest => S (pendingCount rest)
  | _ :: rest => pendingCount rest
  end.

Fixpoint rejectedCount (h : list Promise) : nat :=
  match h with
  | [] => O
  | Rejected _ :: rest => S (rejectedCount rest)
  | _ :: rest => rejectedCount rest
  end.

Fixpoint pendingOk (ok : nat -> bool) (h : list Promise) : list string :=
  match h with
  | [] => []
  | Pending n _ chunk :: rest =>
      if ok n then chunk :: pendingOk ok rest else pendingOk ok rest
  | _ :: rest => pendingOk ok rest
  end.

(** What holds of the loop of the concurrent method at every moment.  [p]
    is the parser object when the loop is entered, [ok] the oracle, [K] the
    chunks that will have been written, [NS] and [NB] the numbers of
    skipped and of non-blank lines the iterator held. *)
Record Inv (p : t) (ok : nat -> bool) (K : list string) (NS NB : Z)
    (c : Conc) : Prop := mkInv {
  inv_this : this (st c) = p;
  inv_ok : forall n, Fs.appendOk (world (st c)) n = ok n;
  inv_path : forall i n path chunk,
      nth_error (heap c) i = Some (Pending n path chunk) ->
      path = outputFilePath p;
  inv_skipped :
      Stats.skipped (stats (st c)) + countSkipped p (source c) = NS;
  inv_total :
      Stats.total (stats (st c)) + Z.of_nat (pendingCount (heap c))
      + Z.of_nat (rejectedCount (heap c)) + countNonBlank (source c) = NB;
  inv_written : exists done : list string,
      Fs.files (world (st c)) (outputFilePath p)
        = Some (headerLine ++ String.concat EmptyString done) /\
      Stats.processed (stats (st c)) = Z.of_nat (List.length done) /\
      Permutation
        (done ++ pendingOk ok (heap c)
           ++ okChunks p ok (Fs.appendCalls (world (st c))) (source c))%list
        K;
  inv_pending : forall i n path chunk,
      nth_error (heap c) i = Some (Pending n path chunk) ->
      In i (promises c);
  inv_count : (pendingCount (heap c) <= List.length (promises c))%nat;
  inv_bound : (List.length (promises c) <= batchSize)%nat;
  inv_pulling : pc c = Pulling -> (List.length (promises c) < batchSize)%nat;
  inv_source : pc c = AwaitingRest \/ pc c = Leaving -> source c = [];
  inv_leaving : pc c = Leaving -> allSettled (heap c) (promises c) = true;
  inv_awaiting :
      pc c = AwaitingBatch -> List.length (promises c) = batchSize
}.

(** A state of the loop between two lines when every append so far has
    completed. *)
Definition Quiet (c : Conc) : Prop :=
  pc c = Pulling
  /\ (List.length (promises c) < batchSize)%nat
  /\ forall i n path chunk,
       nth_error (heap c) i <> Some (Pending n path chunk).

End Ledger.

(** ** Sample objects for the examples *)

Module Sample.

Import CsvParser.

#[export] Instance path : PathApi.
Proof.
  refine {| dirname := SimplePath.dirname; join := SimplePath.join |}.
  intros d f Hf. unfold SimplePath.join.
  destruct (String.eqb d "."); [exact Hf|].
  destruct (String.eqb d "/"); destruct d; simpl; try discriminate; exact Hf.
Defined.

Definition nl : string := EOL.

(** A parser on [data/in.csv] writing to [data/out.csv], and the same
    parser once it has read the header [name,email,age]. *)
Definition parser : t := new "data/in.csv" (Some "data/out.csv").

Definition resolved : t := mk "data/in.csv" "data/out.csv" 0 1 2.

Definition writable : nat -> bool := fun _ => true.

(** A sink that takes one append and is unwritable from then on. *)
Definition firstOnly : nat -> bool := fun n => Nat.eqb n 0.

(** A sink that is unwritable from the start. *)
Definition unwritable : nat -> bool := fun _ => false.

(** A world that holds [csv] at [data/in.csv] and nothing else. *)
Definition worldOf (csv : string) (ok : nat -> bool) : Fs.World :=
  Fs.mk (Fs.store "data/in.csv" (Some csv) (fun _ => None)) 0 ok.

(** The same world with a stale [data/out.csv]. *)
Definition staleWorldOf (csv : string) (ok : nat -> bool) : Fs.World :=
  Fs.mk (Fs.store "data/out.csv" (Some "old")
           (Fs.store "data/in.csv" (Some csv) (fun _ => None))) 0 ok.

Definition scenario : string :=
  "name,email,age" ++ nl ++ "john doe,john@example.com,25" ++ nl
  ++ "jane smith,invalid-email,30" ++ nl ++ "bob,bob@example.com,-5".

Definition twoUsers : string :=
  "name,email,age" ++ nl ++ "ann,ann@example.com,31" ++ nl
  ++ "bob,bob@example.com,32".

(** What a run leaves to see: its outcome, the stats object, and the
    content of the output file. *)
Definition observe {A} (r : Result A * State)
  : Result A * Stats.t * option string :=
  (fst r, stats (snd r), Fs.files (world (snd r)) "data/out.csv").

End Sample.

(** ** Vocabulary for further properties *)

Module Outline.

Import CsvParser Ledger.

(** The chunks of all the accepted lines, in the order of the lines. *)
Definition chunks (p : t) (lines : list string) : list string :=
  okChunks p (fun _ => true) O lines.

(** The output lines of the accepted lines, in the order of the lines. *)
Fixpoint accepted (p : t) (lines : list string) : list string :=
  match lines with
  | [] => []
  | l :: rest =>
      match verdict p l with
      | Accepted o => o :: accepted p rest
      | _ => accepted p rest
      end
  end.

(** [Number.MAX_SAFE_INTEGER]: up to it the integers of the model are the
    numbers of the program. *)
Definition MAX_SAFE_INTEGER : Z := 9007199254740991.

(** The age of a line, when it is a number, is a safe integer. *)
Definition safeAge (p : t) (line : string) : Prop :=
  forall v,
    Js.parseInt (Js.trim (Js.str (Js.get (Js.split "," line) (ageIndex p))))
    = Js.Num v ->
    v <= MAX_SAFE_INTEGER.

(** A string without line ends. *)
Definition oneLine (s : string) : Prop :=
  Js.includes Js.LF s = false /\ Js.includes Js.CR s = false.

(** [s'] is a later state of a run that writes to [out]: same paths, same
    oracle, the other files untouched, the counters and the number of
    appends not smaller. *)
Record Extends (out : string) (s s' : State) : Prop := mkExtends {
  ext_input : inputFilePath (this s') = inputFilePath (this s);
  ext_output : outputFilePath (this s') = outputFilePath (this s);
  ext_files : forall q, q <> out ->
      Fs.files (world s') q = Fs.files (world s) q;
  ext_oracle : forall n, Fs.appendOk (world s') n = Fs.appendOk (world s) n;
  ext_calls : (Fs.appendCalls (world s) <= Fs.appendCalls (world s'))%nat;
  ext_processed :
      Stats.processed (stats s) <= Stats.processed (stats s');
  ext_skipped : Stats.skipped (stats s) <= Stats.skipped (stats s')
}.

(** What holds of the outcome [r] of a run that started in [s0] and writes
    to [out]: the end state extends [s0], the stats returned are those of
    the end state, and after a throw the output file does not exist. *)
Definition Shape (out : string) (s0 : State) (r : Result Stats.t * State)
  : Prop :=
  Extends out s0 (snd r)
  /\ (forall s, fst r = Ok s -> stats (snd r) = s)
  /\ (forall e, fst r = Throw e -> Fs.files (world (snd r)) out = None).

(** The locals of the static [processUsers] seen as the state of a parser
    object that reads [inp] and writes to [out]. *)
Definition toState (inp out : string) (l : CsvParserStatic.Locals) : State :=
  mkState
    (mk inp out (CsvParserStatic.nameIndex l) (CsvParserStatic.emailIndex l)
       (CsvParserStatic.ageIndex l))
    (CsvParserStatic.stats l) (CsvParserStatic.world l).

(** A bound on the number of moves the loop of the concurrent method has
    left: three per line still to pull, one per pending append, and the
    moves of the method itself from where it stands. *)
Definition weight (k : Pc) : nat :=
  match k with
  | Leaving => 0
  | AwaitingRest => 1
  | Pulling => 2
  | AwaitingBatch => 3
  end.

Definition fuel (c : Conc) : nat :=
  3 * List.length (source c) + pendingCount (heap c) + weight (pc c).

End Outline.

(** * Properties *)

(** ** Strings *)

Module JsFacts.

Import Js.

Lemma append_assoc (x y z : string) : (x ++ y) ++ z = x ++ (y ++ z).
Proof. induction x as [|c x IH]; simpl; [reflexivity|now rewrite IH]. Qed.

Lemma append_empty_r (x : string) : x ++ EmptyString = x.
Proof. induction x as [|c x IH]; simpl; [reflexivity|now rewrite IH]. Qed.

Lemma isEmpty_true (s : string) : isEmpty s = true <-> s = EmptyString.
Proof. destruct s; simpl; split; congruence. Qed.

Lemma isEmpty_false (s : string) : isEmpty s = false <-> s <> EmptyString.
Proof. destruct s; simpl; split; congruence. Qed.

Lemma trimEnd_blank (s : string) :
  trimEnd s = EmptyString ->
  forall c, includes c s = true -> isWhiteSpace c = true.
Proof.
  induction s as [|a s IH]; simpl; intros H c Hc; [discriminate|].
  destruct (isWhiteSpace a) eqn:Ha; simpl in H; [|discriminate].
  destruct (isEmpty (trimEnd s)) eqn:He; [|discriminate].
  apply isEmpty_true in He.
  apply orb_true_iff in Hc as [Hc|Hc].
  - apply Ascii.eqb_eq in Hc. now subst.
  - now apply IH.
Qed.

Lemma trimStart_blank (s : string) :
  trimEnd (trimStart s) = EmptyString ->
  forall c, includes c s = true -> isWhiteSpace c = true.
Proof.
  induction s as [|a s IH]; simpl; intros H c Hc; [discriminate|].
  destruct (isWhiteSpace a) eqn:Ha.
  - apply orb_true_iff in Hc as [Hc|Hc].
    + apply Ascii.eqb_eq in Hc. now subst.
    + now apply IH.
  - apply (trimEnd_blank (String a s) H). simpl. exact Hc.
Qed.

(** A string that holds a character other than white space does not trim
    to the empty string. *)
Lemma trim_not_blank (s : string) (c : ascii) :
  includes c s = true -> isWhiteSpace c = false ->
  isEmpty (trim s) = false.
Proof.
  intros Hc Hw. destruct (isEmpty (trim s)) eqn:E; [|reflexivity].
  apply isEmpty_true in E. unfold trim in E.
  rewrite (trimStart_blank s E c Hc) in Hw. discriminate.
Qed.

Lemma split_not_nil (sep : ascii) (s : string) : split sep s <> [].
Proof.
  destruct s as [|a s]; simpl; [discriminate|].
  destruct (Ascii.eqb a sep); [discriminate|].
  destruct (split sep s); discriminate.
Qed.

(** Two fields or more: the separator occurs. *)
Lemma split_two (sep : ascii) (s : string) :
  (2 <= List.length (split sep s))%nat -> includes sep s = true.
Proof.
  induction s as [|a s IH]; simpl; [lia|].
  destruct (Ascii.eqb a sep) eqn:E; [reflexivity|]. simpl.
  pose proof (split_not_nil sep s) as Hn.
  destruct (split sep s) as [|f fs]; [congruence|].
  simpl in *. exact IH.
Qed.

Lemma indexOf_range (xs : list string) (x : string) :
  indexOf xs x = -1 \/ 0 <= indexOf xs x < Z.of_nat (List.length xs).
Proof.
  induction xs as [|y ys IH]; simpl; [now left|].
  destruct (String.eqb y x); [right; lia|].
  destruct (indexOf ys x <? 0) eqn:E; [now left|].
  apply Z.ltb_ge in E. right. lia.
Qed.

Lemma indexOf_found (xs : list string) (x : string) :
  indexOf xs x <> -1 -> get xs (indexOf xs x) = Some x.
Proof.
  unfold get. induction xs as [|y ys IH]; simpl; [congruence|].
  destruct (String.eqb y x) eqn:E.
  - intros _. apply String.eqb_eq in E. now subst.
  - destruct (indexOf ys x <? 0) eqn:L; [congruence|]. intros _.
    apply Z.ltb_ge in L.
    assert (Hn : indexOf ys x <> -1) by lia. specialize (IH Hn).
    replace (indexOf ys x <? 0) with false in IH by (symmetry; now apply Z.ltb_ge).
    replace (indexOf ys x + 1 <? 0) with false by (symmetry; apply Z.ltb_ge; lia).
    replace (Z.to_nat (indexOf ys x + 1)) with (S (Z.to_nat (indexOf ys x))) by lia.
    exact IH.
Qed.

(** Two names found at the same position are the same name. *)
Lemma indexOf_inj (xs : list string) (x y : string) :
  indexOf xs x <> -1 -> indexOf xs x = indexOf xs y -> x = y.
Proof.
  intros Hx E. pose proof (indexOf_found xs x Hx) as Fx.
  assert (Hy : indexOf xs y <> -1) by congruence.
  pose proof (indexOf_found xs y Hy) as Fy. congruence.
Qed.

Lemma get_length (xs : list string) (i : Z) (x : string) :
  get xs i = Some x -> 0 <= i < Z.of_nat (List.length xs).
Proof.
  unfold get. destruct (i <? 0) eqn:E; [discriminate|].
  apply Z.ltb_ge in E. intros H.
  assert (nth_error xs (Z.to_nat i) <> None) by congruence.
  apply nth_error_Some in H0. lia.
Qed.

(** A trimmed string has no white space left to skip. *)
Lemma trimStart_trim (s : string) : trimStart (trim s) = trim s.
Proof.
  unfold trim. induction s as [|c s IH]; cbn [trimStart]; [reflexivity|].
  destruct (isWhiteSpace c) eqn:W; [exact IH|].
  cbn [trimEnd]. rewrite W. cbn [andb trimStart]. now rewrite W.
Qed.

End JsFacts.

(** ** One line *)

Module LineFacts.

Import CsvParser Ledger JsFacts.

Lemma truthy_some (s : string) : Js.truthy (Some s) = negb (Js.isEmpty s).
Proof. reflexivity. Qed.

(** [processUsersLineSync] follows the verdict. *)
Lemma sync_verdict (line : string) (s : State) :
  processUsersLineSync line s =
  match verdict (this s) line with
  | Blank => (Ok Finished, s)
  | Skipped => (Ok Finished, skip s)
  | Accepted l => (Ok (Awaiting (outputFilePath (this s)) (EOL ++ l)), s)
  end.
Proof.
  unfold processUsersLineSync, verdict.
  destruct (Js.isEmpty (Js.trim line)); [reflexivity|].
  unfold bind, getThis, ret, incSkipped, skip.
  destruct (Js.get (Js.split "," line) (nameIndex (this s))) as [n|];
    [|reflexivity].
  destruct (Js.get (Js.split "," line) (emailIndex (this s))) as [e|];
    [|simpl; destruct (Js.isEmpty n); reflexivity].
  destruct (Js.get (Js.split "," line) (ageIndex (this s))) as [a|];
    [|simpl; destruct (Js.isEmpty n), (Js.isEmpty e); reflexivity].
  rewrite !truthy_some, !negb_involutive.
  destruct (Js.isEmpty n || Js.isEmpty e || Js.isEmpty a)%bool; [reflexivity|].
  simpl Js.str.
  destruct (processUser _) as [l|]; simpl; [|reflexivity].
  destruct (Js.isEmpty l); reflexivity.
Qed.

(** The awaited call, by verdict. *)
Lemma line_verdict (line : string) (s : State) :
  processUsersLine line s =
  match verdict (this s) line with
  | Blank => (Ok tt, s)
  | Skipped => (Ok tt, skip s)
  | Accepted l =>
      let (r, w) := Fs.appendFile (outputFilePath (this s)) (EOL ++ l)
                      (world s) in
      processUsersLineResume r (mkState (this s) (stats s) w)
  end.
Proof.
  unfold processUsersLine, bind. rewrite sync_verdict.
  destruct (verdict (this s) line); try reflexivity.
  unfold settled, appendFile, liftFs, getThis. simpl.
  destruct (Fs.appendFile _ _ _) as [r w]. reflexivity.
Qed.

(** The lines of a file do not change the parser object. *)
Lemma line_this (line : string) (s : State) :
  this (snd (processUsersLine line s)) = this s.
Proof.
  rewrite line_verdict. destruct (verdict (this s) line); try reflexivity.
  destruct (Fs.appendFile _ _ _) as [[[]|e] w]; reflexivity.
Qed.

Lemma resolved_distinct (p : t) :
  Resolved p -> nameIndex p <> emailIndex p.
Proof.
  intros (hs & Hn & He & _ & Nn & _) E. rewrite Hn, He in E.
  rewrite Hn in Nn. apply indexOf_inj in E; [discriminate|exact Nn].
Qed.

(** With resolved indices, a line that has its name and email fields is not
    blank: it holds a comma. *)
Lemma fields_not_blank (p : t) (line n e : string) :
  Resolved p ->
  Js.get (Js.split "," line) (nameIndex p) = Some n ->
  Js.get (Js.split "," line) (emailIndex p) = Some e ->
  Js.isEmpty (Js.trim line) = false.
Proof.
  intros R Hn He. pose proof (resolved_distinct p R) as D.
  apply get_length in Hn, He.
  apply (trim_not_blank line ","); [|reflexivity].
  apply split_two. lia.
Qed.

End LineFacts.

(** ** Fields, empty and numeric *)

Module Fields.

Import CsvParser Ledger JsFacts LineFacts.

Lemma append_not_empty (x : string) (c : ascii) (y : string) :
  Js.isEmpty (x ++ String c y) = false.
Proof. destruct x; reflexivity. Qed.

(** A line with one of its three fields empty, or with an email or an age
    that trims to nothing, has the verdict [Skipped]. *)
Lemma verdict_empty_field (p : t) (line n e a : string) :
  Resolved p ->
  Js.get (Js.split "," line) (nameIndex p) = Some n ->
  Js.get (Js.split "," line) (emailIndex p) = Some e ->
  Js.get (Js.split "," line) (ageIndex p) = Some a ->
  n = EmptyString \/ e = EmptyString \/ a = EmptyString
  \/ Js.trim e = EmptyString \/ Js.trim a = EmptyString ->
  verdict p line = Skipped.
Proof.
  intros R Hn He Ha H. unfold verdict.
  rewrite (fields_not_blank p line n e R Hn He), Hn, He, Ha.
  destruct (Js.isEmpty n || Js.isEmpty e || Js.isEmpty a)%bool eqn:G;
    [reflexivity|].
  apply orb_false_iff in G as [G Ga]. apply orb_false_iff in G as [Gn Ge].
  apply isEmpty_false in Gn, Ge, Ga.
  destruct H as [H|[H|[H|[H|H]]]]; try contradiction.
  - unfold processUser. simpl. rewrite H. reflexivity.
  - unfold processUser. simpl. rewrite H.
    destruct (negb _); reflexivity.
Qed.

(** *** The age *)

Lemma digits_nonneg (s : string) :
  forall acc seen v, 0 <= acc -> Js.digits acc seen s = Some v -> 0 <= v.
Proof.
  induction s as [|c s IH]; simpl; intros acc seen v Hacc H.
  - destruct seen; congruence.
  - destruct (Js.digit c) as [d|] eqn:D.
    + assert (Hd : 0 <= d).
      { unfold Js.digit in D. destruct (_ && _)%bool; inversion D; lia. }
      apply (IH (acc * 10 + d) true v); [lia|exact H].
    + destruct seen; congruence.
Qed.

(** Reading stops at the first character that is not a digit. *)
Lemma digits_prefix (ds rest : string) :
  Js.allDigits ds = true -> Js.startsWithDigit rest = false ->
  forall acc seen,
    Js.digits acc seen (ds ++ rest) = Js.digits acc seen ds.
Proof.
  intros Hd Hr. induction ds as [|c ds IH]; simpl; intros acc seen.
  - destruct rest as [|c r]; [reflexivity|]. simpl in *.
    unfold Js.isDigit in Hr. destruct (Js.digit c); [discriminate|reflexivity].
  - simpl in Hd. apply andb_true_iff in Hd as [Hc Hd].
    unfold Js.isDigit in Hc. destruct (Js.digit c); [|discriminate].
    now apply IH.
Qed.

Lemma digit_plain (c : ascii) :
  Js.isDigit c = true ->
  Js.isWhiteSpace c = false /\ Ascii.eqb c "-" = false
  /\ Ascii.eqb c "+" = false.
Proof.
  unfold Js.isDigit, Js.digit, Js.isWhiteSpace. intros H.
  destruct (Nat.leb 48 (nat_of_ascii c) && Nat.leb (nat_of_ascii c) 57)%bool
    eqn:E; [|discriminate].
  apply andb_true_iff in E as [L U].
  apply Nat.leb_le in L, U.
  assert (Hm : nat_of_ascii c <> 45%nat /\ nat_of_ascii c <> 43%nat) by lia.
  repeat split.
  - repeat (apply orb_false_iff; split); apply Nat.eqb_neq; lia.
  - apply Ascii.eqb_neq. intros ->. now destruct Hm.
  - apply Ascii.eqb_neq. intros ->. now destruct Hm.
Qed.

(** [parseInt] on a run of digits followed by anything else. *)
Lemma parseInt_prefix (ds rest : string) (v : Z) :
  Js.allDigits ds = true -> ds <> EmptyString ->
  Js.startsWithDigit rest = false ->
  Js.digits 0 false ds = Some v ->
  Js.parseInt (ds ++ rest) = Js.Num v.
Proof.
  intros Hd Hne Hr Hv. destruct ds as [|c ds]; [congruence|].
  pose proof Hd as Hd'. simpl in Hd'. apply andb_true_iff in Hd' as [Hc _].
  destruct (digit_plain c Hc) as (W & M & P).
  unfold Js.parseInt. simpl append. simpl Js.trimStart. rewrite W, M, P.
  change (String c (ds ++ rest)) with (String c ds ++ rest).
  rewrite (digits_prefix _ _ Hd Hr), Hv. reflexivity.
Qed.

Lemma includes_not_empty (c : ascii) (e : string) :
  Js.includes c (Js.trim e) = true -> e <> EmptyString.
Proof. intros H ->. discriminate. Qed.

Lemma trim_not_empty (a : string) :
  Js.trim a <> EmptyString -> a <> EmptyString.
Proof. intros H ->. now apply H. Qed.

(** (C2, as the code has it) A line whose three indexed fields are present
    is skipped, the counter of skipped lines going up by one and nothing
    being written, as soon as one of the fields is the empty string, or the
    email or the age is empty once trimmed. *)
Theorem empty_field_is_skipped (s : State) (line n e a : string) :
  Resolved (this s) ->
  Js.get (Js.split "," line) (nameIndex (this s)) = Some n ->
  Js.get (Js.split "," line) (emailIndex (this s)) = Some e ->
  Js.get (Js.split "," line) (ageIndex (this s)) = Some a ->
  n = EmptyString \/ e = EmptyString \/ a = EmptyString
  \/ Js.trim e = EmptyString \/ Js.trim a = EmptyString ->
  processUsersLine line s = (Ok tt, skip s)
  /\ world (skip s) = world s
  /\ Stats.skipped (stats (skip s)) = Stats.skipped (stats s) + 1
  /\ Stats.processed (stats (skip s)) = Stats.processed (stats s).
Proof.
  intros R Hn He Ha H. rewrite line_verdict.
  rewrite (verdict_empty_field _ _ _ _ _ R Hn He Ha H). now repeat split.
Qed.

(** The theorem at the line [,email@example.com,25] of the tests. *)
Lemma empty_field_is_skipped_witness :
  let s := mkState Sample.resolved Stats.new
             (Sample.worldOf Sample.scenario Sample.writable) in
  processUsersLine ",email@example.com,25" s = (Ok tt, skip s)
  /\ world (skip s) = world s
  /\ Stats.skipped (stats (skip s)) = Stats.skipped (stats s) + 1
  /\ Stats.processed (stats (skip s)) = Stats.processed (stats s).
Proof.
  apply (empty_field_is_skipped _ ",email@example.com,25"
           EmptyString "email@example.com" "25").
  - exists ["name"; "email"; "age"]. repeat split; discriminate.
  - reflexivity.
  - reflexivity.
  - reflexivity.
  - left. reflexivity.
Defined.

(** (C2, as stated) A line whose name field holds white space only has its
    three fields present and its name empty once trimmed; it is not skipped
    but counted as processed, and a line with an empty name is written. *)
Lemma whitespace_name_is_processed :
  let line := " ,a@b.c,25" in
  let s := mkState Sample.resolved Stats.new
             (Fs.writeFile "data/out.csv" headerLine
                (Sample.worldOf Sample.scenario Sample.writable)) in
  Js.get (Js.split "," line) (nameIndex (this s)) = Some " "
  /\ Js.get (Js.split "," line) (emailIndex (this s)) = Some "a@b.c"
  /\ Js.get (Js.split "," line) (ageIndex (this s)) = Some "25"
  /\ Js.trim " " = EmptyString
  /\ processUsersLine line s <> (Ok tt, skip s)
  /\ Sample.observe (processUsersLine line s)
     = (Ok tt, Stats.mk 1 0, Some ("name,email,age" ++ EOL ++ ",a@b.c,25")).
Proof.
  cbv zeta. repeat split; try reflexivity.
  intros E. apply (f_equal (fun r => Stats.processed (stats (snd r)))) in E.
  vm_compute in E. discriminate.
Qed.

(** The state after the append of [chunk] succeeded and was counted. *)
Lemma accepted_line (s : State) (line l : string) :
  verdict (this s) line = Accepted l ->
  Fs.appendOk (world s) (Fs.appendCalls (world s)) = true ->
  let r := processUsersLine line s in
  fst r = Ok tt
  /\ stats (snd r)
     = Stats.mk (Stats.processed (stats s) + 1) (Stats.skipped (stats s))
  /\ Fs.files (world (snd r)) (outputFilePath (this s))
     = Some (match Fs.files (world s) (outputFilePath (this s)) with
             | Some old => old
             | None => EmptyString
             end ++ EOL ++ l).
Proof.
  intros V Hok. cbv zeta. rewrite line_verdict, V.
  unfold Fs.appendFile, Fs.appendIssue, Fs.appendComplete. simpl.
  rewrite Hok. simpl. repeat split.
  unfold Fs.store. now rewrite String.eqb_refl.
Qed.

Lemma digits_none (r : string) (acc : Z) :
  Js.startsWithDigit r = false -> Js.digits acc false r = None.
Proof.
  destruct r as [|c r]; cbn [Js.startsWithDigit Js.digits]; [reflexivity|].
  unfold Js.isDigit. destruct (Js.digit c); [discriminate|reflexivity].
Qed.

(** An age that starts neither with a digit nor with a sign and a digit is
    not a number. *)
Lemma parseInt_no_digit (a : string) :
  Js.startsWithDigit (Js.trim a) = false ->
  (forall c r, Js.trim a = String c r ->
               c = "-"%char \/ c = "+"%char -> Js.startsWithDigit r = false) ->
  Js.parseInt (Js.trim a) = Js.NaN.
Proof.
  intros Hd Hs. unfold Js.parseInt. rewrite trimStart_trim.
  destruct (Js.trim a) as [|c r] eqn:T; [reflexivity|].
  destruct (Ascii.eqb c "-") eqn:M.
  - apply Ascii.eqb_eq in M.
    now rewrite (digits_none r 0 (Hs c r eq_refl (or_introl M))).
  - destruct (Ascii.eqb c "+") eqn:P.
    + apply Ascii.eqb_eq in P.
      now rewrite (digits_none r 0 (Hs c r eq_refl (or_intror P))).
    + now rewrite (digits_none _ 0 Hd).
Qed.

(** A minus sign and digits. *)
Lemma parseInt_minus (a ds rest : string) (v : Z) :
  Js.trim a = String "-" (ds ++ rest) ->
  Js.allDigits ds = true -> Js.startsWithDigit rest = false ->
  Js.digits 0 false ds = Some v ->
  Js.parseInt (Js.trim a) = Js.Num (- v).
Proof.
  intros Ht Hd Hr Hv. unfold Js.parseInt. rewrite trimStart_trim, Ht.
  change (Ascii.eqb "-" "-") with true. cbv iota.
  now rewrite (digits_prefix _ _ Hd Hr), Hv.
Qed.

(** (C5) With the three indexed fields of a line present, the age is read
    once trimmed.  An age that starts neither with a digit nor with a sign
    followed by a digit, such as [abc], is not a number, and the line is
    skipped.  An age that is a minus sign and digits of a value other than
    zero, such as [-5], is negative, and the line is skipped.  An age that
    is a run of digits followed by something that is not a digit, such as
    [25extra], is read as the value of the digits, and the line, if its name
    is not empty and its email holds an [@], is accepted and written with
    that value as its age.  Values are stated up to
    [Number.MAX_SAFE_INTEGER], where the integers of the model are the
    numbers of the program and [String] prints all their digits. *)
Theorem age_is_parsed_by_prefix (s : State) (line n e a : string) :
  Resolved (this s) ->
  Js.get (Js.split "," line) (nameIndex (this s)) = Some n ->
  Js.get (Js.split "," line) (emailIndex (this s)) = Some e ->
  Js.get (Js.split "," line) (ageIndex (this s)) = Some a ->
  (Js.parseInt "abc" = Js.NaN /\ Js.parseInt "25extra" = Js.Num 25)
  /\ (Js.startsWithDigit (Js.trim a) = false ->
      (forall c r, Js.trim a = String c r ->
                   c = "-"%char \/ c = "+"%char ->
                   Js.startsWithDigit r = false) ->
      Js.parseInt (Js.trim a) = Js.NaN
      /\ processUsersLine line s = (Ok tt, skip s))
  /\ (forall ds rest v,
        Js.trim a = String "-" (ds ++ rest) ->
        Js.allDigits ds = true -> ds <> EmptyString ->
        Js.startsWithDigit rest = false ->
        Js.digits 0 false ds = Some v -> 0 < v ->
        (v <= Outline.MAX_SAFE_INTEGER ->
         Js.parseInt (Js.trim a) = Js.Num (- v))
        /\ processUsersLine line s = (Ok tt, skip s))
  /\ (forall ds rest v,
        Js.trim a = ds ++ rest ->
        Js.allDigits ds = true -> ds <> EmptyString ->
        Js.startsWithDigit rest = false ->
        Js.digits 0 false ds = Some v ->
        v <= Outline.MAX_SAFE_INTEGER ->
        Js.parseInt (Js.trim a) = Js.Num v
        /\ (n <> EmptyString -> Js.includes "@" (Js.trim e) = true ->
            let out := Js.join "," [Js.toUpperCase (Js.trim n); Js.trim e;
                                    Js.toString v] in
            verdict (this s) line = Accepted out
            /\ (Fs.appendOk (world s) (Fs.appendCalls (world s)) = true ->
                let r := processUsersLine line s in
                fst r = Ok tt
                /\ stats (snd r)
                   = Stats.mk (Stats.processed (stats s) + 1)
                              (Stats.skipped (stats s))
                /\ Fs.files (world (snd r)) (outputFilePath (this s))
                   = Some (match Fs.files (world s) (outputFilePath (this s))
                           with
                           | Some old => old
                           | None => EmptyString
                           end ++ EOL ++ out)))).
Proof.
  intros R Hn He Ha.
  pose proof (fields_not_blank _ line n e R Hn He) as NB.
  assert (Vskip : processUser (mkUser (Js.trim n) (Js.trim e)
                                 (Js.parseInt (Js.trim a))) = None ->
                  processUsersLine line s = (Ok tt, skip s)).
  { intros P. rewrite line_verdict. unfold verdict.
    rewrite NB, Hn, He, Ha, P.
    destruct (_ || _)%bool; reflexivity. }
  split; [split; reflexivity|]. split; [|split].
  - intros Hd Hs. pose proof (parseInt_no_digit a Hd Hs) as P.
    split; [exact P|]. apply Vskip. unfold processUser. simpl. rewrite P.
    destruct (negb _); reflexivity.
  - intros ds rest v Ht Hd Hne Hr Hv Hpos.
    pose proof (parseInt_minus a ds rest v Ht Hd Hr Hv) as P.
    split; [intros _; exact P|]. apply Vskip. unfold processUser. simpl.
    rewrite P. assert (Hneg : (- v <? 0) = true) by (apply Z.ltb_lt; lia).
    rewrite Hneg. destruct (negb _); reflexivity.
  - intros ds rest v Ht Hd Hne Hr Hv _.
    assert (P : Js.parseInt (Js.trim a) = Js.Num v).
    { rewrite Ht. now apply parseInt_prefix. }
    split; [exact P|]. intros Nn Hat. cbv zeta.
    assert (V : verdict (this s) line
                = Accepted (Js.join "," [Js.toUpperCase (Js.trim n);
                                         Js.trim e; Js.toString v])).
    { unfold verdict. rewrite NB, Hn, He, Ha.
      apply isEmpty_false in Nn. rewrite Nn.
      pose proof (includes_not_empty _ _ Hat) as Ne.
      apply isEmpty_false in Ne. rewrite Ne.
      assert (Na : a <> EmptyString).
      { apply trim_not_empty. rewrite Ht. destruct ds; [congruence|discriminate]. }
      apply isEmpty_false in Na. rewrite Na. simpl orb. cbv iota.
      unfold processUser. simpl email. simpl age. simpl name.
      rewrite Hat, P. simpl negb. cbv iota.
      pose proof (digits_nonneg ds 0 false v ltac:(lia) Hv) as Hv0.
      apply Z.ltb_ge in Hv0. rewrite Hv0.
      simpl Js.join. rewrite append_not_empty. reflexivity. }
    split; [exact V|]. intros Hok. now apply accepted_line.
Qed.

(** The theorem at the line [x,a@b.c,25extra], and at ages [abc] and
    [-5]. *)
Lemma age_is_parsed_by_prefix_witness :
  let s := mkState Sample.resolved Stats.new
             (Fs.writeFile "data/out.csv" headerLine
                (Sample.worldOf Sample.scenario Sample.writable)) in
  Sample.observe (processUsersLine "x,a@b.c,25extra" s)
  = (Ok tt, Stats.mk 1 0, Some ("name,email,age" ++ EOL ++ "X,a@b.c,25"))
  /\ processUsersLine "x,a@b.c,abc" s = (Ok tt, skip s)
  /\ processUsersLine "x,a@b.c,-5" s = (Ok tt, skip s).
Proof.
  cbv zeta.
  set (s := mkState Sample.resolved Stats.new
              (Fs.writeFile "data/out.csv" headerLine
                 (Sample.worldOf Sample.scenario Sample.writable))).
  assert (R : Resolved (this s)).
  { exists ["name"; "email"; "age"]. repeat split; discriminate. }
  split; [|split].
  - destruct (age_is_parsed_by_prefix s "x,a@b.c,25extra" "x" "a@b.c"
                "25extra" R eq_refl eq_refl eq_refl) as (_ & _ & _ & H).
    destruct (H "25" "extra" 25 eq_refl eq_refl ltac:(discriminate) eq_refl
                eq_refl ltac:(vm_compute; discriminate)) as (_ & H').
    destruct (H' ltac:(discriminate) eq_refl) as (_ & H'').
    destruct (H'' eq_refl) as (H1 & H2 & H3).
    unfold Sample.observe. rewrite H1, H2.
    change (Fs.files (world (snd (processUsersLine "x,a@b.c,25extra" s)))
              (outputFilePath (this s))
            = Some ("name,email,age" ++ EOL ++ "X,a@b.c,25")) in H3.
    change "data/out.csv" with (outputFilePath (this s)).
    rewrite H3. reflexivity.
  - destruct (age_is_parsed_by_prefix s "x,a@b.c,abc" "x" "a@b.c"
                "abc" R eq_refl eq_refl eq_refl) as (_ & H & _).
    apply H; [reflexivity|].
    intros c r E [-> | ->]; vm_compute in E; discriminate E.
  - destruct (age_is_parsed_by_prefix s "x,a@b.c,-5" "x" "a@b.c"
                "-5" R eq_refl eq_refl eq_refl) as (_ & _ & H & _).
    apply (H "5" EmptyString 5); try reflexivity. discriminate.
Defined.

End Fields.

(** ** The ends of a run: [safeDelete], the [catch] block, the last lines *)

Module RunFacts.

Import CsvParser Ledger JsFacts LineFacts.

Lemma state_eta (s : State) : mkState (this s) (stats s) (world s) = s.
Proof. now destruct s. Qed.

Lemma safeDelete_cases (path : string) (s : State) :
  safeDelete path s =
  (Ok tt,
   match Fs.files (world s) path with
   | Some _ =>
       mkState (this s) (stats s)
         (Fs.setFiles (Fs.store path None (Fs.files (world s))) (world s))
   | None => s
   end).
Proof.
  unfold safeDelete, tryCatch, unlink, liftFs, Fs.unlink, ret.
  destruct (Fs.files (world s) path); [reflexivity|].
  now rewrite state_eta.
Qed.

Lemma safeDelete_gone (path : string) (s : State) :
  Fs.files (world (snd (safeDelete path s))) path = None.
Proof.
  rewrite safeDelete_cases. simpl.
  destruct (Fs.files (world s) path) eqn:E; simpl; [|exact E].
  unfold Fs.store. now rewrite String.eqb_refl.
Qed.

Lemma safeDelete_keeps (path : string) (s : State) :
  this (snd (safeDelete path s)) = this s
  /\ stats (snd (safeDelete path s)) = stats s.
Proof.
  rewrite safeDelete_cases. simpl.
  destruct (Fs.files (world s) path); now split.
Qed.

(** Deleting a file that does not exist is not an error, and changes
    nothing. *)
Lemma safeDelete_absent (path : string) (s : State) :
  Fs.files (world s) path = None -> safeDelete path s = (Ok tt, s).
Proof. intros E. rewrite safeDelete_cases, E. reflexivity. Qed.

Lemma cleanup_spec {A} (e : Error) (s : State) :
  fst (@cleanup A e s) = Throw e
  /\ this (snd (@cleanup A e s)) = this s
  /\ stats (snd (@cleanup A e s)) = stats s
  /\ Fs.files (world (snd (@cleanup A e s))) (outputFilePath (this s)) = None.
Proof.
  unfold cleanup, bind, getThis, throw.
  pose proof (safeDelete_gone (outputFilePath (this s)) s) as G.
  pose proof (safeDelete_keeps (outputFilePath (this s)) s) as [K1 K2].
  rewrite safeDelete_cases in *. simpl in *. now repeat split.
Qed.

Lemma finish_spec (s : State) :
  fst (finish s) = Ok (stats s)
  /\ stats (snd (finish s)) = stats s
  /\ (Stats.processed (stats s) = 0 ->
      Fs.files (world (snd (finish s))) (outputFilePath (this s)) = None)
  /\ (Stats.processed (stats s) <> 0 -> snd (finish s) = s).
Proof.
  unfold finish, bind, getThis, getStats.
  destruct (Stats.processed (stats s) =? 0) eqn:E.
  - pose proof (safeDelete_gone (outputFilePath (this s)) s) as G.
    pose proof (safeDelete_keeps (outputFilePath (this s)) s) as [K1 K2].
    rewrite safeDelete_cases in *. simpl in *.
    apply Z.eqb_eq in E. repeat split; try assumption; try congruence.
  - apply Z.eqb_neq in E. simpl. repeat split; congruence.
Qed.

(** *** The statements before the loop *)

Lemma processHeaders_spec (h : string) (s : State) :
  processHeaders (Some h) s =
  let p' := mk (inputFilePath (this s)) (outputFilePath (this s))
               (Js.indexOf (Js.split "," h) "name")
               (Js.indexOf (Js.split "," h) "email")
               (Js.indexOf (Js.split "," h) "age") in
  (if lacksColumn h then Throw HeaderError else Ok tt,
   mkState p' (stats s) (world s)).
Proof.
  unfold processHeaders, bind, getThis, setThis, lacksColumn, throw, ret.
  simpl. destruct (_ || _)%bool; reflexivity.
Qed.

Lemma processHeaders_resolved (h : string) (s : State) :
  lacksColumn h = false ->
  Resolved (this (snd (processHeaders (Some h) s))).
Proof.
  intros L. rewrite processHeaders_spec. simpl.
  unfold lacksColumn in L.
  apply orb_false_iff in L as [L La]. apply orb_false_iff in L as [Ln Le].
  apply Z.eqb_neq in Ln, Le, La.
  exists (Js.split "," h). simpl. now repeat split.
Qed.

(** The state in which the stream methods enter their loop, or fail before
    it, for an input file that is not the output file. *)
Lemma openAndReadHeader_spec (p : t) (w : Fs.World) (csv : string) :
  Fs.files w (inputFilePath p) = Some csv ->
  inputFilePath p <> outputFilePath p ->
  let w1 := Fs.writeFile (outputFilePath p) headerLine w in
  (newStats ;; openAndReadHeader) (mkState p Stats.new w) =
  match Fs.readLines csv with
  | [] => (Throw TypeError, mkState p Stats.new w1)
  | h :: rest =>
      let p' := mk (inputFilePath p) (outputFilePath p)
                   (Js.indexOf (Js.split "," h) "name")
                   (Js.indexOf (Js.split "," h) "email")
                   (Js.indexOf (Js.split "," h) "age") in
      (if lacksColumn h then Throw HeaderError else Ok rest,
       mkState p' Stats.new w1)
  end.
Proof.
  intros Hin Hne. cbv zeta.
  unfold openAndReadHeader, getLines, newStats, setStats, bind, getThis,
    writeFile, readFile, liftFs, ret. simpl.
  unfold Fs.readFile, Fs.writeFile. simpl. unfold Fs.store at 1.
  apply String.eqb_neq in Hne. rewrite Hne, Hin.
  destruct (Fs.readLines csv) as [|h rest]; [reflexivity|].
  simpl hd_error. rewrite processHeaders_spec. simpl.
  destruct (lacksColumn h); reflexivity.
Qed.

End RunFacts.

(** ** The sequential loops *)

Module LoopFacts.

Import CsvParser Ledger JsFacts LineFacts RunFacts.

Lemma verdict_blank (p : t) (line : string) :
  verdict p line = Blank <-> isBlank line = true.
Proof.
  unfold verdict, isBlank. destruct (Js.isEmpty (Js.trim line)).
  - now split.
  - split; [|discriminate].
    destruct (Js.get _ (nameIndex p)); [|discriminate].
    destruct (Js.get _ (emailIndex p)); [|discriminate].
    destruct (Js.get _ (ageIndex p)); [|discriminate].
    destruct (_ || _)%bool; [discriminate|].
    destruct (processUser _) as [l|]; [|discriminate].
    destruct (Js.isEmpty l); discriminate.
Qed.

Lemma countNonBlank_cons (line : string) (rest : list string) :
  countNonBlank (line :: rest)
  = (if isBlank line then 0 else 1) + countNonBlank rest.
Proof.
  unfold countNonBlank. cbn [filter].
  destruct (isBlank line); cbn [negb List.length];
    rewrite ?Nat2Z.inj_succ; lia.
Qed.

(** What one awaited line does: a blank line changes nothing; any other
    line that does not throw adds one to exactly one counter. *)
Lemma line_effect (line : string) (s : State) :
  let r := processUsersLine line s in
  this (snd r) = this s
  /\ (isBlank line = true -> r = (Ok tt, s))
  /\ (isBlank line = false -> fst r = Ok tt ->
      (Stats.processed (stats (snd r)) = Stats.processed (stats s) + 1
       /\ Stats.skipped (stats (snd r)) = Stats.skipped (stats s))
      \/ (Stats.processed (stats (snd r)) = Stats.processed (stats s)
          /\ Stats.skipped (stats (snd r)) = Stats.skipped (stats s) + 1))
  /\ (Fs.files (world s) (outputFilePath (this s)) <> None ->
      Fs.files (world (snd r)) (outputFilePath (this s)) <> None).
Proof.
  cbv zeta. split; [apply line_this|].
  rewrite line_verdict. pose proof (verdict_blank (this s) line) as B.
  destruct (verdict (this s) line) as [| |l].
  - split; [reflexivity|]. split; [|tauto].
    intros E. destruct B as [B _]. rewrite (B eq_refl) in E. discriminate.
  - split; [|split; [|tauto]].
    + intros E. apply B in E. discriminate.
    + intros _ _. right. now split.
  - assert (Nb : isBlank line = true -> False).
    { intros E. apply B in E. discriminate. }
    unfold Fs.appendFile, Fs.appendIssue, Fs.appendComplete. simpl.
    destruct (Fs.appendOk (world s) (Fs.appendCalls (world s))); simpl.
    + split; [tauto|]. split.
      * intros _ _. left. now split.
      * intros _. unfold Fs.store. rewrite String.eqb_refl. discriminate.
    + split; [tauto|]. split; [|tauto].
      intros _ E. discriminate.
Qed.

(** The loop over the data lines, awaited one by one. *)
Lemma forEach_effect (lines : list string) :
  forall s,
    let r := forEach lines processUsersLine s in
    this (snd r) = this s
    /\ (fst r = Ok tt ->
        Stats.total (stats (snd r))
        = Stats.total (stats s) + countNonBlank lines)
    /\ (Fs.files (world s) (outputFilePath (this s)) <> None ->
        Fs.files (world (snd r)) (outputFilePath (this s)) <> None).
Proof.
  induction lines as [|line rest IH]; intros s; cbv zeta.
  - simpl. unfold ret, countNonBlank. simpl. repeat split; auto; lia.
  - change (forEach (line :: rest) processUsersLine s)
      with (match processUsersLine line s with
            | (Ok _, s') => forEach rest processUsersLine s'
            | (Throw e, s') => (Throw e, s')
            end).
    destruct (line_effect line s) as (T & Bl & Nb & Ex).
    destruct (processUsersLine line s) as [[[]|e] s1] eqn:E; simpl in *.
    + destruct (IH s1) as (T1 & C1 & E1). rewrite T in *.
      split; [congruence|]. split.
      * intros Hok. rewrite (C1 Hok), countNonBlank_cons.
        destruct (isBlank line) eqn:Hb.
        -- specialize (Bl eq_refl). inversion Bl. subst. lia.
        -- destruct (Nb eq_refl eq_refl) as [[P S]|[P S]];
             unfold Stats.total; rewrite P, S; lia.
      * intros H. apply E1. now apply Ex.
    + repeat split; try assumption. intros H. discriminate.
Qed.

End LoopFacts.

(** ** The heap of promises *)

Module HeapFacts.

Import CsvParser Ledger.

Lemma nth_error_update {A} (xs : list A) (i j : nat) (x : A) :
  nth_error (update i x xs) j
  = if (Nat.eqb j i && Nat.ltb i (List.length xs))%bool
    then Some x else nth_error xs j.
Proof.
  revert i j. induction xs as [|y ys IH]; intros i j; simpl.
  - destruct i; simpl.
    + now rewrite andb_false_r.
    + now rewrite andb_false_r.
  - destruct i as [|i]; simpl.
    + destruct j; reflexivity.
    + destruct j as [|j]; simpl; [reflexivity|].
      rewrite IH. reflexivity.
Qed.

Lemma update_length {A} (xs : list A) (i : nat) (x : A) :
  List.length (update i x xs) = List.length xs.
Proof.
  revert i. induction xs as [|y ys IH]; intros [|i]; simpl; auto.
Qed.

Lemma pendingCount_app (h : list Promise) (pr : Promise) :
  pendingCount (h ++ [pr])%list
  = (pendingCount h + if isPending pr then 1 else 0)%nat.
Proof.
  induction h as [|x h IH]; simpl.
  - destruct pr; reflexivity.
  - destruct x; simpl; rewrite IH; reflexivity.
Qed.

Lemma rejectedCount_app (h : list Promise) (pr : Promise) :
  rejectedCount (h ++ [pr])%list
  = (rejectedCount h + if isRejected pr then 1 else 0)%nat.
Proof.
  induction h as [|x h IH]; simpl.
  - destruct pr; reflexivity.
  - destruct x; simpl; rewrite IH; reflexivity.
Qed.

Lemma pendingOk_app (ok : nat -> bool) (h : list Promise) (pr : Promise) :
  pendingOk ok (h ++ [pr])%list
  = (pendingOk ok h ++ pendingOk ok [pr])%list.
Proof.
  induction h as [|x h IH]; simpl; [reflexivity|].
  destruct x as [n path chunk| |e]; simpl; rewrite ?IH; try reflexivity.
  destruct (ok n); reflexivity.
Qed.

(** Settling the pending promise at [i]. *)
Lemma settle_counts (h : list Promise) (i n : nat) (path chunk : string)
    (pr : Promise) :
  nth_error h i = Some (Pending n path chunk) -> isPending pr = false ->
  S (pendingCount (update i pr h)) = pendingCount h
  /\ rejectedCount (update i pr h)
     = (rejectedCount h + if isRejected pr then 1 else 0)%nat.
Proof.
  revert i. induction h as [|x h IH]; intros i Hi Hp.
  - destruct i; discriminate.
  - destruct i as [|i]; simpl in Hi.
    + inversion Hi; subst. simpl. destruct pr; simpl; try discriminate;
        split; lia.
    + destruct (IH i Hi Hp) as [P R]. simpl.
      destruct x; simpl; split; lia.
Qed.

Lemma settle_chunks (ok : nat -> bool) (h : list Promise) (i n : nat)
    (path chunk : string) (pr : Promise) :
  nth_error h i = Some (Pending n path chunk) -> isPending pr = false ->
  Permutation (pendingOk ok h)
    ((if ok n then [chunk] else []) ++ pendingOk ok (update i pr h))%list.
Proof.
  revert i. induction h as [|x h IH]; intros i Hi Hp.
  - destruct i; discriminate.
  - destruct i as [|i]; simpl in Hi.
    + inversion Hi; subst. simpl.
      destruct pr; try discriminate; destruct (ok n); apply Permutation_refl.
    + specialize (IH i Hi Hp). simpl.
      destruct x as [m q d| |e]; simpl; try exact IH.
      destruct (ok m); [|exact IH].
      rewrite IH. destruct (ok n); simpl; [apply perm_swap|apply Permutation_refl].
Qed.

Lemma no_pending (h : list Promise) :
  (forall i n path chunk, nth_error h i <> Some (Pending n path chunk)) ->
  pendingCount h = O /\ forall ok, pendingOk ok h = [].
Proof.
  induction h as [|x h IH]; intros H; [now split|].
  assert (H' : forall i n path chunk,
             nth_error h i <> Some (Pending n path chunk)).
  { intros i. apply (H (S i)). }
  destruct (IH H') as [P Q].
  destruct x as [n path chunk| |e]; simpl; try (split; [exact P|exact Q]).
  exfalso. now apply (H 0%nat n path chunk).
Qed.

Lemma allSettled_no_pending (h : list Promise) (ps : list nat) :
  allSettled h ps = true ->
  (forall i n path chunk,
      nth_error h i = Some (Pending n path chunk) -> In i ps) ->
  forall i n path chunk, nth_error h i <> Some (Pending n path chunk).
Proof.
  intros A S i n path chunk E. pose proof (S _ _ _ _ E) as Hin.
  unfold allSettled in A. rewrite forallb_forall in A.
  specialize (A i Hin). unfold isSettled in A. rewrite E in A. discriminate.
Qed.

Lemma allSettled_update (h : list Promise) (ps : list nat) (i : nat)
    (pr : Promise) :
  isPending pr = false -> allSettled h ps = true ->
  allSettled (update i pr h) ps = true.
Proof.
  unfold allSettled. rewrite !forallb_forall. intros Hp A j Hj.
  specialize (A j Hj). unfold isSettled in *. rewrite nth_error_update.
  destruct (_ && _)%bool; [now destruct pr|exact A].
Qed.

Lemma concat_snoc (done : list string) (chunk : string) :
  String.concat EmptyString (done ++ [chunk])
  = String.concat EmptyString done ++ chunk.
Proof.
  induction done as [|x done IH]; [reflexivity|].
  destruct done as [|y done].
  - simpl. reflexivity.
  - change (String.concat EmptyString ((x :: y :: done) ++ [chunk]))
      with (x ++ String.concat EmptyString ((y :: done) ++ [chunk])).
    rewrite IH.
    change (String.concat EmptyString (x :: y :: done))
      with (x ++ String.concat EmptyString (y :: done)).
    now rewrite JsFacts.append_assoc.
Qed.

End HeapFacts.

(** ** The concurrent loop *)

Module ConcFacts.

Import CsvParser Ledger JsFacts LineFacts RunFacts LoopFacts HeapFacts.

(** Launching a call, by verdict. *)
Lemma launch_verdict (line : string) (s : State) :
  launch line s =
  match verdict (this s) line with
  | Blank => (Fulfilled, s)
  | Skipped => (Fulfilled, skip s)
  | Accepted l =>
      (Pending (Fs.appendCalls (world s)) (outputFilePath (this s)) (EOL ++ l),
       mkState (this s) (stats s)
         (Fs.mk (Fs.files (world s)) (S (Fs.appendCalls (world s)))
            (Fs.appendOk (world s))))
  end.
Proof.
  unfold launch. rewrite sync_verdict.
  destruct (verdict (this s) line); reflexivity.
Qed.

(** Completing a call, by the oracle. *)
Lemma resume_cases (n : nat) (path chunk : string) (s : State) :
  resume n path chunk s =
  if Fs.appendOk (world s) n then
    (Fulfilled,
     mkState (this s)
       (Stats.mk (Stats.processed (stats s) + 1) (Stats.skipped (stats s)))
       (Fs.setFiles
          (Fs.store path
             (Some (match Fs.files (world s) path with
                    | Some c => c
                    | None => EmptyString
                    end ++ chunk))
             (Fs.files (world s)))
          (world s)))
  else (Rejected (SystemError "EIO"), s).
Proof.
  unfold resume, Fs.appendComplete.
  destruct (Fs.appendOk (world s) n); simpl; [reflexivity|].
  now rewrite state_eta.
Qed.

Lemma resume_settled (n : nat) (path chunk : string) (s : State) :
  isPending (fst (resume n path chunk s)) = false.
Proof.
  rewrite resume_cases. now destruct (Fs.appendOk (world s) n).
Qed.

Lemma batchSize_pos : (0 < batchSize)%nat.
Proof. unfold batchSize. lia. Qed.

Ltac conc_simpl :=
  cbn [source promises heap st pc this stats world skip Stats.processed
       Stats.skipped Fs.files Fs.appendCalls Fs.appendOk Fs.setFiles] in *.

Section Invariant.

Variables (p : t) (ok : nat -> bool) (K : list string) (NS NB : Z).

Lemma launch_inv (c : Conc) (line : string) (rest : list string)
    (pr : Promise) (s' : State) :
  Inv p ok K NS NB c ->
  pc c = Pulling ->
  source c = line :: rest ->
  launch line (st c) = (pr, s') ->
  Inv p ok K NS NB
    (mkConc rest (promises c ++ [List.length (heap c)])%list
       (heap c ++ [pr])%list s'
       (if (batchSize <=? S (List.length (promises c)))%nat
        then AwaitingBatch else Pulling)).
Proof.
  intros [It Io Ip Is Itot Iw Ipe Ic Ib Ipu Iso Il Ia] Hpc Hsrc HL.
  specialize (Ipu Hpc).
  rewrite launch_verdict, It in HL.
  rewrite Hsrc in Is, Itot, Iw.
  rewrite countNonBlank_cons in Itot. cbn [countSkipped] in Is.
  cbn [okChunks] in Iw.
  pose proof (verdict_blank p line) as VB.
  assert (Hpath : forall i n path chunk,
             isPending pr = false \/ pr = Pending (Fs.appendCalls (world (st c))) (outputFilePath p)
                                           match verdict p line with Accepted l => EOL ++ l | _ => EmptyString end ->
             nth_error (heap c ++ [pr]) i = Some (Pending n path chunk) ->
             path = outputFilePath p
             /\ In i (promises c ++ [List.length (heap c)])).
  { intros i n path chunk Hpr Hi.
    destruct (Nat.lt_ge_cases i (List.length (heap c))) as [Hlt|Hge].
    - rewrite nth_error_app1 in Hi by exact Hlt.
      split; [now apply (Ip _ _ _ _ Hi)|].
      apply in_or_app. left. now apply (Ipe _ _ _ _ Hi).
    - rewrite nth_error_app2 in Hi by exact Hge.
      destruct (i - List.length (heap c))%nat as [|k] eqn:Ek.
      + simpl in Hi. inversion Hi as [Hpr']. subst pr.
        destruct Hpr as [Hpr|Hpr]; [discriminate|].
        inversion Hpr; subst. split; [reflexivity|].
        apply in_or_app. right. left. lia.
      + simpl in Hi. destruct k; discriminate. }
  assert (Hlen : List.length (promises c ++ [List.length (heap c)])
                 = S (List.length (promises c))).
  { rewrite length_app. simpl. lia. }
  assert (Hpc' : forall q : Pc,
             (if (batchSize <=? S (List.length (promises c)))%nat
              then AwaitingBatch else Pulling) = q ->
             (q = Pulling -> (S (List.length (promises c)) < batchSize)%nat)
             /\ q <> AwaitingRest /\ q <> Leaving
             /\ (q = AwaitingBatch ->
                 S (List.length (promises c)) = batchSize)).
  { intros q <-. destruct (batchSize <=? S (List.length (promises c)))%nat eqn:E.
    - apply Nat.leb_le in E. repeat split; try discriminate. intros _. lia.
    - apply Nat.leb_gt in E. repeat split; try discriminate. intros _. exact E. }
  destruct (Hpc' _ eq_refl) as (Q1 & Q2 & Q3 & Q4).
  destruct (verdict p line) as [| |l] eqn:V; inversion HL; subst pr s';
    clear HL.
  - (* blank *)
    assert (Bl : isBlank line = true) by now apply VB.
    rewrite Bl in Itot.
    constructor; conc_simpl; try assumption; try reflexivity.
    + intros i n path chunk Hi. now apply (Hpath i n path chunk (or_introl eq_refl)).
    + rewrite pendingCount_app, rejectedCount_app. cbn [isPending isRejected]. lia.
    + rewrite pendingOk_app. simpl. rewrite app_nil_r. exact Iw.
    + intros i n path chunk Hi. now apply (Hpath i n path chunk (or_introl eq_refl)).
    + rewrite pendingCount_app, Hlen. cbn [isPending]. lia.
    + rewrite Hlen. lia.
    + rewrite Hlen. exact Q1.
    + intros [H|H]; [now apply Q2 in H|now apply Q3 in H].
    + intros H. now apply Q3 in H.
    + rewrite Hlen. exact Q4.
  - (* skipped *)
    assert (Bl : isBlank line = false).
    { destruct (isBlank line); [|reflexivity].
      destruct VB as [_ VB]. specialize (VB eq_refl). discriminate. }
    rewrite Bl in Itot.
    constructor; conc_simpl; try assumption; try reflexivity.
    + intros i n path chunk Hi. now apply (Hpath i n path chunk (or_introl eq_refl)).
    + lia.
    + rewrite pendingCount_app, rejectedCount_app. cbn [isPending isRejected].
      unfold Stats.total in *. conc_simpl. lia.
    + rewrite pendingOk_app. simpl. rewrite app_nil_r. exact Iw.
    + intros i n path chunk Hi. now apply (Hpath i n path chunk (or_introl eq_refl)).
    + rewrite pendingCount_app, Hlen. cbn [isPending]. lia.
    + rewrite Hlen. lia.
    + rewrite Hlen. exact Q1.
    + intros [H|H]; [now apply Q2 in H|now apply Q3 in H].
    + intros H. now apply Q3 in H.
    + rewrite Hlen. exact Q4.
  - (* accepted *)
    assert (Bl : isBlank line = false).
    { destruct (isBlank line); [|reflexivity].
      destruct VB as [_ VB]. specialize (VB eq_refl). discriminate. }
    rewrite Bl in Itot.
    constructor; conc_simpl; try assumption; try reflexivity.
    + intros i n path chunk Hi. now apply (Hpath i n path chunk (or_intror eq_refl)).
    + rewrite pendingCount_app, rejectedCount_app. cbn [isPending isRejected]. lia.
    + destruct Iw as (done & F & P & Perm). exists done.
      split; [exact F|]. split; [exact P|].
      rewrite pendingOk_app. simpl pendingOk.
      rewrite <- app_assoc.
      destruct (ok (Fs.appendCalls (world (st c)))); simpl; exact Perm.
    + intros i n path chunk Hi. now apply (Hpath i n path chunk (or_intror eq_refl)).
    + rewrite pendingCount_app, Hlen. cbn [isPending]. lia.
    + rewrite Hlen. lia.
    + rewrite Hlen. exact Q1.
    + intros [H|H]; [now apply Q2 in H|now apply Q3 in H].
    + intros H. now apply Q3 in H.
    + rewrite Hlen. exact Q4.
Qed.

Lemma complete_inv (c : Conc) (i n : nat) (path chunk : string)
    (pr : Promise) (s' : State) :
  Inv p ok K NS NB c ->
  nth_error (heap c) i = Some (Pending n path chunk) ->
  resume n path chunk (st c) = (pr, s') ->
  Inv p ok K NS NB
    (mkConc (source c) (promises c) (update i pr (heap c)) s' (pc c)).
Proof.
  intros [It Io Ip Is Itot Iw Ipe Ic Ib Ipu Iso Il Ia] Hi HR.
  pose proof (resume_settled n path chunk (st c)) as Hset.
  rewrite HR in Hset. cbn [fst] in Hset.
  pose proof (Ip _ _ _ _ Hi) as Hp. subst path.
  destruct (settle_counts _ _ _ _ _ pr Hi Hset) as [Cp Cr].
  pose proof (settle_chunks ok _ _ _ _ _ pr Hi Hset) as Ch.
  assert (Hold : forall j m q d,
             nth_error (update i pr (heap c)) j = Some (Pending m q d) ->
             nth_error (heap c) j = Some (Pending m q d)).
  { intros j m q d Hj. rewrite nth_error_update in Hj.
    destruct (_ && _)%bool; [|exact Hj].
    inversion Hj; subst pr. discriminate. }
  rewrite resume_cases, Io in HR.
  destruct (ok n) eqn:On; inversion HR; subst pr s'; clear HR.
  - constructor; conc_simpl; try assumption.
    + intros j m q d Hj. apply (Ip j m q d). now apply Hold.
    + unfold Stats.total in *. conc_simpl. cbn [isRejected] in Cr. lia.
    + destruct Iw as (done & F & P & Perm).
      exists (done ++ [chunk])%list. split; [|split].
      * unfold Fs.store. rewrite String.eqb_refl, F, concat_snoc.
        now rewrite append_assoc.
      * rewrite P, length_app. cbn [List.length]. lia.
      * rewrite <- Perm, <- app_assoc. apply Permutation_app_head.
        rewrite Ch. cbn [app]. apply Permutation_refl.
    + intros j m q d Hj. apply (Ipe j m q d). now apply Hold.
    + lia.
    + intros H. apply allSettled_update; [reflexivity|now apply Il].
  - constructor; conc_simpl; try assumption.
    + intros j m q d Hj. apply (Ip j m q d). now apply Hold.
    + cbn [isRejected] in Cr. lia.
    + destruct Iw as (done & F & P & Perm).
      exists done. split; [exact F|]. split; [exact P|].
      rewrite <- Perm. apply Permutation_app_head, Permutation_app_tail.
      rewrite Ch. apply Permutation_refl.
    + intros j m q d Hj. apply (Ipe j m q d). now apply Hold.
    + lia.
    + intros H. apply allSettled_update; [reflexivity|now apply Il].
Qed.

Lemma batch_inv (c : Conc) :
  Inv p ok K NS NB c ->
  allSettled (heap c) (promises c) = true ->
  Inv p ok K NS NB (mkConc (source c) [] (heap c) (st c) Pulling).
Proof.
  intros [It Io Ip Is Itot Iw Ipe Ic Ib Ipu Iso Il Ia] A.
  pose proof (allSettled_no_pending _ _ A Ipe) as Hno.
  destruct (no_pending _ Hno) as [P0 _].
  constructor; conc_simpl; try assumption.
  - rewrite P0. cbn [List.length]. lia.
  - cbn [List.length]. lia.
  - intros _. apply batchSize_pos.
  - intros [H|H]; discriminate.
  - discriminate.
  - discriminate.
Qed.

Lemma exhausted_inv (c : Conc) :
  Inv p ok K NS NB c ->
  source c = [] ->
  Inv p ok K NS NB
    (mkConc [] (promises c) (heap c) (st c)
       (if (0 <? List.length (promises c))%nat then AwaitingRest else Leaving)).
Proof.
  intros [It Io Ip Is Itot Iw Ipe Ic Ib Ipu Iso Il Ia] Hs. rewrite Hs in *.
  constructor; conc_simpl; try assumption; try reflexivity.
  - destruct (0 <? List.length (promises c))%nat; discriminate.
  - destruct (0 <? List.length (promises c))%nat eqn:E; [discriminate|].
    intros _. apply Nat.ltb_ge in E.
    destruct (promises c); [reflexivity|simpl in E; lia].
  - destruct (0 <? List.length (promises c))%nat; discriminate.
Qed.

Lemma rest_inv (c : Conc) :
  Inv p ok K NS NB c ->
  pc c = AwaitingRest ->
  allSettled (heap c) (promises c) = true ->
  Inv p ok K NS NB (mkConc (source c) (promises c) (heap c) (st c) Leaving).
Proof.
  intros [It Io Ip Is Itot Iw Ipe Ic Ib Ipu Iso Il Ia] Hpc A.
  constructor; conc_simpl; try assumption.
  - discriminate.
  - intros _. apply Iso. now left.
  - intros _. exact A.
  - discriminate.
Qed.

Lemma step_inv (c c' : Conc) :
  Inv p ok K NS NB c -> step c c' -> Inv p ok K NS NB c'.
Proof.
  intros HI Hs.
  destruct Hs as [c line rest pr s' H1 H2 H3|c i n path chunk pr s' H1 H2
                 |c H1 H2|c H1 H2|c H1 H2].
  - now apply (launch_inv c line rest pr s').
  - now apply (complete_inv c i n path chunk).
  - now apply batch_inv.
  - now apply exhausted_inv.
  - now apply rest_inv.
Qed.

Lemma steps_inv (c c' : Conc) :
  steps c c' -> Inv p ok K NS NB c -> Inv p ok K NS NB c'.
Proof.
  induction 1 as [c|c1 c2 c3 H12 _ IH]; intros HI; [exact HI|].
  apply IH. now apply (step_inv c1).
Qed.

(** What the invariant gives once the loop is left. *)
Lemma inv_at_exit (c : Conc) :
  Inv p ok K NS NB c -> pc c = Leaving ->
  this (st c) = p
  /\ pendingCount (heap c) = O
  /\ Stats.skipped (stats (st c)) = NS
  /\ Stats.total (stats (st c)) + Z.of_nat (rejectedCount (heap c)) = NB
  /\ exists done : list string,
       Permutation done K
       /\ Stats.processed (stats (st c)) = Z.of_nat (List.length done)
       /\ Fs.files (world (st c)) (outputFilePath p)
          = Some (headerLine ++ String.concat EmptyString done).
Proof.
  intros [It Io Ip Is Itot Iw Ipe Ic Ib Ipu Iso Il Ia] Hpc.
  pose proof (allSettled_no_pending _ _ (Il Hpc) Ipe) as Hno.
  destruct (no_pending _ Hno) as [P0 PO].
  rewrite (Iso (or_intror Hpc)) in *.
  rewrite P0 in Itot. rewrite PO in Iw.
  cbn [countSkipped okChunks app] in *. unfold countNonBlank in Itot.
  cbn [filter List.length] in Itot.
  split; [exact It|]. split; [exact P0|]. split; [lia|]. split; [lia|].
  destruct Iw as (done & F & P & Perm). exists done.
  rewrite app_nil_r in Perm. now repeat split.
Qed.

End Invariant.

(** The invariant holds when the loop is entered. *)
Lemma enterLoop_inv (lines : list string) (s : State) :
  stats s = Stats.new ->
  Fs.files (world s) (outputFilePath (this s)) = Some headerLine ->
  Inv (this s) (Fs.appendOk (world s))
    (okChunks (this s) (Fs.appendOk (world s)) (Fs.appendCalls (world s)) lines)
    (countSkipped (this s) lines) (countNonBlank lines)
    (enterLoop lines s).
Proof.
  intros Hs Hf. unfold enterLoop.
  constructor; conc_simpl; try reflexivity.
  - intros [|i] n path chunk H; discriminate.
  - rewrite Hs. reflexivity.
  - rewrite Hs. reflexivity.
  - exists []. rewrite Hf, Hs. cbn [String.concat List.length app].
    rewrite append_empty_r. repeat split. apply Permutation_refl.
  - intros [|i] n path chunk H; discriminate.
  - cbn [List.length]. apply Nat.lt_le_incl, batchSize_pos.
  - intros _. apply batchSize_pos.
  - intros [H|H]; discriminate.
  - discriminate.
Qed.

End ConcFacts.

(** ** A schedule exists: the method always ends *)

Module EagerFacts.

Import CsvParser Ledger JsFacts LineFacts RunFacts LoopFacts HeapFacts
  ConcFacts.

Lemma steps_one (c c' : Conc) : step c c' -> steps c c'.
Proof. intros H. eapply steps_next; [exact H|apply steps_refl]. Qed.

Lemma steps_trans (c1 c2 c3 : Conc) :
  steps c1 c2 -> steps c2 c3 -> steps c1 c3.
Proof.
  induction 1 as [c|a b c Hab _ IH]; intros H; [exact H|].
  eapply steps_next; [exact Hab|now apply IH].
Qed.

Lemma quiet_allSettled (h : list Promise) (ps : list nat) :
  (forall i n path chunk, nth_error h i <> Some (Pending n path chunk)) ->
  allSettled h ps = true.
Proof.
  intros Hno. unfold allSettled. apply forallb_forall. intros i _.
  unfold isSettled. destruct (nth_error h i) as [[n path chunk| |e]|] eqn:E;
    try reflexivity.
  exfalso. now apply (Hno i n path chunk).
Qed.

Lemma nth_error_snoc {A} (xs : list A) (x : A) :
  nth_error (xs ++ [x]) (List.length xs) = Some x.
Proof.
  rewrite nth_error_app2 by lia. now rewrite Nat.sub_diag.
Qed.

Lemma quiet_snoc (h : list Promise) (pr : Promise) :
  (forall i n path chunk, nth_error h i <> Some (Pending n path chunk)) ->
  isPending pr = false ->
  forall i n path chunk,
    nth_error (h ++ [pr]) i <> Some (Pending n path chunk).
Proof.
  intros Hno Hp i n path chunk E.
  destruct (Nat.lt_ge_cases i (List.length h)) as [L|G].
  - rewrite nth_error_app1 in E by exact L. now apply Hno in E.
  - rewrite nth_error_app2 in E by exact G.
    destruct (i - List.length h)%nat as [|k]; simpl in E.
    + inversion E; subst pr. discriminate.
    + destruct k; discriminate.
Qed.

Lemma quiet_settle (h : list Promise) (pr pr' : Promise) :
  (forall i n path chunk, nth_error h i <> Some (Pending n path chunk)) ->
  isPending pr' = false ->
  forall i n path chunk,
    nth_error (update (List.length h) pr' (h ++ [pr])) i
    <> Some (Pending n path chunk).
Proof.
  intros Hno Hp i n path chunk E. rewrite nth_error_update in E.
  destruct (_ && _)%bool eqn:B.
  - inversion E; subst pr'. discriminate.
  - destruct (Nat.lt_ge_cases i (List.length h)) as [L|G].
    + rewrite nth_error_app1 in E by exact L. now apply Hno in E.
    + rewrite length_app in B. cbn [List.length] in B.
      rewrite nth_error_app2 in E by exact G.
      destruct (i - List.length h)%nat as [|k] eqn:D; simpl in E.
      * assert (i = List.length h) by lia. subst i.
        rewrite Nat.eqb_refl in B. simpl in B.
        apply Nat.ltb_ge in B. lia.
      * destruct k; discriminate.
Qed.

Lemma launchAndComplete_steps (c : Conc) (line : string)
    (rest : list string) :
  Quiet c -> source c = line :: rest ->
  steps c (launchAndComplete line c)
  /\ Quiet (launchAndComplete line c)
  /\ source (launchAndComplete line c) = rest.
Proof.
  intros (Hpc & Hlen & Hno) Hsrc. unfold launchAndComplete.
  destruct (launch line (st c)) as [pr s1] eqn:HL.
  pose proof (step_launch c line rest pr s1 Hpc Hsrc HL) as S1.
  rewrite length_app. cbn [List.length]. rewrite Nat.add_1_r.
  rewrite Hsrc. cbn [tl].
  set (ps := (promises c ++ [List.length (heap c)])%list) in *.
  set (c1 := mkConc rest ps (heap c ++ [pr]) s1
               (if (batchSize <=? S (List.length (promises c)))%nat
                then AwaitingBatch else Pulling)) in *.
  assert (Hps : List.length ps = S (List.length (promises c))).
  { unfold ps. rewrite length_app. simpl. lia. }
  assert (Close : forall h s,
             (forall i n path chunk,
                 nth_error h i <> Some (Pending n path chunk)) ->
             steps c (mkConc rest ps h s (pc c1)) ->
             let c' := mkConc rest
                         (if (batchSize <=? S (List.length (promises c)))%nat
                          then [] else ps) h s Pulling in
             steps c c' /\ Quiet c' /\ source c' = rest).
  { intros h s Hq St. cbv zeta. unfold c1 in St. cbn [pc] in St.
    destruct (batchSize <=? S (List.length (promises c)))%nat eqn:Full.
    - split; [|split; [|reflexivity]].
      + eapply steps_trans; [exact St|]. apply steps_one.
        apply (step_batch (mkConc rest ps h s AwaitingBatch));
          [reflexivity|]. now apply quiet_allSettled.
      + split; [reflexivity|]. split; [apply batchSize_pos|exact Hq].
    - split; [exact St|]. split; [|reflexivity].
      apply Nat.leb_gt in Full.
      split; [reflexivity|]. split; [cbn [promises]; lia|exact Hq]. }
  destruct pr as [n path chunk| |e].
  - destruct (resume n path chunk s1) as [pr' s2] eqn:HR.
    pose proof (resume_settled n path chunk s1) as Hset.
    rewrite HR in Hset. cbn [fst] in Hset.
    apply Close.
    + now apply quiet_settle.
    + eapply steps_trans; [apply steps_one; exact S1|]. apply steps_one.
      apply (step_complete c1 (List.length (heap c)) n path chunk pr' s2);
        [apply nth_error_snoc|exact HR].
  - apply Close; [now apply quiet_snoc|now apply steps_one].
  - apply Close; [now apply quiet_snoc|now apply steps_one].
Qed.

Lemma eagerLoop_steps (lines : list string) :
  forall c, Quiet c -> source c = lines ->
    steps c (eagerLoop lines c)
    /\ Quiet (eagerLoop lines c)
    /\ source (eagerLoop lines c) = [].
Proof.
  induction lines as [|line rest IH]; intros c Q Hs.
  - simpl. split; [apply steps_refl|]. now split.
  - destruct (launchAndComplete_steps c line rest Q Hs) as (S1 & Q1 & R1).
    destruct (IH _ Q1 R1) as (S2 & Q2 & R2). simpl.
    split; [now apply (steps_trans _ _ _ S1)|]. now split.
Qed.

(** From a quiet state with nothing left to read the loop is left without
    a change of state. *)
Lemma quiet_exit (c : Conc) :
  Quiet c -> source c = [] ->
  exists c', steps c c' /\ pc c' = Leaving /\ st c' = st c
             /\ heap c' = heap c.
Proof.
  intros (Hpc & Hlen & Hno) Hs.
  pose proof (step_exhausted c Hpc Hs) as S1.
  destruct (0 <? List.length (promises c))%nat.
  - eexists. split; [|split; [|split]].
    + eapply steps_next; [exact S1|]. apply steps_one.
      apply step_rest; [reflexivity|]. now apply quiet_allSettled.
    + reflexivity.
    + reflexivity.
    + reflexivity.
  - eexists. split; [apply steps_one; exact S1|]. now repeat split.
Qed.

(** The eager schedule is a run of the method: the method always has an
    outcome. *)
Lemma eager_is_a_run (s0 : State) :
  exists h, processUsersAsStreamAndConcurrency s0 h
              (processUsersAsStreamAndConcurrencyEager s0).
Proof.
  unfold processUsersAsStreamAndConcurrencyEager.
  destruct ((newStats ;; openAndReadHeader) s0) as [[lines|e] s1] eqn:E.
  - assert (Q : Quiet (enterLoop lines s1)).
    { split; [reflexivity|]. split; [apply batchSize_pos|].
      intros [|i] n path chunk H; discriminate. }
    destruct (eagerLoop_steps lines _ Q eq_refl) as (S1 & Q1 & R1).
    destruct (quiet_exit _ Q1 R1) as (c' & S2 & P2 & St2 & _).
    exists (heap c'). rewrite <- St2.
    apply (run_returns s0 lines s1 c' E); [|exact P2].
    now apply (steps_trans _ _ _ S1).
  - exists []. now apply run_throws.
Qed.

End EagerFacts.

(** ** The entry points, unfolded *)

Module EntryFacts.

Import CsvParser Ledger JsFacts LineFacts RunFacts LoopFacts HeapFacts
  ConcFacts EagerFacts.

Lemma processUsersAsStream_unfold (s0 : State) :
  processUsersAsStream s0 =
  match (newStats ;; openAndReadHeader) s0 with
  | (Throw e, s1) => cleanup e s1
  | (Ok lines, s1) =>
      match forEach lines processUsersLine s1 with
      | (Ok _, s2) => finish s2
      | (Throw e, s2) => cleanup e s2
      end
  end.
Proof.
  unfold processUsersAsStream, tryCatch, bind, newStats, setStats.
  destruct (openAndReadHeader _) as [[lines|e] s1].
  - destruct (forEach lines processUsersLine s1) as [[[]|e] s2].
    + reflexivity.
    + unfold cleanup, bind, getThis, throw.
      destruct (safeDelete _ _) as [[[]|e'] s3]; reflexivity.
  - unfold cleanup, bind, getThis, throw.
    destruct (safeDelete _ _) as [[[]|e'] s3]; reflexivity.
Qed.

Lemma processUsers_unfold (s0 : State) :
  processUsers s0 =
  let s := mkState (this s0) Stats.new (world s0) in
  match Fs.readFile (inputFilePath (this s0)) (world s0) with
  | Throw e => cleanup e s
  | Ok csv =>
      if Js.isEmpty (Js.trim csv) then (Ok Stats.new, s)
      else
        let s1 := mkState (this s0) Stats.new
                    (Fs.writeFile (outputFilePath (this s0)) headerLine
                       (world s0)) in
        match processHeaders (hd_error (Js.split Js.LF csv)) s1 with
        | (Throw e, s2) => cleanup e s2
        | (Ok _, s2) =>
            match forEach (tl (Js.split Js.LF csv)) processUsersLine s2 with
            | (Ok _, s3) => finish s3
            | (Throw e, s3) => cleanup e s3
            end
        end
  end.
Proof.
  cbv zeta. unfold processUsers, tryCatch, bind, newStats, setStats, getThis,
    readFile, liftFs, ret, getStats.
  cbn [this stats world].
  destruct (Fs.readFile _ _) as [csv|e].
  - destruct (Js.isEmpty (Js.trim csv)); [reflexivity|].
    unfold writeFile, liftFs. cbn [this stats world].
    destruct (processHeaders _ _) as [[[]|e] s2].
    + destruct (forEach _ _ s2) as [[[]|e] s3]; [reflexivity|].
      unfold cleanup, bind, getThis, throw.
      destruct (safeDelete _ _) as [[[]|e'] s4]; reflexivity.
    + unfold cleanup, bind, getThis, throw.
      destruct (safeDelete _ _) as [[[]|e'] s4]; reflexivity.
  - unfold cleanup, bind, getThis, throw.
    destruct (safeDelete _ _) as [[[]|e'] s4]; reflexivity.
Qed.

(** The statements before the loop, whatever the paths: when they succeed
    the output file holds the header, the stats are fresh and the indices
    are resolved. *)
Lemma openAndReadHeader_ok (s0 : State) (lines : list string) (s1 : State) :
  (newStats ;; openAndReadHeader) s0 = (Ok lines, s1) ->
  stats s1 = Stats.new
  /\ outputFilePath (this s1) = outputFilePath (this s0)
  /\ Fs.files (world s1) (outputFilePath (this s0)) = Some headerLine
  /\ Fs.appendOk (world s1) = Fs.appendOk (world s0)
  /\ Fs.appendCalls (world s1) = Fs.appendCalls (world s0)
  /\ Resolved (this s1).
Proof.
  unfold openAndReadHeader, getLines, newStats, setStats, bind, getThis,
    writeFile, readFile, liftFs, ret. cbn [this stats world].
  destruct (Fs.readFile _ _) as [csv|e]; [|discriminate].
  destruct (hd_error (Fs.readLines csv)) as [h|]; [|discriminate].
  pose proof (processHeaders_resolved h
                (mkState (this s0) Stats.new (world s0))) as R.
  rewrite processHeaders_spec in *. cbv zeta in *. cbn [snd this] in R.
  destruct (lacksColumn h) eqn:L; [discriminate|].
  intros [= <- <-]. cbn [this stats world outputFilePath].
  repeat split.
  - unfold Fs.writeFile, Fs.setFiles, Fs.store. cbn [Fs.files].
    now rewrite String.eqb_refl.
  - now apply R.
Qed.

(** A run of the concurrent method that got past the header. *)
Lemma concurrent_returns (s0 : State) (lines : list string) (s1 : State)
    (c : Conc) :
  (newStats ;; openAndReadHeader) s0 = (Ok lines, s1) ->
  steps (enterLoop lines s1) c -> pc c = Leaving ->
  exists done : list string,
    Permutation done
      (okChunks (this s1) (Fs.appendOk (world s0)) (Fs.appendCalls (world s0))
         lines)
    /\ fst (finish (st c))
       = Ok (Stats.mk (Z.of_nat (List.length done))
                      (countSkipped (this s1) lines))
    /\ stats (snd (finish (st c)))
       = Stats.mk (Z.of_nat (List.length done)) (countSkipped (this s1) lines)
    /\ Z.of_nat (List.length done) + countSkipped (this s1) lines
       + Z.of_nat (rejectedCount (heap c)) = countNonBlank lines
    /\ pendingCount (heap c) = O
    /\ Fs.files (world (snd (finish (st c)))) (outputFilePath (this s0))
       = match done with
         | [] => None
         | _ => Some (headerLine ++ String.concat EmptyString done)
         end.
Proof.
  intros E St Hpc.
  destruct (openAndReadHeader_ok _ _ _ E) as (Hs & Ho & Hf & Hok & Hc & _).
  rewrite <- Ho in Hf.
  pose proof (enterLoop_inv lines s1 Hs Hf) as I0.
  pose proof (steps_inv _ _ _ _ _ _ _ St I0) as I.
  destruct (inv_at_exit _ _ _ _ _ _ I Hpc)
    as (It & P0 & Sk & Tot & done & Perm & Pr & F).
  rewrite Hok, Hc in Perm. exists done. split; [exact Perm|].
  assert (Est : stats (st c)
                = Stats.mk (Z.of_nat (List.length done))
                           (countSkipped (this s1) lines)).
  { destruct (stats (st c)) as [a b]. simpl in *. congruence. }
  destruct (finish_spec (st c)) as (F1 & F2 & F3 & F4).
  rewrite F1, F2, Est. split; [reflexivity|]. split; [reflexivity|].
  split.
  { unfold Stats.total in Tot. rewrite Est in Tot. exact Tot. }
  split; [exact P0|].
  rewrite It, Ho in *.
  destruct done as [|d done].
  - apply F3. rewrite Est. reflexivity.
  - rewrite F4; [exact F|]. rewrite Est. cbn [Stats.processed List.length]. lia.
Qed.

End EntryFacts.

(** ** The header *)

Module Header.

Import CsvParser Ledger JsFacts LineFacts RunFacts LoopFacts HeapFacts
  ConcFacts EagerFacts EntryFacts.

Lemma indexOf_absent (xs : list string) (x : string) :
  Js.indexOf xs x = -1 <-> ~ In x xs.
Proof.
  induction xs as [|y ys IH]; simpl.
  - split; [intros _ []|reflexivity].
  - destruct (String.eqb y x) eqn:E.
    + apply String.eqb_eq in E. split; [discriminate|]. intros H.
      exfalso. apply H. now left.
    + apply String.eqb_neq in E.
      pose proof (indexOf_range ys x) as R.
      destruct (Js.indexOf ys x <? 0) eqn:L.
      * apply Z.ltb_lt in L. split; [|reflexivity]. intros _ [H|H];
          [contradiction|]. apply IH in H; [exact H|lia].
      * apply Z.ltb_ge in L. split; [lia|]. intros H. exfalso.
        assert (Hn : ~ In x ys) by (intros Hi; apply H; now right).
        apply IH in Hn. lia.
Qed.

(** [lacksColumn] says that one of the three names is not among the
    columns, compared exactly. *)
Lemma lacksColumn_spec (header : string) :
  lacksColumn header = true <->
  ~ (In "name" (Js.split "," header) /\ In "email" (Js.split "," header)
     /\ In "age" (Js.split "," header)).
Proof.
  unfold lacksColumn. rewrite !orb_true_iff, !Z.eqb_eq, !indexOf_absent.
  split.
  - intros [[H|H]|H] (A & B & C); contradiction.
  - intros H.
    destruct (in_dec string_dec "name" (Js.split "," header)) as [A|A];
      [|now left; left].
    destruct (in_dec string_dec "email" (Js.split "," header)) as [B|B];
      [|now left; right].
    right. intros C. apply H. now repeat split.
Qed.

(** (C7) When the first line of the input, split on commas, lacks one of
    the names [name], [email] and [age], compared exactly, a run of the
    stream methods throws the header error; no data line has been handled,
    the stats being still [{processed: 0, skipped: 0}] and no promise
    created; and the output file does not exist afterwards.  The same holds
    of [processUsers] on an input that is not blank. *)
Theorem malformed_header_aborts (p : t) (w : Fs.World) (csv : string) :
  Fs.files w (inputFilePath p) = Some csv ->
  inputFilePath p <> outputFilePath p ->
  (forall header rest,
      Fs.readLines csv = header :: rest ->
      ~ (In "name" (Js.split "," header) /\ In "email" (Js.split "," header)
         /\ In "age" (Js.split "," header)) ->
      (forall h r,
          processUsersAsStreamAndConcurrency (mkState p Stats.new w) h r ->
          h = [] /\ fst r = Throw HeaderError /\ stats (snd r) = Stats.new
          /\ Fs.files (world (snd r)) (outputFilePath p) = None)
      /\ (exists h r,
             processUsersAsStreamAndConcurrency (mkState p Stats.new w) h r)
      /\ (let r := run processUsersAsStream p w in
          fst r = Throw HeaderError /\ stats (snd r) = Stats.new
          /\ Fs.files (world (snd r)) (outputFilePath p) = None))
  /\ (forall header rest,
        Js.split Js.LF csv = header :: rest ->
        ~ (In "name" (Js.split "," header) /\ In "email" (Js.split "," header)
           /\ In "age" (Js.split "," header)) ->
        Js.isEmpty (Js.trim csv) = false ->
        let r := run processUsers p w in
        fst r = Throw HeaderError /\ stats (snd r) = Stats.new
        /\ Fs.files (world (snd r)) (outputFilePath p) = None).
Proof.
  intros Hin Hne. split.
  - intros header rest Hl Hlack. apply lacksColumn_spec in Hlack.
    pose proof (openAndReadHeader_spec p w csv Hin Hne) as E0.
    cbv zeta in E0. rewrite Hl, Hlack in E0.
    match type of E0 with _ = (_, ?s) => set (s1 := s) in * end.
    destruct (@cleanup_spec Stats.t HeaderError s1) as (C1 & C2 & C3 & C4).
    split; [|split].
    + intros h r Hrun.
      destruct Hrun as [e s1' E|lines s1' c E _ _]; rewrite E0 in E;
        [|discriminate].
      inversion E; subst e s1'. now repeat split.
    + destruct (eager_is_a_run (mkState p Stats.new w)) as [h Hh].
      now exists h, (processUsersAsStreamAndConcurrencyEager (mkState p Stats.new w)).
    + cbv zeta. unfold run. rewrite processUsersAsStream_unfold, E0.
      now repeat split.
  - intros header rest Hl Hlack Hnb. apply lacksColumn_spec in Hlack.
    cbv zeta. unfold run. rewrite processUsers_unfold. cbv zeta.
    cbn [this world]. unfold Fs.readFile. rewrite Hin, Hnb, Hl.
    cbn [hd_error]. rewrite processHeaders_spec. cbv zeta. rewrite Hlack.
    match goal with |- context [@cleanup _ _ ?s] => set (s1 := s) end.
    destruct (@cleanup_spec Stats.t HeaderError s1) as (C1 & C2 & C3 & C4).
    now repeat split.
Qed.

(** The theorem on a file whose header spells [Name] with a capital. *)
Lemma malformed_header_aborts_witness :
  let csv := "Name,email,age" ++ Sample.nl ++ "ann,ann@example.com,31" in
  let w := Sample.worldOf csv Sample.writable in
  (forall h r,
      processUsersAsStreamAndConcurrency (mkState Sample.parser Stats.new w) h r ->
      h = [] /\ fst r = Throw HeaderError /\ stats (snd r) = Stats.new
      /\ Fs.files (world (snd r)) "data/out.csv" = None)
  /\ Sample.observe (run processUsersAsStream Sample.parser w)
     = (Throw HeaderError, Stats.new, None)
  /\ Sample.observe (run processUsers Sample.parser w)
     = (Throw HeaderError, Stats.new, None).
Proof.
  cbv zeta.
  set (csv := "Name,email,age" ++ Sample.nl ++ "ann,ann@example.com,31").
  set (w := Sample.worldOf csv Sample.writable).
  assert (Hlack : ~ (In "name" (Js.split "," "Name,email,age")
                     /\ In "email" (Js.split "," "Name,email,age")
                     /\ In "age" (Js.split "," "Name,email,age"))).
  { intros ([H|[H|[H|[]]]] & _); discriminate. }
  destruct (malformed_header_aborts Sample.parser w csv eq_refl
              ltac:(discriminate)) as [HS HP].
  destruct (HS "Name,email,age" ["ann,ann@example.com,31"] eq_refl Hlack)
    as (Hc & _ & Hs1 & Hs2 & Hs3).
  destruct (HP "Name,email,age" ["ann,ann@example.com,31"] eq_refl Hlack
              eq_refl) as (Hp1 & Hp2 & Hp3).
  split; [exact Hc|]. unfold Sample.observe.
  change "data/out.csv" with (outputFilePath Sample.parser).
  split; [now rewrite Hs1, Hs2, Hs3|now rewrite Hp1, Hp2, Hp3].
Defined.

End Header.

(** ** The output file at the end of a run *)

Module Output.

Import CsvParser Ledger JsFacts LineFacts RunFacts LoopFacts HeapFacts
  ConcFacts EagerFacts EntryFacts.

(** The loop of the sequential methods followed by what ends the method. *)
Lemma after_loop (lines : list string) (s1 : State) (s : Stats.t) :
  Fs.files (world s1) (outputFilePath (this s1)) <> None ->
  let r := match forEach lines processUsersLine s1 with
           | (Ok _, s2) => finish s2
           | (Throw e, s2) => cleanup e s2
           end in
  fst r = Ok s ->
  (Stats.processed s = 0 ->
   Fs.files (world (snd r)) (outputFilePath (this s1)) = None)
  /\ (0 < Stats.processed s ->
      exists content,
        Fs.files (world (snd r)) (outputFilePath (this s1)) = Some content)
  /\ Stats.total s = Stats.total (stats s1) + countNonBlank lines.
Proof.
  intros Hex. cbv zeta.
  destruct (forEach_effect lines s1) as (T & C & E).
  destruct (forEach lines processUsersLine s1) as [[[]|e] s2];
    cbn [fst snd] in *.
  - destruct (finish_spec s2) as (F1 & F2 & F3 & F4).
    rewrite F1. intros [= <-]. rewrite T in *. split; [exact F3|]. split.
    + intros Hpos. rewrite F4 by lia.
      destruct (Fs.files (world s2) (outputFilePath (this s1))) as [content|]
        eqn:Ef; [now exists content|]. now apply E in Hex.
    + now apply C.
  - destruct (@cleanup_spec Stats.t e s2) as (C1 & _). rewrite C1.
    discriminate.
Qed.

(** (C8) A run of the stream methods that returns leaves no output file
    when no line was accepted, and leaves the output file when some line
    was; [safeDelete] never fails, and on a file that does not exist it
    does nothing.  The same holds of [processUsers] when the output file
    did not exist before the run or the input is not blank. *)
Theorem output_kept_iff_processed (p : t) (w : Fs.World) :
  (forall h r s,
      processUsersAsStreamAndConcurrency (mkState p Stats.new w) h r ->
      fst r = Ok s ->
      (Stats.processed s = 0 ->
       Fs.files (world (snd r)) (outputFilePath p) = None)
      /\ (0 < Stats.processed s ->
          exists content,
            Fs.files (world (snd r)) (outputFilePath p) = Some content))
  /\ (forall s,
        let r := run processUsersAsStream p w in
        fst r = Ok s ->
        (Stats.processed s = 0 ->
         Fs.files (world (snd r)) (outputFilePath p) = None)
        /\ (0 < Stats.processed s ->
            exists content,
              Fs.files (world (snd r)) (outputFilePath p) = Some content))
  /\ (forall s,
        let r := run processUsers p w in
        fst r = Ok s ->
        (Fs.files w (outputFilePath p) = None
         \/ exists csv, Fs.files w (inputFilePath p) = Some csv
                        /\ Js.isEmpty (Js.trim csv) = false) ->
        (Stats.processed s = 0 ->
         Fs.files (world (snd r)) (outputFilePath p) = None)
        /\ (0 < Stats.processed s ->
            exists content,
              Fs.files (world (snd r)) (outputFilePath p) = Some content))
  /\ (forall path s,
        let r := safeDelete path s in
        fst r = Ok tt
        /\ Fs.files (world (snd r)) path = None
        /\ (Fs.files (world s) path = None -> r = (Ok tt, s))).
Proof.
  split; [|split; [|split]].
  - intros h r s Hrun Hr.
    destruct Hrun as [e s1 E|lines s1 c E St Hpc].
    + destruct (@cleanup_spec Stats.t e s1) as (C1 & _).
      rewrite C1 in Hr. discriminate.
    + destruct (concurrent_returns _ _ _ _ E St Hpc)
        as (done & _ & F1 & _ & _ & _ & F).
      cbn [this] in F. rewrite F1 in Hr. inversion Hr; subst s.
      cbn [Stats.processed]. rewrite F.
      destruct done as [|d done]; cbn [List.length].
      * split; [reflexivity|lia].
      * split; [lia|]. intros _. eexists. reflexivity.
  - intros s. cbv zeta. unfold run. rewrite processUsersAsStream_unfold.
    destruct ((newStats ;; openAndReadHeader) (mkState p Stats.new w))
      as [[lines|e] s1] eqn:E.
    + destruct (openAndReadHeader_ok _ _ _ E) as (_ & Ho & Hf & _).
      cbn [this] in Ho, Hf. intros Hr.
      assert (Hex : Fs.files (world s1) (outputFilePath (this s1)) <> None)
        by (rewrite Ho, Hf; discriminate).
      destruct (after_loop lines s1 s Hex Hr) as (A1 & A2 & _).
      rewrite Ho in A1, A2. now split.
    + destruct (@cleanup_spec Stats.t e s1) as (C1 & _). rewrite C1.
      discriminate.
  - intros s. cbv zeta. unfold run. rewrite processUsers_unfold. cbv zeta.
    cbn [this world]. unfold Fs.readFile.
    destruct (Fs.files w (inputFilePath p)) as [csv|] eqn:Hin.
    + destruct (Js.isEmpty (Js.trim csv)) eqn:Hb.
      * cbn [fst snd world]. intros [= <-] [Habs|(csv' & [= <-] & Hnb)];
          [|congruence].
        cbn [Stats.processed Stats.new]. split; [now intros _|lia].
      * intros Hr _.
        destruct (hd_error (Js.split Js.LF csv)) as [header|].
        -- rewrite processHeaders_spec in Hr |- *. cbv zeta in Hr |- *.
           destruct (lacksColumn header).
           ++ match type of Hr with fst (@cleanup _ ?e ?s1) = _ =>
                destruct (@cleanup_spec Stats.t e s1) as (C1 & _) end.
              rewrite C1 in Hr. discriminate.
           ++ match type of Hr with
                fst (match forEach _ _ ?s1 with _ => _ end) = _ =>
                  assert (Hex : Fs.files (world s1) (outputFilePath (this s1))
                                <> None)
              end.
              { cbn [this world outputFilePath]. unfold Fs.writeFile,
                  Fs.setFiles, Fs.store. cbn [Fs.files].
                rewrite String.eqb_refl. discriminate. }
              destruct (after_loop _ _ s Hex Hr) as (A1 & A2 & _).
              now split.
        -- unfold processHeaders, throw in Hr.
           match type of Hr with fst (@cleanup _ ?e ?s1) = _ =>
             destruct (@cleanup_spec Stats.t e s1) as (C1 & _) end.
           rewrite C1 in Hr. discriminate.
    + match goal with |- fst (@cleanup _ ?e ?s1) = _ -> _ =>
        destruct (@cleanup_spec Stats.t e s1) as (C1 & _) end.
      rewrite C1. discriminate.
  - intros path s. cbv zeta. split; [|split].
    + now rewrite safeDelete_cases.
    + apply safeDelete_gone.
    + apply safeDelete_absent.
Qed.

(** The theorem on the scenario of the spec, where one line is accepted,
    and on a file whose only data line is rejected. *)
Lemma output_kept_iff_processed_witness :
  let kept := run processUsersAsStream Sample.parser
                (Sample.worldOf Sample.scenario Sample.writable) in
  let gone := run processUsersAsStream Sample.parser
                (Sample.staleWorldOf
                   ("name,email,age" ++ Sample.nl ++ "jane,invalid-email,30")
                   Sample.writable) in
  (fst kept = Ok (Stats.mk 1 2)
   /\ exists content, Fs.files (world (snd kept)) "data/out.csv" = Some content)
  /\ (fst gone = Ok (Stats.mk 0 1)
      /\ Fs.files (world (snd gone)) "data/out.csv" = None).
Proof.
  cbv zeta. split.
  - split; [reflexivity|].
    destruct (output_kept_iff_processed Sample.parser
                (Sample.worldOf Sample.scenario Sample.writable))
      as (_ & H & _).
    destruct (H (Stats.mk 1 2) eq_refl) as (_ & H2).
    apply H2. reflexivity.
  - split; [reflexivity|].
    destruct (output_kept_iff_processed Sample.parser
                (Sample.staleWorldOf
                   ("name,email,age" ++ Sample.nl ++ "jane,invalid-email,30")
                   Sample.writable))
      as (_ & H & _).
    destruct (H (Stats.mk 0 1) eq_refl) as (H1 & _).
    apply H1. reflexivity.
Defined.

End Output.

(** ** Runs of the concurrent method on a given file *)

Module Concurrent.

Import CsvParser Ledger JsFacts LineFacts RunFacts LoopFacts HeapFacts
  ConcFacts EagerFacts EntryFacts.

(** Every run of the concurrent method on an input file that is not the
    output file, by the content of the input. *)
Lemma concurrent_outcome (p : t) (w : Fs.World) (csv : string)
    (h : list Promise) (r : Result Stats.t * State) :
  Fs.files w (inputFilePath p) = Some csv ->
  inputFilePath p <> outputFilePath p ->
  processUsersAsStreamAndConcurrency (mkState p Stats.new w) h r ->
  match Fs.readLines csv with
  | [] =>
      h = [] /\ fst r = Throw TypeError /\ stats (snd r) = Stats.new
      /\ Fs.files (world (snd r)) (outputFilePath p) = None
  | header :: rest =>
      if lacksColumn header then
        h = [] /\ fst r = Throw HeaderError /\ stats (snd r) = Stats.new
        /\ Fs.files (world (snd r)) (outputFilePath p) = None
      else
        let p' := mk (inputFilePath p) (outputFilePath p)
                     (Js.indexOf (Js.split "," header) "name")
                     (Js.indexOf (Js.split "," header) "email")
                     (Js.indexOf (Js.split "," header) "age") in
        exists done : list string,
          Permutation done
            (okChunks p' (Fs.appendOk w) (Fs.appendCalls w) rest)
          /\ fst r = Ok (Stats.mk (Z.of_nat (List.length done))
                                  (countSkipped p' rest))
          /\ stats (snd r) = Stats.mk (Z.of_nat (List.length done))
                                      (countSkipped p' rest)
          /\ Z.of_nat (List.length done) + countSkipped p' rest
             + Z.of_nat (rejectedCount h) = countNonBlank rest
          /\ pendingCount h = O
          /\ Fs.files (world (snd r)) (outputFilePath p)
             = match done with
               | [] => None
               | _ => Some (headerLine ++ String.concat EmptyString done)
               end
  end.
Proof.
  intros Hin Hne Hrun.
  pose proof (openAndReadHeader_spec p w csv Hin Hne) as E0. cbv zeta in E0.
  destruct (Fs.readLines csv) as [|header rest].
  - destruct Hrun as [e s1 E|lines s1 c E _ _]; rewrite E0 in E;
      [|discriminate].
    inversion E; subst e s1.
    match goal with |- context [@cleanup _ _ ?s] =>
      destruct (@cleanup_spec Stats.t TypeError s) as (C1 & C2 & C3 & C4) end.
    now repeat split.
  - destruct (lacksColumn header).
    + destruct Hrun as [e s1 E|lines s1 c E _ _]; rewrite E0 in E;
        [|discriminate].
      inversion E; subst e s1.
      match goal with |- context [@cleanup _ _ ?s] =>
        destruct (@cleanup_spec Stats.t HeaderError s) as (C1 & C2 & C3 & C4)
      end.
      now repeat split.
    + destruct Hrun as [e s1 E|lines s1 c E St Hpc]; [congruence|].
      pose proof (concurrent_returns _ _ _ _ E St Hpc) as R.
      rewrite E0 in E. inversion E; subst lines s1. exact R.
Qed.

End Concurrent.

(** ** Scenarios *)

Module Scenarios.

Import CsvParser Ledger JsFacts LineFacts RunFacts LoopFacts HeapFacts
  ConcFacts EagerFacts EntryFacts Concurrent.

Lemma a_run_exists (p : t) (w : Fs.World) :
  exists h r, processUsersAsStreamAndConcurrency (mkState p Stats.new w) h r.
Proof.
  destruct (eager_is_a_run (mkState p Stats.new w)) as [h Hh].
  now exists h, (processUsersAsStreamAndConcurrencyEager (mkState p Stats.new w)).
Qed.

(** (C6) On the input of the scenario, with a writable sink, every entry
    point returns [{processed: 1, skipped: 2}] and leaves an output file
    that holds the header and the one line [JOHN DOE,john@example.com,25];
    for the concurrent method this is so under every schedule.  A stale
    output file makes no difference. *)
Theorem scenario_one_processed_two_skipped :
  let w := Sample.worldOf Sample.scenario Sample.writable in
  let stale := Sample.staleWorldOf Sample.scenario Sample.writable in
  let expected :=
    (Ok (Stats.mk 1 2), Stats.mk 1 2,
     Some ("name,email,age" ++ EOL ++ "JOHN DOE,john@example.com,25")) in
  (forall h r,
      processUsersAsStreamAndConcurrency (mkState Sample.parser Stats.new w) h r
      \/ processUsersAsStreamAndConcurrency
           (mkState Sample.parser Stats.new stale) h r ->
      Sample.observe r = expected)
  /\ (exists h r,
         processUsersAsStreamAndConcurrency
           (mkState Sample.parser Stats.new w) h r)
  /\ Sample.observe (run processUsersAsStream Sample.parser w) = expected
  /\ Sample.observe (run processUsersAsStream Sample.parser stale) = expected
  /\ Sample.observe (run processUsers Sample.parser w) = expected
  /\ Sample.observe (run processUsers Sample.parser stale) = expected
  /\ (let r := @CsvParserStatic.processUsers Sample.path "data/in.csv"
                 (Some "data/out.csv") w in
      (fst r, Fs.files (CsvParserStatic.world (snd r)) "data/out.csv")
      = (Ok (Stats.mk 1 2),
         Some ("name,email,age" ++ EOL ++ "JOHN DOE,john@example.com,25"))).
Proof.
  cbv zeta. split; [|split; [apply a_run_exists|
                             repeat split; vm_compute; reflexivity]].
  intros h r Hrun.
  assert (H : exists done : list string,
             Permutation done [EOL ++ "JOHN DOE,john@example.com,25"]
             /\ fst r = Ok (Stats.mk (Z.of_nat (List.length done)) 2)
             /\ stats (snd r) = Stats.mk (Z.of_nat (List.length done)) 2
             /\ Fs.files (world (snd r)) "data/out.csv"
                = match done with
                  | [] => None
                  | _ => Some (headerLine ++ String.concat EmptyString done)
                  end).
  { destruct Hrun as [Hrun|Hrun];
      apply (concurrent_outcome _ _ Sample.scenario) in Hrun;
      [| vm_compute; reflexivity | vm_compute; discriminate
       | | vm_compute; reflexivity | vm_compute; discriminate];
      vm_compute in Hrun;
      destruct Hrun as (done & P & F1 & F2 & _ & _ & F3);
      exists done; repeat split; assumption. }
  destruct H as (done & P & F1 & F2 & F3).
  apply Permutation_sym, Permutation_length_1_inv in P. subst done.
  unfold Sample.observe. rewrite F1, F2, F3. vm_compute. reflexivity.
Qed.

(** Past the header, no run of the concurrent method throws, whatever the
    sink does: a failed append only shows in the count of rejected
    promises. *)
Lemma append_failures_never_propagate (p : t) (w : Fs.World)
    (csv header : string) (rest : list string) (h : list Promise)
    (r : Result Stats.t * State) :
  Fs.files w (inputFilePath p) = Some csv ->
  inputFilePath p <> outputFilePath p ->
  Fs.readLines csv = header :: rest ->
  lacksColumn header = false ->
  processUsersAsStreamAndConcurrency (mkState p Stats.new w) h r ->
  exists s, fst r = Ok s
            /\ Stats.total s + Z.of_nat (rejectedCount h)
               = countNonBlank rest.
Proof.
  intros Hin Hne Hl Hc Hrun.
  pose proof (concurrent_outcome p w csv h r Hin Hne Hrun) as O.
  rewrite Hl, Hc in O. cbv zeta in O.
  destruct O as (done & _ & F1 & _ & T & _).
  eexists. split; [exact F1|exact T].
Qed.

(** (C1, on the code) Two valid lines and a sink that takes the first
    append and fails the second: every run of the concurrent method returns
    normally with [{processed: 1, skipped: 0}], one promise rejected, the
    output file kept with the first line only.  The error is neither
    re-raised nor the file deleted.  On the same input
    [processUsersAsStream] throws the error and deletes the file. *)
Theorem append_failure_is_swallowed :
  let w := Sample.worldOf Sample.twoUsers Sample.firstOnly in
  (forall h r,
      processUsersAsStreamAndConcurrency (mkState Sample.parser Stats.new w) h r ->
      rejectedCount h = 1%nat
      /\ Sample.observe r
         = (Ok (Stats.mk 1 0), Stats.mk 1 0,
            Some ("name,email,age" ++ EOL ++ "ANN,ann@example.com,31")))
  /\ (exists h r,
         processUsersAsStreamAndConcurrency
           (mkState Sample.parser Stats.new w) h r)
  /\ Sample.observe (run processUsersAsStream Sample.parser w)
     = (Throw (SystemError "EIO"), Stats.mk 1 0, None).
Proof.
  cbv zeta. split; [|split; [apply a_run_exists|vm_compute; reflexivity]].
  intros h r Hrun.
  apply (concurrent_outcome _ _ Sample.twoUsers) in Hrun;
    [|vm_compute; reflexivity|vm_compute; discriminate].
  replace (Fs.readLines Sample.twoUsers)
    with ["name,email,age"; "ann,ann@example.com,31";
          "bob,bob@example.com,32"] in Hrun by (vm_compute; reflexivity).
  replace (lacksColumn "name,email,age") with false in Hrun
    by (vm_compute; reflexivity).
  destruct Hrun as (done & P & F1 & F2 & T & _ & F3).
  match type of P with Permutation _ ?k =>
    replace k with [EOL ++ "ANN,ann@example.com,31"] in P
      by (vm_compute; reflexivity)
  end.
  apply Permutation_sym, Permutation_length_1_inv in P. subst done.
  match type of T with _ + ?k + _ = ?n =>
    replace k with 0 in T by (vm_compute; reflexivity);
    replace n with 2 in T by (vm_compute; reflexivity);
    replace k with 0 in F1, F2 by (vm_compute; reflexivity)
  end.
  cbn [List.length] in *. split; [lia|].
  unfold Sample.observe. rewrite F1, F2.
  change "data/out.csv" with (outputFilePath Sample.parser).
  rewrite F3. vm_compute. reflexivity.
Qed.

(** (C3, on the code) On an empty input file the two stream methods throw
    a TypeError, [processHeaders] being handed [undefined]; they do not
    return [{processed: 0, skipped: 0}].  [processUsers] and the static
    method do return it, with no output file; but [processUsers] leaves a
    stale output file where it was. *)
Theorem empty_input_stream_methods_throw :
  let w := Sample.worldOf EmptyString Sample.writable in
  let stale := Sample.staleWorldOf EmptyString Sample.writable in
  (forall h r,
      processUsersAsStreamAndConcurrency (mkState Sample.parser Stats.new w) h r ->
      h = [] /\ Sample.observe r = (Throw TypeError, Stats.new, None))
  /\ (exists h r,
         processUsersAsStreamAndConcurrency
           (mkState Sample.parser Stats.new w) h r)
  /\ Sample.observe (run processUsersAsStream Sample.parser w)
     = (Throw TypeError, Stats.new, None)
  /\ Sample.observe (run processUsers Sample.parser w)
     = (Ok Stats.new, Stats.new, None)
  /\ (let r := @CsvParserStatic.processUsers Sample.path "data/in.csv"
                 (Some "data/out.csv") w in
      (fst r, Fs.files (CsvParserStatic.world (snd r)) "data/out.csv")
      = (Ok (Stats.mk 0 0), None))
  /\ Sample.observe (run processUsers Sample.parser stale)
     = (Ok Stats.new, Stats.new, Some "old").
Proof.
  cbv zeta. split; [|split; [apply a_run_exists|
                             repeat split; vm_compute; reflexivity]].
  intros h r Hrun.
  apply (concurrent_outcome _ _ EmptyString) in Hrun;
    [|vm_compute; reflexivity|vm_compute; discriminate].
  cbn [Fs.readLines Fs.scan Fs.dropLastIfEmpty Js.isEmpty] in Hrun.
  destruct Hrun as (Hh & F1 & F2 & F3). split; [exact Hh|].
  unfold Sample.observe.
  change "data/out.csv" with (outputFilePath Sample.parser).
  now rewrite F1, F2, F3.
Qed.

End Scenarios.

(** ** Counting the lines *)

Module Counting.

Import CsvParser Ledger JsFacts LineFacts RunFacts LoopFacts HeapFacts
  ConcFacts EagerFacts EntryFacts Concurrent Output.

Lemma all_white_trim (s : string) :
  (forall c, Js.includes c s = true -> Js.isWhiteSpace c = true) ->
  Js.trim s = EmptyString.
Proof.
  intros H. assert (E : Js.trimStart s = EmptyString).
  { induction s as [|a s IH]; [reflexivity|]. simpl.
    rewrite (H a) by (simpl; now rewrite Ascii.eqb_refl).
    apply IH. intros c Hc. apply H. simpl. rewrite Hc. apply orb_true_r. }
  unfold Js.trim. now rewrite E.
Qed.

Lemma split_includes (sep c : ascii) (s f : string) :
  In f (Js.split sep s) -> Js.includes c f = true ->
  Js.includes c s = true.
Proof.
  revert f. induction s as [|a s IH]; simpl; intros f Hin Hc.
  - destruct Hin as [<-|[]]. discriminate.
  - destruct (Ascii.eqb a sep).
    + destruct Hin as [<-|Hin]; [discriminate|].
      rewrite (IH f Hin Hc). apply orb_true_r.
    + pose proof (split_not_nil sep s) as Hn.
      destruct (Js.split sep s) as [|f0 fs]; [congruence|].
      destruct Hin as [<-|Hin].
      * simpl in Hc. apply orb_true_iff in Hc as [Hc|Hc].
        -- rewrite Hc. reflexivity.
        -- rewrite (IH f0 (or_introl eq_refl) Hc). apply orb_true_r.
      * rewrite (IH f (or_intror Hin) Hc). apply orb_true_r.
Qed.

(** The lines of a blank content are blank. *)
Lemma blank_content (sep : ascii) (csv : string) :
  Js.isEmpty (Js.trim csv) = true ->
  countNonBlank (Js.split sep csv) = 0
  /\ countNonBlank (tl (Js.split sep csv)) = 0.
Proof.
  intros Hb. apply isEmpty_true in Hb.
  assert (All : forall l, In l (Js.split sep csv) -> isBlank l = true).
  { intros l Hl. unfold isBlank. apply isEmpty_true, all_white_trim.
    intros c Hc. apply (trimStart_blank csv Hb).
    now apply (split_includes sep c csv l). }
  assert (Z0 : forall ls : list string,
             (forall l, In l ls -> isBlank l = true) ->
             countNonBlank ls = 0).
  { induction ls as [|l ls IH]; intros H; [reflexivity|].
    rewrite countNonBlank_cons, (H l (or_introl eq_refl)), IH; [reflexivity|].
    intros l' Hl'. apply H. now right. }
  split; [now apply Z0|]. apply Z0. intros l Hl. apply All.
  destruct (Js.split sep csv); [exact Hl|now right].
Qed.

End Counting.

(** ** The batches *)

Module Batches.

Import CsvParser Ledger JsFacts LineFacts RunFacts LoopFacts HeapFacts
  ConcFacts EagerFacts EntryFacts.

(** (C9) At every moment of the loop of the concurrent method, the batch
    capacity being 1000: the pending promises all belong to the array
    [promises], which holds at most 1000 of them; a call is launched only
    while the array holds fewer than 1000; when the array is full the
    method waits, and it pulls again only once every promise is settled,
    with an empty array; and the loop is left only when no promise is
    pending and the source is exhausted. *)
Theorem at_most_batchSize_pending (s0 : State) (lines : list string)
    (s1 : State) (c : Conc) :
  (newStats ;; openAndReadHeader) s0 = (Ok lines, s1) ->
  steps (enterLoop lines s1) c ->
  batchSize = 1000%nat
  /\ (pendingCount (heap c) <= List.length (promises c))%nat
  /\ (List.length (promises c) <= batchSize)%nat
  /\ (forall i n path chunk,
         nth_error (heap c) i = Some (Pending n path chunk) ->
         In i (promises c))
  /\ (pc c = AwaitingBatch -> List.length (promises c) = batchSize)
  /\ (forall c', step c c' ->
         List.length (heap c') = S (List.length (heap c)) ->
         pc c = Pulling /\ (List.length (promises c) < batchSize)%nat)
  /\ (forall c', step c c' -> pc c = AwaitingBatch -> pc c' = Pulling ->
         allSettled (heap c) (promises c) = true
         /\ pendingCount (heap c') = O /\ promises c' = [])
  /\ (pc c = Leaving -> pendingCount (heap c) = O /\ source c = []).
Proof.
  intros E St.
  destruct (openAndReadHeader_ok _ _ _ E) as (Hs & Ho & Hf & _).
  rewrite <- Ho in Hf.
  pose proof (steps_inv _ _ _ _ _ _ _ St (enterLoop_inv lines s1 Hs Hf)) as I.
  destruct I as [It Io Ip Is Itot Iw Ipe Ic Ib Ipu Iso Il Ia].
  split; [reflexivity|]. split; [exact Ic|]. split; [exact Ib|].
  split; [exact Ipe|]. split; [exact Ia|]. split; [|split].
  - intros c' Hstep Hgrow.
    destruct Hstep as [c line rest pr s' H1 H2 H3|c i n path chunk pr s' H1 H2
                      |c H1 H2|c H1 H2|c H1 H2]; cbn [heap] in Hgrow.
    + split; [exact H1|now apply Ipu].
    + rewrite update_length in Hgrow. lia.
    + lia.
    + lia.
    + lia.
  - intros c' Hstep Hpc Hpc'.
    destruct Hstep as [c line rest pr s' H1 H2 H3|c i n path chunk pr s' H1 H2
                      |c H1 H2|c H1 H2|c H1 H2]; cbn [pc heap promises] in *;
      try congruence.
    split; [exact H2|]. split; [|reflexivity].
    now destruct (no_pending _ (allSettled_no_pending _ _ H2 Ipe)).
  - intros Hpc. split; [|apply Iso; now right].
    now destruct (no_pending _ (allSettled_no_pending _ _ (Il Hpc) Ipe)).
Qed.

(** The theorem when the first of two lines has been launched and its
    append is pending. *)
Lemma at_most_batchSize_pending_witness :
  let s0 := mkState Sample.parser Stats.new
              (Sample.worldOf Sample.twoUsers Sample.writable) in
  let s1 := snd ((newStats ;; openAndReadHeader) s0) in
  let line := "ann,ann@example.com,31" in
  let c := mkConc ["bob,bob@example.com,32"] [0%nat] [fst (launch line s1)]
             (snd (launch line s1)) Pulling in
  pendingCount (heap c) = 1%nat
  /\ (pendingCount (heap c) <= List.length (promises c))%nat
  /\ (List.length (promises c) <= batchSize)%nat.
Proof.
  cbv zeta.
  set (s0 := mkState Sample.parser Stats.new
               (Sample.worldOf Sample.twoUsers Sample.writable)).
  set (s1 := snd ((newStats ;; openAndReadHeader) s0)).
  set (c := mkConc ["bob,bob@example.com,32"] [0%nat]
              [fst (launch "ann,ann@example.com,31" s1)]
              (snd (launch "ann,ann@example.com,31" s1)) Pulling).
  assert (E : (newStats ;; openAndReadHeader) s0
              = (Ok ["ann,ann@example.com,31"; "bob,bob@example.com,32"], s1))
    by (vm_compute; reflexivity).
  assert (St : steps (enterLoop ["ann,ann@example.com,31";
                                 "bob,bob@example.com,32"] s1) c).
  { apply steps_one.
    apply (step_launch
             (enterLoop ["ann,ann@example.com,31"; "bob,bob@example.com,32"] s1)
             "ann,ann@example.com,31" ["bob,bob@example.com,32"]
             (fst (launch "ann,ann@example.com,31" s1))
             (snd (launch "ann,ann@example.com,31" s1)));
      [reflexivity|reflexivity|].
    cbn [enterLoop st]. now destruct (launch "ann,ann@example.com,31" s1). }
  destruct (at_most_batchSize_pending s0 _ s1 c E St)
    as (_ & H1 & H2 & _).
  split; [vm_compute; reflexivity|]. split; [exact H1|exact H2].
Defined.

End Batches.

(** ** The default output path *)

Module DefaultPath.

Import CsvParser.

(** (C10) Without an output path the parser writes to [output.csv] in the
    directory of the input file, and the parser object is the very one
    that this path, passed explicitly, gives: every method behaves the
    same on both.  So does the static method. *)
Theorem output_path_defaults_to_output_csv `{PathApi}
    (inputFilePath : string) :
  let out := join (dirname inputFilePath) "output.csv" in
  outputFilePath (new inputFilePath None) = out
  /\ new inputFilePath None = new inputFilePath (Some out)
  /\ (forall w,
        run processUsers (new inputFilePath None) w
        = run processUsers (new inputFilePath (Some out)) w)
  /\ (forall w,
        run processUsersAsStream (new inputFilePath None) w
        = run processUsersAsStream (new inputFilePath (Some out)) w)
  /\ (forall w h r,
        processUsersAsStreamAndConcurrency
          (mkState (new inputFilePath None) Stats.new w) h r
        <-> processUsersAsStreamAndConcurrency
              (mkState (new inputFilePath (Some out)) Stats.new w) h r)
  /\ (forall w,
        CsvParserStatic.processUsers inputFilePath None w
        = CsvParserStatic.processUsers inputFilePath (Some out) w).
Proof.
  cbv zeta.
  assert (T : Js.truthy (Some (join (dirname inputFilePath) "output.csv"))
              = true).
  { simpl. apply negb_true_iff, JsFacts.isEmpty_false, join_nonempty.
    discriminate. }
  assert (E : new inputFilePath None
              = new inputFilePath
                  (Some (join (dirname inputFilePath) "output.csv"))).
  { unfold new. rewrite T. reflexivity. }
  split; [reflexivity|]. split; [exact E|].
  split; [intros w; now rewrite E|]. split; [intros w; now rewrite E|].
  split; [intros w h r; now rewrite E|].
  intros w. unfold CsvParserStatic.processUsers. rewrite T. reflexivity.
Qed.

(** With the sample paths: [data/in.csv] gives [data/output.csv], and a
    run without an output path writes there. *)
Example default_path_sample :
  outputFilePath (@new Sample.path "data/in.csv" None) = "data/output.csv"
  /\ (let r := run processUsersAsStream (@new Sample.path "data/in.csv" None)
                 (Sample.worldOf Sample.scenario Sample.writable) in
      Fs.files (world (snd r)) "data/output.csv"
      = Some ("name,email,age" ++ EOL ++ "JOHN DOE,john@example.com,25")).
Proof. split; vm_compute; reflexivity. Qed.

End DefaultPath.

(** * Further properties *)

(** ** What a run may change *)

Module FrameFacts.

Import CsvParser Ledger Outline JsFacts LineFacts RunFacts LoopFacts
  HeapFacts ConcFacts EagerFacts EntryFacts.

Lemma extends_refl (out : string) (s : State) : Extends out s s.
Proof. constructor; intros; try reflexivity; lia. Qed.

Lemma extends_trans (out : string) (s1 s2 s3 : State) :
  Extends out s1 s2 -> Extends out s2 s3 -> Extends out s1 s3.
Proof.
  intros [A1 A2 A3 A4 A5 A6 A7] [B1 B2 B3 B4 B5 B6 B7].
  constructor; try congruence; try lia;
    intros; first [rewrite B3, A3; auto | rewrite B4, A4; auto].
Qed.

Lemma store_other (out q : string) (c : option string) (f : Fs.Files) :
  q <> out -> Fs.store out c f q = f q.
Proof.
  intros H. unfold Fs.store. apply String.eqb_neq in H. now rewrite H.
Qed.

Lemma line_extends (line : string) (s : State) :
  Extends (outputFilePath (this s)) s (snd (processUsersLine line s)).
Proof.
  rewrite line_verdict. destruct (verdict (this s) line) as [| |l].
  - apply extends_refl.
  - constructor; cbn; intros; try reflexivity; lia.
  - unfold Fs.appendFile, Fs.appendIssue, Fs.appendComplete.
    cbn [Fs.appendOk Fs.appendCalls Fs.files].
    destruct (Fs.appendOk (world s) (Fs.appendCalls (world s)));
      constructor; cbn; intros; try reflexivity; try lia.
    now apply store_other.
Qed.

Lemma forEach_extends (lines : list string) (s : State) :
  Extends (outputFilePath (this s)) s
    (snd (forEach lines processUsersLine s)).
Proof.
  revert s. induction lines as [|line rest IH]; intros s.
  - apply extends_refl.
  - change (forEach (line :: rest) processUsersLine s)
      with (match processUsersLine line s with
            | (Ok _, s') => forEach rest processUsersLine s'
            | (Throw e, s') => (Throw e, s')
            end).
    pose proof (line_extends line s) as L.
    destruct (processUsersLine line s) as [[[]|e] s1]; cbn [snd] in *;
      [|exact L].
    apply (extends_trans _ _ s1); [exact L|].
    rewrite <- (ext_output _ _ _ L). apply IH.
Qed.

Lemma safeDelete_extends (out : string) (s : State) :
  Extends out s (snd (safeDelete out s)).
Proof.
  rewrite safeDelete_cases. cbn [snd].
  destruct (Fs.files (world s) out); [|apply extends_refl].
  constructor; cbn; intros; try reflexivity; try lia.
  now apply store_other.
Qed.

Lemma cleanup_extends {A} (e : Error) (s : State) :
  Extends (outputFilePath (this s)) s (snd (@cleanup A e s)).
Proof.
  unfold cleanup, bind, getThis, throw.
  pose proof (safeDelete_extends (outputFilePath (this s)) s) as D.
  rewrite safeDelete_cases in *. exact D.
Qed.

Lemma cleanup_calls {A} (e : Error) (s : State) :
  Fs.appendCalls (world (snd (@cleanup A e s))) = Fs.appendCalls (world s).
Proof.
  unfold cleanup, bind, getThis, throw. rewrite safeDelete_cases.
  destruct (Fs.files (world s) (outputFilePath (this s))); reflexivity.
Qed.

Lemma finish_extends (s : State) :
  Extends (outputFilePath (this s)) s (snd (finish s)).
Proof.
  unfold finish, bind, getThis, getStats.
  destruct (Stats.processed (stats s) =? 0); [|apply extends_refl].
  pose proof (safeDelete_extends (outputFilePath (this s)) s) as D.
  rewrite safeDelete_cases in *. exact D.
Qed.

Lemma processHeaders_extends (out : string) (line : option string)
    (s : State) :
  Extends out s (snd (processHeaders line s)).
Proof.
  destruct line as [h|]; [|apply extends_refl].
  rewrite processHeaders_spec. cbv zeta. cbn [snd].
  constructor; cbn; intros; try reflexivity; lia.
Qed.

(** The statements before the loop of the stream methods, whatever their
    outcome. *)
Lemma openAndReadHeader_extends (s0 : State) :
  stats s0 = Stats.new ->
  let r := (newStats ;; openAndReadHeader) s0 in
  Extends (outputFilePath (this s0)) s0 (snd r)
  /\ stats (snd r) = Stats.new.
Proof.
  intros Hs. cbv zeta.
  unfold openAndReadHeader, getLines, newStats, setStats, bind, getThis,
    writeFile, readFile, liftFs, ret. cbn [this stats world].
  set (s1 := mkState (this s0) Stats.new
               (Fs.writeFile (outputFilePath (this s0)) headerLine (world s0))).
  assert (E1 : Extends (outputFilePath (this s0)) s0 s1).
  { constructor; cbn; intros; try reflexivity; try (rewrite Hs; cbn; lia);
      try lia. now apply store_other. }
  destruct (Fs.readFile _ _) as [csv|e]; [|now split].
  pose proof (processHeaders_extends (outputFilePath (this s0))
                (hd_error (Fs.readLines csv)) s1) as E2.
  assert (Hst : stats (snd (processHeaders (hd_error (Fs.readLines csv)) s1))
                = Stats.new).
  { destruct (hd_error (Fs.readLines csv)) as [h|]; [|reflexivity].
    now rewrite processHeaders_spec. }
  destruct (processHeaders _ s1) as [[[]|e] s2]; cbn [snd] in *;
    (split; [now apply (extends_trans _ _ s1)|exact Hst]).
Qed.

Lemma launch_extends (line : string) (s : State) :
  Extends (outputFilePath (this s)) s (snd (launch line s)).
Proof.
  rewrite launch_verdict. destruct (verdict (this s) line);
    constructor; cbn; intros; try reflexivity; lia.
Qed.

Lemma resume_extends (n : nat) (chunk : string) (s : State) :
  Extends (outputFilePath (this s)) s
    (snd (resume n (outputFilePath (this s)) chunk s)).
Proof.
  rewrite resume_cases. destruct (Fs.appendOk (world s) n);
    [|apply extends_refl].
  constructor; cbn; intros; try reflexivity; try lia.
  now apply store_other.
Qed.

(** Along the loop of the concurrent method. *)
Lemma steps_extends (p : t) (ok : nat -> bool) (K : list string)
    (NS NB : Z) (c c' : Conc) :
  steps c c' -> Inv p ok K NS NB c ->
  Extends (outputFilePath p) (st c) (st c').
Proof.
  induction 1 as [c|c1 c2 c3 H12 _ IH]; intros I; [apply extends_refl|].
  pose proof (step_inv _ _ _ _ _ _ _ I H12) as I2.
  apply (extends_trans _ _ (st c2)); [|now apply IH].
  pose proof (inv_this _ _ _ _ _ _ I) as It.
  destruct H12 as [c line rest pr s' H1 H2 H3|c i n path chunk pr s' H1 H2
                  |c H1 H2|c H1 H2|c H1 H2]; cbn [st];
    try apply extends_refl.
  - pose proof (launch_extends line (st c)) as L.
    rewrite H3, It in L. exact L.
  - pose proof (inv_path _ _ _ _ _ _ I _ _ _ _ H1) as Hp. subst path.
    pose proof (resume_extends n chunk (st c)) as R.
    rewrite It, H2 in R. exact R.
Qed.

End FrameFacts.

(** ** Every run, from start to end *)

Module RunShape.

Import CsvParser Ledger Outline JsFacts LineFacts RunFacts LoopFacts
  HeapFacts ConcFacts EagerFacts EntryFacts FrameFacts.

Lemma shape_from (out : string) (s0 s1 : State)
    (r : Result Stats.t * State) :
  Extends out s0 s1 -> Shape out s1 r -> Shape out s0 r.
Proof.
  intros E (E1 & H1 & H2). split; [|now split].
  now apply (extends_trans _ _ s1).
Qed.

Lemma cleanup_shape (e : Error) (s : State) :
  Shape (outputFilePath (this s)) s (@cleanup Stats.t e s).
Proof.
  destruct (@cleanup_spec Stats.t e s) as (C1 & _ & _ & C4).
  split; [apply cleanup_extends|]. split.
  - intros s' H. rewrite C1 in H. discriminate.
  - intros _ _. exact C4.
Qed.

Lemma finish_shape (s : State) :
  Shape (outputFilePath (this s)) s (finish s).
Proof.
  destruct (finish_spec s) as (F1 & F2 & _).
  split; [apply finish_extends|]. split.
  - intros s' H. rewrite F1 in H. inversion H; subst. exact F2.
  - intros e H. rewrite F1 in H. discriminate.
Qed.

Lemma tail_shape (lines : list string) (s1 : State) :
  Shape (outputFilePath (this s1)) s1
    (match forEach lines processUsersLine s1 with
     | (Ok _, s2) => finish s2
     | (Throw e, s2) => cleanup e s2
     end).
Proof.
  pose proof (forEach_extends lines s1) as E.
  pose proof (ext_output _ _ _ E) as Ho.
  destruct (forEach lines processUsersLine s1) as [[[]|e] s2];
    cbn [snd] in *; apply (shape_from _ _ s2 _ E); rewrite <- Ho.
  - apply finish_shape.
  - apply cleanup_shape.
Qed.

Lemma processUsersAsStream_shape (p : t) (w : Fs.World) :
  Shape (outputFilePath p) (mkState p Stats.new w)
    (run processUsersAsStream p w).
Proof.
  unfold run. rewrite processUsersAsStream_unfold.
  destruct (openAndReadHeader_extends (mkState p Stats.new w) eq_refl)
    as (E & _). cbv zeta in E. cbn [this] in E.
  pose proof (ext_output _ _ _ E) as Ho. cbn [this] in Ho.
  destruct ((newStats ;; openAndReadHeader) (mkState p Stats.new w))
    as [[lines|e] s1]; cbn [snd] in *;
    apply (shape_from _ _ s1 _ E); rewrite <- Ho.
  - apply tail_shape.
  - apply cleanup_shape.
Qed.

Lemma processUsers_shape (p : t) (w : Fs.World) :
  Shape (outputFilePath p) (mkState p Stats.new w) (run processUsers p w).
Proof.
  unfold run. rewrite processUsers_unfold. cbv zeta. cbn [this world].
  destruct (Fs.readFile (inputFilePath p) w) as [csv|e].
  - destruct (Js.isEmpty (Js.trim csv)).
    + split; [apply extends_refl|]. split.
      * intros s [= <-]. reflexivity.
      * intros e H. discriminate.
    + set (s1 := mkState p Stats.new
                   (Fs.writeFile (outputFilePath p) headerLine w)).
      assert (E1 : Extends (outputFilePath p) (mkState p Stats.new w) s1).
      { constructor; cbn; intros; try reflexivity; try lia.
        now apply store_other. }
      pose proof (processHeaders_extends (outputFilePath p)
                    (hd_error (Js.split Js.LF csv)) s1) as E2.
      pose proof (ext_output _ _ _ E2) as Ho. cbn [this s1] in Ho.
      destruct (processHeaders _ s1) as [[[]|e] s2]; cbn [snd] in *;
        apply (shape_from _ _ s2 _ (extends_trans _ _ _ _ E1 E2));
        rewrite <- Ho.
      * apply tail_shape.
      * apply cleanup_shape.
  - apply (cleanup_shape e (mkState p Stats.new w)).
Qed.

Lemma concurrent_shape (p : t) (w : Fs.World) (h : list Promise)
    (r : Result Stats.t * State) :
  processUsersAsStreamAndConcurrency (mkState p Stats.new w) h r ->
  Shape (outputFilePath p) (mkState p Stats.new w) r.
Proof.
  intros Hrun.
  destruct (openAndReadHeader_extends (mkState p Stats.new w) eq_refl)
    as (E & _). cbv zeta in E. cbn [this] in E.
  pose proof (ext_output _ _ _ E) as Ho. cbn [this] in Ho.
  destruct Hrun as [e s1 E0|lines s1 c E0 St Hpc]; rewrite E0 in *;
    cbn [snd] in *.
  - apply (shape_from _ _ s1 _ E). rewrite <- Ho. apply cleanup_shape.
  - destruct (openAndReadHeader_ok _ _ _ E0) as (Hs & _ & Hf & _).
    cbn [this] in Hf. rewrite <- Ho in Hf.
    pose proof (enterLoop_inv lines s1 Hs Hf) as I0.
    pose proof (steps_extends _ _ _ _ _ _ _ St I0) as E1.
    pose proof (steps_inv _ _ _ _ _ _ _ St I0) as I.
    pose proof (inv_this _ _ _ _ _ _ I) as It.
    cbn [enterLoop st] in E1. rewrite Ho in E1.
    apply (shape_from _ _ (st c) _ (extends_trans _ _ _ _ E E1)).
    rewrite <- Ho, <- It. apply finish_shape.
Qed.

End RunShape.

(** ** Failure, the other files, the counters *)

Module Safety.

Import CsvParser Ledger Outline JsFacts LineFacts RunFacts LoopFacts
  HeapFacts ConcFacts EagerFacts EntryFacts FrameFacts RunShape.

(** (X1) Whatever makes a run throw, the output file does not exist
    afterwards: the [catch] block of each method deletes it. *)
Theorem a_failed_run_leaves_no_output (p : t) (w : Fs.World) :
  (forall e, fst (run processUsers p w) = Throw e ->
     Fs.files (world (snd (run processUsers p w))) (outputFilePath p) = None)
  /\ (forall e, fst (run processUsersAsStream p w) = Throw e ->
        Fs.files (world (snd (run processUsersAsStream p w)))
          (outputFilePath p) = None)
  /\ (forall h r e,
        processUsersAsStreamAndConcurrency (mkState p Stats.new w) h r ->
        fst r = Throw e ->
        Fs.files (world (snd r)) (outputFilePath p) = None).
Proof.
  split; [|split].
  - intros e. now apply (processUsers_shape p w).
  - intros e. now apply (processUsersAsStream_shape p w).
  - intros h r e Hrun. now apply (concurrent_shape p w h r Hrun).
Qed.

(** The theorem when the sink fails the first append, with a stale output
    file in place. *)
Lemma a_failed_run_leaves_no_output_witness :
  let w := Sample.staleWorldOf Sample.scenario Sample.unwritable in
  fst (run processUsersAsStream Sample.parser w) = Throw (SystemError "EIO")
  /\ Fs.files (world (snd (run processUsersAsStream Sample.parser w)))
       "data/out.csv" = None
  /\ fst (run processUsers Sample.parser w) = Throw (SystemError "EIO")
  /\ Fs.files (world (snd (run processUsers Sample.parser w)))
       "data/out.csv" = None.
Proof.
  cbv zeta.
  destruct (a_failed_run_leaves_no_output Sample.parser
              (Sample.staleWorldOf Sample.scenario Sample.unwritable))
    as (Hp & Hs & _).
  assert (E1 : fst (run processUsersAsStream Sample.parser
                      (Sample.staleWorldOf Sample.scenario Sample.unwritable))
               = Throw (SystemError "EIO")) by (vm_compute; reflexivity).
  assert (E2 : fst (run processUsers Sample.parser
                      (Sample.staleWorldOf Sample.scenario Sample.unwritable))
               = Throw (SystemError "EIO")) by (vm_compute; reflexivity).
  split; [exact E1|]. split; [exact (Hs _ E1)|].
  split; [exact E2|exact (Hp _ E2)].
Defined.

(** (X2) A run never creates, changes or deletes a file other than the
    output file; in particular the input file is left as it was. *)
Theorem a_run_touches_only_the_output_file (p : t) (w : Fs.World)
    (q : string) :
  q <> outputFilePath p ->
  Fs.files (world (snd (run processUsers p w))) q = Fs.files w q
  /\ Fs.files (world (snd (run processUsersAsStream p w))) q = Fs.files w q
  /\ (forall h r,
        processUsersAsStreamAndConcurrency (mkState p Stats.new w) h r ->
        Fs.files (world (snd r)) q = Fs.files w q).
Proof.
  intros Hq. split; [|split].
  - destruct (processUsers_shape p w) as (E & _).
    exact (ext_files _ _ _ E q Hq).
  - destruct (processUsersAsStream_shape p w) as (E & _).
    exact (ext_files _ _ _ E q Hq).
  - intros h r Hrun. destruct (concurrent_shape p w h r Hrun) as (E & _).
    exact (ext_files _ _ _ E q Hq).
Qed.

(** The theorem at the input file of the scenario. *)
Lemma a_run_touches_only_the_output_file_witness :
  let w := Sample.worldOf Sample.scenario Sample.writable in
  Fs.files (world (snd (run processUsers Sample.parser w))) "data/in.csv"
  = Some Sample.scenario
  /\ Fs.files (world (snd (run processUsersAsStream Sample.parser w)))
       "data/in.csv" = Some Sample.scenario.
Proof.
  cbv zeta.
  destruct (a_run_touches_only_the_output_file Sample.parser
              (Sample.worldOf Sample.scenario Sample.writable) "data/in.csv"
              ltac:(discriminate)) as (H1 & H2 & _).
  split; [exact H1|exact H2].
Defined.

(** (X3) The stats a run returns are the [stats] object as the run left
    it; both counters are non-negative, so that the constructor of [Stats]
    accepts them, and the total is their sum. *)
Theorem returned_stats_are_valid (p : t) (w : Fs.World) (s : Stats.t) :
  fst (run processUsers p w) = Ok s
  \/ fst (run processUsersAsStream p w) = Ok s
  \/ (exists h r,
         processUsersAsStreamAndConcurrency (mkState p Stats.new w) h r
         /\ fst r = Ok s) ->
  0 <= Stats.processed s /\ 0 <= Stats.skipped s
  /\ Stats.create (Stats.processed s) (Stats.skipped s) = Ok s
  /\ Stats.total s = Stats.processed s + Stats.skipped s.
Proof.
  intros H.
  assert (Hs : exists r, Shape (outputFilePath p) (mkState p Stats.new w) r
                         /\ fst r = Ok s).
  { destruct H as [H|[H|(h & r & Hrun & H)]].
    - eexists. split; [apply processUsers_shape|exact H].
    - eexists. split; [apply processUsersAsStream_shape|exact H].
    - exists r. split; [now apply (concurrent_shape p w h)|exact H]. }
  destruct Hs as (r & (E & R & _) & Hr).
  pose proof (ext_processed _ _ _ E) as P.
  pose proof (ext_skipped _ _ _ E) as S.
  rewrite (R s Hr) in P, S. cbn in P, S.
  split; [exact P|]. split; [exact S|]. split; [|reflexivity].
  unfold Stats.create.
  replace (Stats.processed s <? 0) with false by (symmetry; now apply Z.ltb_ge).
  replace (Stats.skipped s <? 0) with false by (symmetry; now apply Z.ltb_ge).
  now destruct s.
Qed.

(** The theorem on the scenario. *)
Lemma returned_stats_are_valid_witness :
  Stats.create 1 2 = Ok (Stats.mk 1 2) /\ Stats.total (Stats.mk 1 2) = 3.
Proof.
  destruct (returned_stats_are_valid Sample.parser
              (Sample.worldOf Sample.scenario Sample.writable) (Stats.mk 1 2))
    as (_ & _ & H & T).
  - right. left. vm_compute. reflexivity.
  - split; [exact H|exact T].
Defined.

(** (X4) With no input file every method throws the ENOENT error of the
    read, with the stats untouched, and leaves no output file, a stale one
    included.  [processUsers] reads before it writes; the stream methods
    write the header first, so for them the output path must not be the
    input path. *)
Theorem a_missing_input_is_an_error (p : t) (w : Fs.World) :
  Fs.files w (inputFilePath p) = None ->
  (let r := run processUsers p w in
   fst r = Throw (SystemError "ENOENT") /\ stats (snd r) = Stats.new
   /\ Fs.files (world (snd r)) (outputFilePath p) = None)
  /\ (inputFilePath p <> outputFilePath p ->
      (let r := run processUsersAsStream p w in
       fst r = Throw (SystemError "ENOENT") /\ stats (snd r) = Stats.new
       /\ Fs.files (world (snd r)) (outputFilePath p) = None)
      /\ (forall h r,
             processUsersAsStreamAndConcurrency (mkState p Stats.new w) h r ->
             h = [] /\ fst r = Throw (SystemError "ENOENT")
             /\ stats (snd r) = Stats.new
             /\ Fs.files (world (snd r)) (outputFilePath p) = None)).
Proof.
  intros Hin. split.
  - cbv zeta. unfold run. rewrite processUsers_unfold. cbv zeta.
    cbn [this world]. unfold Fs.readFile. rewrite Hin.
    destruct (@cleanup_spec Stats.t (SystemError "ENOENT")
                (mkState p Stats.new w)) as (C1 & _ & C3 & C4).
    now repeat split.
  - intros Hne.
    assert (E0 : (newStats ;; openAndReadHeader) (mkState p Stats.new w)
                 = (Throw (SystemError "ENOENT"),
                    mkState p Stats.new
                      (Fs.writeFile (outputFilePath p) headerLine w))).
    { unfold openAndReadHeader, getLines, newStats, setStats, bind, getThis,
        writeFile, readFile, liftFs, ret. cbn [this stats world].
      unfold Fs.readFile, Fs.writeFile. cbn [Fs.files Fs.setFiles].
      rewrite store_other by exact Hne. now rewrite Hin. }
    match type of E0 with _ = (_, ?s) => set (s1 := s) in * end.
    destruct (@cleanup_spec Stats.t (SystemError "ENOENT") s1)
      as (C1 & _ & C3 & C4).
    split.
    + cbv zeta. unfold run. rewrite processUsersAsStream_unfold, E0.
      now repeat split.
    + intros h r Hrun.
      destruct Hrun as [e s1' E|lines s1' c E _ _]; rewrite E0 in E;
        [|discriminate].
      inversion E; subst e s1'. now repeat split.
Qed.

(** The theorem on a world that holds a stale output file and no input. *)
Lemma a_missing_input_is_an_error_witness :
  let w := Fs.mk (Fs.store "data/out.csv" (Some "old") (fun _ => None)) 0
             Sample.writable in
  Sample.observe (run processUsers Sample.parser w)
  = (Throw (SystemError "ENOENT"), Stats.new, None)
  /\ Sample.observe (run processUsersAsStream Sample.parser w)
     = (Throw (SystemError "ENOENT"), Stats.new, None).
Proof.
  cbv zeta.
  set (w := Fs.mk (Fs.store "data/out.csv" (Some "old") (fun _ => None)) 0
              Sample.writable).
  destruct (a_missing_input_is_an_error Sample.parser w eq_refl)
    as ((P1 & P2 & P3) & H).
  destruct (H ltac:(discriminate)) as ((S1 & S2 & S3) & _).
  unfold Sample.observe.
  change "data/out.csv" with (outputFilePath Sample.parser).
  split; [now rewrite P1, P2, P3|now rewrite S1, S2, S3].
Defined.

End Safety.

(** ** The header, column by column *)

Module Columns.

Import CsvParser Ledger Outline JsFacts LineFacts RunFacts Header.

Lemma indexOf_first (xs : list string) (x : string) (j : Z) :
  0 <= j < Js.indexOf xs x -> Js.get xs j <> Some x.
Proof.
  revert j. induction xs as [|y ys IH]; simpl; intros j Hj; [lia|].
  destruct (String.eqb y x) eqn:E; [lia|].
  apply String.eqb_neq in E.
  destruct (Js.indexOf ys x <? 0) eqn:L; [lia|].
  unfold Js.get. replace (j <? 0) with false by (symmetry; apply Z.ltb_ge; lia).
  destruct (Z.to_nat j) as [|k] eqn:Ek; simpl.
  - congruence.
  - specialize (IH (j - 1) ltac:(lia)). unfold Js.get in IH.
    replace (j - 1 <? 0) with false in IH by (symmetry; apply Z.ltb_ge; lia).
    replace (Z.to_nat (j - 1)) with k in IH by lia. exact IH.
Qed.

(** (X5) A header that holds the three names, in any order and among any
    other columns, is accepted; each index then points at the first column
    that bears the name, the three indices differ, and nothing but the
    indices changes. *)
Theorem header_columns_in_any_order (header : string) (s : State) :
  In "name" (Js.split "," header) ->
  In "email" (Js.split "," header) ->
  In "age" (Js.split "," header) ->
  let cols := Js.split "," header in
  let r := processHeaders (Some header) s in
  let p := this (snd r) in
  fst r = Ok tt
  /\ Js.get cols (nameIndex p) = Some "name"
  /\ Js.get cols (emailIndex p) = Some "email"
  /\ Js.get cols (ageIndex p) = Some "age"
  /\ (forall j, 0 <= j < nameIndex p -> Js.get cols j <> Some "name")
  /\ (forall j, 0 <= j < emailIndex p -> Js.get cols j <> Some "email")
  /\ (forall j, 0 <= j < ageIndex p -> Js.get cols j <> Some "age")
  /\ nameIndex p <> emailIndex p /\ nameIndex p <> ageIndex p
  /\ emailIndex p <> ageIndex p
  /\ inputFilePath p = inputFilePath (this s)
  /\ outputFilePath p = outputFilePath (this s)
  /\ stats (snd r) = stats s /\ world (snd r) = world s.
Proof.
  intros Hn He Ha. cbv zeta.
  assert (L : lacksColumn header = false).
  { destruct (lacksColumn header) eqn:L; [|reflexivity].
    apply lacksColumn_spec in L. exfalso. apply L. now repeat split. }
  rewrite processHeaders_spec. cbv zeta. rewrite L. cbn [fst snd this stats
    world nameIndex emailIndex ageIndex inputFilePath outputFilePath].
  assert (Nn : Js.indexOf (Js.split "," header) "name" <> -1)
    by (intros E; now apply indexOf_absent in E).
  assert (Ne : Js.indexOf (Js.split "," header) "email" <> -1)
    by (intros E; now apply indexOf_absent in E).
  assert (Na : Js.indexOf (Js.split "," header) "age" <> -1)
    by (intros E; now apply indexOf_absent in E).
  split; [reflexivity|].
  split; [now apply indexOf_found|]. split; [now apply indexOf_found|].
  split; [now apply indexOf_found|].
  split; [intros j; apply indexOf_first|].
  split; [intros j; apply indexOf_first|].
  split; [intros j; apply indexOf_first|].
  split; [intros E; apply indexOf_inj in E; [discriminate|exact Nn]|].
  split; [intros E; apply indexOf_inj in E; [discriminate|exact Nn]|].
  split; [intros E; apply indexOf_inj in E; [discriminate|exact Ne]|].
  now repeat split.
Qed.

(** The theorem on the header [id,age,name,email,name]. *)
Lemma header_columns_in_any_order_witness :
  let s := mkState Sample.parser Stats.new
             (Sample.worldOf Sample.scenario Sample.writable) in
  let r := processHeaders (Some "id,age,name,email,name") s in
  fst r = Ok tt
  /\ nameIndex (this (snd r)) = 2 /\ emailIndex (this (snd r)) = 3
  /\ ageIndex (this (snd r)) = 1
  /\ Js.get (Js.split "," "id,age,name,email,name") (nameIndex (this (snd r)))
     = Some "name".
Proof.
  cbv zeta.
  destruct (header_columns_in_any_order "id,age,name,email,name"
              (mkState Sample.parser Stats.new
                 (Sample.worldOf Sample.scenario Sample.writable)))
    as (H1 & H2 & _).
  - right. right. now left.
  - right. right. right. now left.
  - right. now left.
  - split; [exact H1|]. split; [reflexivity|]. split; [reflexivity|].
    split; [reflexivity|exact H2].
Defined.

End Columns.

(** ** The output of a sequential run, line by line *)

Module Order.

Import CsvParser Ledger Outline JsFacts LineFacts RunFacts LoopFacts
  HeapFacts EntryFacts FrameFacts.

Lemma countSkipped_nonneg (p : t) (lines : list string) :
  0 <= countSkipped p lines.
Proof.
  induction lines as [|l rest IH]; cbn [countSkipped]; [lia|].
  destruct (verdict p l); lia.
Qed.

(** With a sink that takes every append, [okChunks] is [chunks]. *)
Lemma okChunks_writable (p : t) (ok : nat -> bool) (lines : list string) :
  (forall n, ok n = true) ->
  forall n, okChunks p ok n lines = chunks p lines.
Proof.
  intros Hok. unfold chunks.
  assert (G : forall n m, okChunks p ok n lines
                          = okChunks p (fun _ => true) m lines).
  { induction lines as [|l rest IH]; intros n m; simpl; [reflexivity|].
    destruct (verdict p l); try apply IH.
    rewrite Hok. f_equal. apply IH. }
  intros n. apply G.
Qed.

Lemma chunks_cons (p : t) (line : string) (rest : list string) :
  chunks p (line :: rest)
  = match verdict p line with
    | Accepted o => (EOL ++ o) :: chunks p rest
    | _ => chunks p rest
    end.
Proof.
  unfold chunks. simpl. destruct (verdict p line); try reflexivity.
  f_equal. apply (okChunks_writable p (fun _ => true) rest (fun _ => eq_refl)).
Qed.

Lemma concat_cons (x : string) (xs : list string) :
  String.concat EmptyString (x :: xs) = x ++ String.concat EmptyString xs.
Proof.
  destruct xs as [|y ys]; simpl; [now rewrite append_empty_r|reflexivity].
Qed.

(** The loop of the sequential methods when every append succeeds: it does
    not throw, it counts the accepted and the skipped lines, and it appends
    the chunks of the accepted lines in the order of the lines. *)
Lemma forEach_writable (lines : list string) :
  forall (s : State) (old : string),
    (forall n, Fs.appendOk (world s) n = true) ->
    Fs.files (world s) (outputFilePath (this s)) = Some old ->
    let r := forEach lines processUsersLine s in
    fst r = Ok tt
    /\ this (snd r) = this s
    /\ Stats.processed (stats (snd r))
       = Stats.processed (stats s)
         + Z.of_nat (List.length (chunks (this s) lines))
    /\ Stats.skipped (stats (snd r))
       = Stats.skipped (stats s) + countSkipped (this s) lines
    /\ Fs.files (world (snd r)) (outputFilePath (this s))
       = Some (old ++ String.concat EmptyString (chunks (this s) lines)).
Proof.
  induction lines as [|line rest IH]; intros s old Hok Hf; cbv zeta.
  - cbn. rewrite append_empty_r. repeat split; try lia. exact Hf.
  - change (forEach (line :: rest) processUsersLine s)
      with (match processUsersLine line s with
            | (Ok _, s') => forEach rest processUsersLine s'
            | (Throw e, s') => (Throw e, s')
            end).
    rewrite chunks_cons. cbn [countSkipped].
    pose proof (line_extends line s) as E.
    rewrite line_verdict in *.
    destruct (verdict (this s) line) as [| |l] eqn:V.
    + apply (IH s old Hok Hf).
    + destruct (IH (skip s) old Hok Hf) as (I1 & I2 & I3 & I4 & I5).
      cbn [skip this stats world Stats.processed Stats.skipped] in *.
      repeat split; try assumption; lia.
    + unfold Fs.appendFile, Fs.appendIssue, Fs.appendComplete in *.
      cbn [Fs.appendOk Fs.appendCalls Fs.files] in *.
      rewrite Hok in *. cbn [processUsersLineResume incProcessed] in *.
      match goal with |- context [forEach rest processUsersLine ?s1] =>
        destruct (IH s1 (old ++ (EOL ++ l))) as (I1 & I2 & I3 & I4 & I5)
      end.
      * intros n. cbn. apply Hok.
      * cbn. unfold Fs.store. rewrite String.eqb_refl, Hf. reflexivity.
      * cbn [this stats world Stats.processed Stats.skipped] in *.
        split; [exact I1|]. split; [exact I2|].
        split; [rewrite I3; cbn [List.length]; rewrite Nat2Z.inj_succ; lia|].
        split; [rewrite I4; lia|].
        rewrite I5, concat_cons, append_assoc. reflexivity.
Qed.

End Order.

(** ** Sequential runs with a writable sink *)

Module Sequential.

Import CsvParser Ledger Outline JsFacts LineFacts RunFacts LoopFacts
  HeapFacts EntryFacts FrameFacts Order.

(** The loop and the end of a sequential method, entered with fresh stats
    and the header in the output file. *)
Lemma tail_writable (lines : list string) (s1 : State) :
  (forall n, Fs.appendOk (world s1) n = true) ->
  stats s1 = Stats.new ->
  Fs.files (world s1) (outputFilePath (this s1)) = Some headerLine ->
  let r := match forEach lines processUsersLine s1 with
           | (Ok _, s2) => finish s2
           | (Throw e, s2) => cleanup e s2
           end in
  fst r = Ok (Stats.mk (Z.of_nat (List.length (chunks (this s1) lines)))
                       (countSkipped (this s1) lines))
  /\ Fs.files (world (snd r)) (outputFilePath (this s1))
     = match chunks (this s1) lines with
       | [] => None
       | cs => Some (headerLine ++ String.concat EmptyString cs)
       end.
Proof.
  intros Hok Hs Hf. cbv zeta.
  destruct (forEach_writable lines s1 headerLine Hok Hf)
    as (F1 & F2 & F3 & F4 & F5).
  rewrite Hs in F3, F4. cbn in F3, F4.
  destruct (forEach lines processUsersLine s1) as [[[]|e] s2];
    cbn [fst snd] in *; [|discriminate].
  destruct (finish_spec s2) as (G1 & G2 & G3 & G4).
  rewrite G1. split.
  - destruct (stats s2) as [a b]. cbn in *. now subst.
  - rewrite F2 in *. destruct (chunks (this s1) lines) as [|c cs] eqn:C.
    + apply G3. rewrite F3. reflexivity.
    + rewrite G4; [exact F5|]. rewrite F3. cbn [List.length]. lia.
Qed.

(** [processUsersAsStream] with a sink that takes every append and a
    well-formed header. *)
Lemma stream_writable (p : t) (w : Fs.World) (csv header : string)
    (rest : list string) :
  Fs.files w (inputFilePath p) = Some csv ->
  inputFilePath p <> outputFilePath p ->
  (forall n, Fs.appendOk w n = true) ->
  Fs.readLines csv = header :: rest -> lacksColumn header = false ->
  let p' := mk (inputFilePath p) (outputFilePath p)
               (Js.indexOf (Js.split "," header) "name")
               (Js.indexOf (Js.split "," header) "email")
               (Js.indexOf (Js.split "," header) "age") in
  let r := run processUsersAsStream p w in
  fst r = Ok (Stats.mk (Z.of_nat (List.length (chunks p' rest)))
                       (countSkipped p' rest))
  /\ Fs.files (world (snd r)) (outputFilePath p)
     = match chunks p' rest with
       | [] => None
       | cs => Some (headerLine ++ String.concat EmptyString cs)
       end.
Proof.
  intros Hin Hne Hok Hl Hc. cbv zeta. unfold run.
  rewrite processUsersAsStream_unfold.
  pose proof (openAndReadHeader_spec p w csv Hin Hne) as E0.
  cbv zeta in E0. rewrite Hl, Hc in E0. rewrite E0.
  match goal with |- context [forEach rest processUsersLine ?s] =>
    apply (tail_writable rest s) end.
  - intros n. cbn. apply Hok.
  - reflexivity.
  - cbn. unfold Fs.store. now rewrite String.eqb_refl.
Qed.

(** (X6) With a sink that takes every append and a well-formed header, a
    sequential run returns the number of accepted lines and the number of
    skipped lines, and leaves an output file that holds the header followed
    by the accepted lines, each once, in the order of the input; when no
    line is accepted there is no output file. *)
Theorem sequential_output_follows_the_input (p : t) (w : Fs.World)
    (csv : string) :
  Fs.files w (inputFilePath p) = Some csv ->
  inputFilePath p <> outputFilePath p ->
  (forall n, Fs.appendOk w n = true) ->
  (forall header rest,
      Fs.readLines csv = header :: rest -> lacksColumn header = false ->
      let p' := mk (inputFilePath p) (outputFilePath p)
                   (Js.indexOf (Js.split "," header) "name")
                   (Js.indexOf (Js.split "," header) "email")
                   (Js.indexOf (Js.split "," header) "age") in
      let r := run processUsersAsStream p w in
      fst r = Ok (Stats.mk (Z.of_nat (List.length (chunks p' rest)))
                           (countSkipped p' rest))
      /\ Fs.files (world (snd r)) (outputFilePath p)
         = match chunks p' rest with
           | [] => None
           | cs => Some (headerLine ++ String.concat EmptyString cs)
           end)
  /\ (forall header rest,
        Js.split Js.LF csv = header :: rest -> lacksColumn header = false ->
        Js.isEmpty (Js.trim csv) = false ->
        let p' := mk (inputFilePath p) (outputFilePath p)
                     (Js.indexOf (Js.split "," header) "name")
                     (Js.indexOf (Js.split "," header) "email")
                     (Js.indexOf (Js.split "," header) "age") in
        let r := run processUsers p w in
        fst r = Ok (Stats.mk (Z.of_nat (List.length (chunks p' rest)))
                             (countSkipped p' rest))
        /\ Fs.files (world (snd r)) (outputFilePath p)
           = match chunks p' rest with
             | [] => None
             | cs => Some (headerLine ++ String.concat EmptyString cs)
             end).
Proof.
  intros Hin Hne Hok. split.
  - intros header rest Hl Hc. now apply (stream_writable p w csv).
  - intros header rest Hl Hc Hb. cbv zeta. unfold run.
    rewrite processUsers_unfold. cbv zeta. cbn [this world].
    unfold Fs.readFile. rewrite Hin, Hb, Hl. cbn [hd_error tl].
    rewrite processHeaders_spec. cbv zeta. rewrite Hc.
    match goal with |- context [forEach rest processUsersLine ?s] =>
      apply (tail_writable rest s) end.
    + intros n. cbn. apply Hok.
    + reflexivity.
    + cbn. unfold Fs.store. now rewrite String.eqb_refl.
Qed.

(** The theorem on two valid lines around a rejected one, with the columns
    in another order. *)
Lemma sequential_output_follows_the_input_witness :
  let csv := "age,name,email" ++ Sample.nl ++ "31,ann,ann@example.com"
             ++ Sample.nl ++ "x,eve,eve@example.com" ++ Sample.nl
             ++ "32,bob,bob@example.com" in
  let w := Sample.worldOf csv Sample.writable in
  Sample.observe (run processUsersAsStream Sample.parser w)
  = (Ok (Stats.mk 2 1), Stats.mk 2 1,
     Some ("name,email,age" ++ EOL ++ "ANN,ann@example.com,31" ++ EOL
           ++ "BOB,bob@example.com,32")).
Proof.
  cbv zeta.
  set (csv := "age,name,email" ++ Sample.nl ++ "31,ann,ann@example.com"
              ++ Sample.nl ++ "x,eve,eve@example.com" ++ Sample.nl
              ++ "32,bob,bob@example.com").
  set (w := Sample.worldOf csv Sample.writable).
  destruct (sequential_output_follows_the_input Sample.parser w csv eq_refl
              ltac:(discriminate) (fun _ => eq_refl)) as (H & _).
  destruct (H "age,name,email"
              ["31,ann,ann@example.com"; "x,eve,eve@example.com";
               "32,bob,bob@example.com"]
              ltac:(vm_compute; reflexivity) ltac:(vm_compute; reflexivity))
    as (H1 & H2).
  destruct (RunShape.processUsersAsStream_shape Sample.parser w)
    as (_ & R & _).
  unfold Sample.observe.
  change "data/out.csv" with (outputFilePath Sample.parser).
  rewrite (R _ H1), H1, H2. vm_compute. reflexivity.
Defined.

End Sequential.

(** ** The concurrent method across schedules *)

Module Schedules.

Import CsvParser Ledger Outline JsFacts LineFacts RunFacts LoopFacts
  HeapFacts ConcFacts EagerFacts EntryFacts FrameFacts RunShape Order
  Sequential Concurrent.

Lemma steps_heap_length (c c' : Conc) :
  steps c c' ->
  (List.length (heap c') + List.length (source c')
   = List.length (heap c) + List.length (source c))%nat.
Proof.
  induction 1 as [c|c1 c2 c3 H12 _ IH]; [reflexivity|]. rewrite IH.
  destruct H12 as [c line rest pr s' H1 H2 H3|c i n path chunk pr s' H1 H2
                  |c H1 H2|c H1 H2|c H1 H2]; cbn [heap source].
  - rewrite H2, length_app. cbn [List.length]. lia.
  - now rewrite update_length.
  - reflexivity.
  - now rewrite H2.
  - reflexivity.
Qed.

Lemma chunks_count (p : t) (lines : list string) :
  Z.of_nat (List.length (chunks p lines)) + countSkipped p lines
  = countNonBlank lines.
Proof.
  induction lines as [|l rest IH]; [reflexivity|].
  rewrite chunks_cons, countNonBlank_cons. cbn [countSkipped].
  pose proof (verdict_blank p l) as B.
  destruct (verdict p l) as [| |o].
  - destruct B as [B _]. rewrite (B eq_refl). lia.
  - destruct (isBlank l); [destruct B as [_ B]; now specialize (B eq_refl)|].
    lia.
  - destruct (isBlank l); [destruct B as [_ B]; now specialize (B eq_refl)|].
    cbn [List.length]. rewrite Nat2Z.inj_succ. lia.
Qed.



(** (X9) A run of the concurrent method that returns has created one
    promise for each data line, blank lines included, and every one of them
    is settled when the method returns. *)
Theorem one_promise_per_line (s0 : State) (lines : list string) (s1 : State)
    (c : Conc) :
  (newStats ;; openAndReadHeader) s0 = (Ok lines, s1) ->
  steps (enterLoop lines s1) c ->
  (List.length (heap c) <= List.length lines)%nat
  /\ (pc c = Leaving ->
      List.length (heap c) = List.length lines
      /\ forall i pr, nth_error (heap c) i = Some pr -> isPending pr = false).
Proof.
  intros E St.
  pose proof (steps_heap_length _ _ St) as L. cbn [enterLoop heap source] in L.
  cbn [List.length] in L. split; [lia|]. intros Hpc.
  destruct (openAndReadHeader_ok _ _ _ E) as (Hs & Ho & Hf & _).
  rewrite <- Ho in Hf.
  pose proof (steps_inv _ _ _ _ _ _ _ St (enterLoop_inv lines s1 Hs Hf)) as I.
  rewrite (inv_source _ _ _ _ _ _ I (or_intror Hpc)) in L.
  cbn [List.length] in L. split; [lia|].
  intros i pr Hi. destruct pr as [n path chunk| |e]; try reflexivity.
  exfalso.
  apply (allSettled_no_pending _ _ (inv_leaving _ _ _ _ _ _ I Hpc)
           (inv_pending _ _ _ _ _ _ I) i n path chunk Hi).
Qed.

(** The theorem on the eager schedule of the scenario. *)
Lemma one_promise_per_line_witness :
  let s0 := mkState Sample.parser Stats.new
              (Sample.worldOf Sample.scenario Sample.writable) in
  let s1 := snd ((newStats ;; openAndReadHeader) s0) in
  let lines := ["john doe,john@example.com,25"; "jane smith,invalid-email,30";
                "bob,bob@example.com,-5"] in
  (List.length (heap (eagerLoop lines (enterLoop lines s1)))
   <= List.length lines)%nat.
Proof.
  intros s0 s1 lines.
  assert (E : (newStats ;; openAndReadHeader) s0 = (Ok lines, s1))
    by (vm_compute; reflexivity).
  assert (Q : Quiet (enterLoop lines s1)).
  { split; [reflexivity|]. split; [apply batchSize_pos|].
    intros [|i] n path chunk H; discriminate. }
  pose proof (eagerLoop_steps lines (enterLoop lines s1) Q eq_refl) as St.
  destruct St as (St & _).
  pose proof (one_promise_per_line s0 lines s1 _ E St) as H.
  destruct H as (H & _). exact H.
Defined.

End Schedules.

(** ** The total of the stats *)

Module Totals.

Import CsvParser Ledger Outline JsFacts LineFacts RunFacts LoopFacts
  HeapFacts ConcFacts EagerFacts EntryFacts Concurrent Output Counting
  Order Schedules Scenarios.

(** Every run of the concurrent method that is past the header, by the
    appends that succeed. *)
Lemma concurrent_total (p : t) (w : Fs.World) (csv : string)
    (h : list Promise) (r : Result Stats.t * State) (s : Stats.t) :
  Fs.files w (inputFilePath p) = Some csv ->
  inputFilePath p <> outputFilePath p ->
  processUsersAsStreamAndConcurrency (mkState p Stats.new w) h r ->
  fst r = Ok s ->
  exists header rest done,
    Fs.readLines csv = header :: rest
    /\ Permutation done
         (okChunks (mk (inputFilePath p) (outputFilePath p)
                       (Js.indexOf (Js.split "," header) "name")
                       (Js.indexOf (Js.split "," header) "email")
                       (Js.indexOf (Js.split "," header) "age"))
            (Fs.appendOk w) (Fs.appendCalls w) rest)
    /\ Stats.total s
       = Z.of_nat (List.length done)
         + countSkipped (mk (inputFilePath p) (outputFilePath p)
                            (Js.indexOf (Js.split "," header) "name")
                            (Js.indexOf (Js.split "," header) "email")
                            (Js.indexOf (Js.split "," header) "age")) rest
    /\ Stats.total s + Z.of_nat (rejectedCount h) = countNonBlank rest.
Proof.
  intros Hin Hne Hrun Hs.
  pose proof (concurrent_outcome p w csv h r Hin Hne Hrun) as O.
  destruct (Fs.readLines csv) as [|header rest].
  - destruct O as (_ & F & _). congruence.
  - destruct (lacksColumn header).
    + destruct O as (_ & F & _). congruence.
    + cbv zeta in O. destruct O as (done & P & F1 & _ & T & _).
      rewrite F1 in Hs. injection Hs as <-.
      exists header, rest, done. unfold Stats.total.
      cbn [Stats.processed Stats.skipped]. now repeat split.
Qed.

(** (C4, on the code) Line by line the counters are as the claim has
    them: a blank line changes neither, any other line that is handled
    without an error adds one to exactly one of them.  For [processUsers] and
    [processUsersAsStream] the total of a run that returns is the number of
    lines after the header that are not blank, and so it is for every run
    of [processUsersAsStreamAndConcurrency] when the sink takes every
    append.  But a run of the concurrent method returns also when an
    append has failed, and the line of that append is in neither counter:
    the total falls short by the number of rejected promises.  On two valid
    lines and a sink that fails the second append every run returns with a
    total of [1] for [2] lines. *)
Theorem total_misses_the_failed_appends (p : t) (w : Fs.World)
    (csv : string) :
  Fs.files w (inputFilePath p) = Some csv ->
  inputFilePath p <> outputFilePath p ->
  (forall line s,
      let r := processUsersLine line s in
      (isBlank line = true -> r = (Ok tt, s))
      /\ (isBlank line = false -> fst r = Ok tt ->
          (Stats.processed (stats (snd r)) = Stats.processed (stats s) + 1
           /\ Stats.skipped (stats (snd r)) = Stats.skipped (stats s))
          \/ (Stats.processed (stats (snd r)) = Stats.processed (stats s)
              /\ Stats.skipped (stats (snd r)) = Stats.skipped (stats s) + 1)))
  /\ (forall s,
        fst (run processUsersAsStream p w) = Ok s ->
        Stats.total s = countNonBlank (tl (Fs.readLines csv)))
  /\ (forall s,
        fst (run processUsers p w) = Ok s ->
        Stats.total s = countNonBlank (tl (Js.split Js.LF csv)))
  /\ (forall h r s,
        processUsersAsStreamAndConcurrency (mkState p Stats.new w) h r ->
        fst r = Ok s ->
        (forall n, Fs.appendOk w n = true) ->
        Stats.total s = countNonBlank (tl (Fs.readLines csv)))
  /\ (forall h r s,
        processUsersAsStreamAndConcurrency (mkState p Stats.new w) h r ->
        fst r = Ok s ->
        Stats.total s + Z.of_nat (rejectedCount h)
        = countNonBlank (tl (Fs.readLines csv)))
  /\ (let w0 := Sample.worldOf Sample.twoUsers Sample.firstOnly in
      countNonBlank (tl (Fs.readLines Sample.twoUsers)) = 2
      /\ (forall h r,
            processUsersAsStreamAndConcurrency
              (mkState Sample.parser Stats.new w0) h r ->
            exists s, fst r = Ok s /\ Stats.total s = 1)
      /\ (exists h r,
            processUsersAsStreamAndConcurrency
              (mkState Sample.parser Stats.new w0) h r)).
Proof.
  intros Hin Hne.
  split; [|split; [|split; [|split; [|split]]]].
  - intros line s. cbv zeta.
    destruct (line_effect line s) as (_ & B & N & _). now split.
  - intros s. unfold run. rewrite processUsersAsStream_unfold.
    pose proof (openAndReadHeader_spec p w csv Hin Hne) as E0.
    cbv zeta in E0. rewrite E0.
    destruct (Fs.readLines csv) as [|header rest].
    + match goal with |- fst (@cleanup _ ?e ?s1) = _ -> _ =>
        destruct (@cleanup_spec Stats.t e s1) as (C1 & _) end.
      rewrite C1. discriminate.
    + destruct (lacksColumn header).
      * match goal with |- fst (@cleanup _ ?e ?s1) = _ -> _ =>
          destruct (@cleanup_spec Stats.t e s1) as (C1 & _) end.
        rewrite C1. discriminate.
      * intros Hr.
        match type of Hr with
          fst (match forEach _ _ ?s1 with _ => _ end) = _ =>
            assert (Hex : Fs.files (world s1) (outputFilePath (this s1))
                          <> None)
        end.
        { cbn [this world outputFilePath]. unfold Fs.writeFile,
            Fs.setFiles, Fs.store. cbn [Fs.files].
          rewrite String.eqb_refl. discriminate. }
        destruct (after_loop _ _ s Hex Hr) as (_ & _ & A). exact A.
  - intros s. unfold run. rewrite processUsers_unfold. cbv zeta.
    cbn [this world]. unfold Fs.readFile. rewrite Hin.
    destruct (Js.isEmpty (Js.trim csv)) eqn:Hb.
    + cbn [fst]. intros [= <-].
      destruct (blank_content Js.LF csv Hb) as (_ & Z0). now rewrite Z0.
    + intros Hr.
      destruct (hd_error (Js.split Js.LF csv)) as [header|].
      * rewrite processHeaders_spec in Hr. cbv zeta in Hr.
        destruct (lacksColumn header).
        -- match type of Hr with fst (@cleanup _ ?e ?s1) = _ =>
             destruct (@cleanup_spec Stats.t e s1) as (C1 & _) end.
           rewrite C1 in Hr. discriminate.
        -- match type of Hr with
             fst (match forEach _ _ ?s1 with _ => _ end) = _ =>
               assert (Hex : Fs.files (world s1) (outputFilePath (this s1))
                             <> None)
           end.
           { cbn [this world outputFilePath]. unfold Fs.writeFile,
               Fs.setFiles, Fs.store. cbn [Fs.files].
             rewrite String.eqb_refl. discriminate. }
           destruct (after_loop _ _ s Hex Hr) as (_ & _ & A). exact A.
      * unfold processHeaders, throw in Hr.
        match type of Hr with fst (@cleanup _ ?e ?s1) = _ =>
          destruct (@cleanup_spec Stats.t e s1) as (C1 & _) end.
        rewrite C1 in Hr. discriminate.
  - intros h r s Hrun Hs Hok.
    destruct (concurrent_total p w csv h r s Hin Hne Hrun Hs)
      as (header & rest & done & -> & P & T & _).
    rewrite (okChunks_writable _ (Fs.appendOk w) rest Hok) in P.
    apply Permutation_length in P. rewrite T, P. cbn [tl].
    apply chunks_count.
  - intros h r s Hrun Hs.
    destruct (concurrent_total p w csv h r s Hin Hne Hrun Hs)
      as (header & rest & done & -> & _ & _ & T).
    exact T.
  - cbv zeta. split; [vm_compute; reflexivity|]. split; [|apply a_run_exists].
    intros h r Hrun.
    apply (concurrent_outcome _ _ Sample.twoUsers) in Hrun;
      [|vm_compute; reflexivity|vm_compute; discriminate].
    replace (Fs.readLines Sample.twoUsers)
      with ["name,email,age"; "ann,ann@example.com,31";
            "bob,bob@example.com,32"] in Hrun by (vm_compute; reflexivity).
    replace (lacksColumn "name,email,age") with false in Hrun
      by (vm_compute; reflexivity).
    destruct Hrun as (done & P & F1 & _).
    match type of P with Permutation _ ?k =>
      replace k with [EOL ++ "ANN,ann@example.com,31"] in P
        by (vm_compute; reflexivity)
    end.
    apply Permutation_sym, Permutation_length_1_inv in P. subst done.
    eexists. split; [exact F1|]. vm_compute. reflexivity.
Qed.

(** The theorem on the scenario followed by an empty line and a line of
    spaces, with a writable sink: three lines count, for the three
    methods. *)
Lemma total_misses_the_failed_appends_witness :
  let csv := Sample.scenario ++ Sample.nl ++ Sample.nl ++ "   " in
  let w := Sample.worldOf csv Sample.writable in
  fst (run processUsersAsStream Sample.parser w) = Ok (Stats.mk 1 2)
  /\ fst (run processUsers Sample.parser w) = Ok (Stats.mk 1 2)
  /\ fst (processUsersAsStreamAndConcurrencyEager
            (mkState Sample.parser Stats.new w)) = Ok (Stats.mk 1 2)
  /\ Stats.total (Stats.mk 1 2) = countNonBlank (tl (Fs.readLines csv))
  /\ Stats.total (Stats.mk 1 2) = countNonBlank (tl (Js.split Js.LF csv))
  /\ countNonBlank (tl (Fs.readLines csv)) = 3
  /\ List.length (tl (Fs.readLines csv)) = 5%nat.
Proof.
  cbv zeta.
  set (csv := Sample.scenario ++ Sample.nl ++ Sample.nl ++ "   ").
  set (w := Sample.worldOf csv Sample.writable).
  destruct (total_misses_the_failed_appends Sample.parser w csv eq_refl
              ltac:(discriminate)) as (_ & Hs & Hp & Hc & _).
  assert (E1 : fst (run processUsersAsStream Sample.parser w)
               = Ok (Stats.mk 1 2)) by (vm_compute; reflexivity).
  assert (E2 : fst (run processUsers Sample.parser w) = Ok (Stats.mk 1 2))
    by (vm_compute; reflexivity).
  assert (E3 : fst (processUsersAsStreamAndConcurrencyEager
                      (mkState Sample.parser Stats.new w))
               = Ok (Stats.mk 1 2)) by (vm_compute; reflexivity).
  destruct (eager_is_a_run (mkState Sample.parser Stats.new w)) as [h Hh].
  split; [exact E1|]. split; [exact E2|]. split; [exact E3|].
  split; [exact (Hc h _ _ Hh E3 (fun _ => eq_refl))|].
  split; [exact (Hp _ E2)|].
  split; vm_compute; reflexivity.
Defined.

End Totals.

(** ** The entry points against one another *)

Module Siblings.

Import CsvParser Ledger Outline JsFacts LineFacts RunFacts LoopFacts
  HeapFacts EntryFacts FrameFacts Order.

Lemma scan_without_cr (s : string) :
  Js.includes Js.CR s = false -> Fs.scan false s = Js.split Js.LF s.
Proof.
  induction s as [|c s IH]; simpl; intros H; [reflexivity|].
  apply orb_false_iff in H as [Hc Hs]. rewrite Hc, (IH Hs). reflexivity.
Qed.

Lemma split_single_empty (sep : ascii) (s : string) :
  Js.split sep s = [EmptyString] -> s = EmptyString.
Proof.
  destruct s as [|c s]; simpl; [reflexivity|].
  pose proof (split_not_nil sep s) as Hn.
  destruct (Ascii.eqb c sep).
  - intros [= E]. congruence.
  - destruct (Js.split sep s); [congruence|discriminate].
Qed.

Lemma blank_line_is_skipped_over (s : State) :
  processUsersLine EmptyString s = (Ok tt, s).
Proof. rewrite line_verdict. reflexivity. Qed.

Lemma forEach_one (line : string) (s : State) :
  forEach [line] processUsersLine s = processUsersLine line s.
Proof.
  change (forEach [line] processUsersLine s)
    with (match processUsersLine line s with
          | (Ok _, s') => (Ok tt, s')
          | (Throw e, s') => (Throw e, s')
          end).
  now destruct (processUsersLine line s) as [[[]|e] s'].
Qed.

(** An empty last line, which [readline] does not yield and
    [csv.split(EOL)] does, makes no difference to the loop. *)
Lemma forEach_dropLast (lines : list string) :
  forall s, forEach (Fs.dropLastIfEmpty lines) processUsersLine s
            = forEach lines processUsersLine s.
Proof.
  induction lines as [|x rest IH]; intros s; [reflexivity|].
  destruct rest as [|y rest].
  - cbn [Fs.dropLastIfEmpty]. destruct x as [|c x]; cbn [Js.isEmpty].
    + rewrite forEach_one, blank_line_is_skipped_over. reflexivity.
    + reflexivity.
  - change (Fs.dropLastIfEmpty (x :: y :: rest))
      with (x :: Fs.dropLastIfEmpty (y :: rest)).
    change (forEach (x :: Fs.dropLastIfEmpty (y :: rest)) processUsersLine s)
      with (match processUsersLine x s with
            | (Ok _, s') =>
                forEach (Fs.dropLastIfEmpty (y :: rest)) processUsersLine s'
            | (Throw e, s') => (Throw e, s')
            end).
    change (forEach (x :: y :: rest) processUsersLine s)
      with (match processUsersLine x s with
            | (Ok _, s') => forEach (y :: rest) processUsersLine s'
            | (Throw e, s') => (Throw e, s')
            end).
    destruct (processUsersLine x s) as [[[]|e] s']; [apply IH|reflexivity].
Qed.

(** (X10) On an input without carriage returns that is not blank, and an
    output path that is not the input path, [processUsers] and
    [processUsersAsStream] are the same: same outcome, same stats, same
    files. *)
Theorem processUsers_is_processUsersAsStream (p : t) (w : Fs.World)
    (csv : string) :
  Fs.files w (inputFilePath p) = Some csv ->
  inputFilePath p <> outputFilePath p ->
  Js.includes Js.CR csv = false ->
  Js.isEmpty (Js.trim csv) = false ->
  run processUsers p w = run processUsersAsStream p w.
Proof.
  intros Hin Hne Hcr Hb. unfold run.
  rewrite processUsers_unfold, processUsersAsStream_unfold.
  rewrite (openAndReadHeader_spec p w csv Hin Hne). cbv zeta.
  cbn [this world]. unfold Fs.readFile. rewrite Hin, Hb.
  unfold Fs.readLines. rewrite (scan_without_cr csv Hcr).
  pose proof (split_not_nil Js.LF csv) as Hn.
  destruct (Js.split Js.LF csv) as [|h t] eqn:Hs; [congruence|].
  cbn [hd_error tl]. rewrite processHeaders_spec. cbv zeta.
  cbn [this stats world inputFilePath outputFilePath].
  destruct t as [|y t].
  - cbn [Fs.dropLastIfEmpty]. destruct (Js.isEmpty h) eqn:Eh.
    + apply isEmpty_true in Eh. subst h.
      apply split_single_empty in Hs. subst csv. discriminate.
    + cbv beta iota. destruct (lacksColumn h); reflexivity.
  - change (Fs.dropLastIfEmpty (h :: y :: t))
      with (h :: Fs.dropLastIfEmpty (y :: t)).
    cbv beta iota. destruct (lacksColumn h); [reflexivity|].
    now rewrite forEach_dropLast.
Qed.

(** The theorem on the scenario. *)
Lemma processUsers_is_processUsersAsStream_witness :
  run processUsers Sample.parser
    (Sample.worldOf Sample.scenario Sample.writable)
  = run processUsersAsStream Sample.parser
      (Sample.worldOf Sample.scenario Sample.writable).
Proof.
  apply (processUsers_is_processUsersAsStream _ _ Sample.scenario).
  - reflexivity.
  - discriminate.
  - vm_compute. reflexivity.
  - vm_compute. reflexivity.
Defined.

(** *** The static method *)

Lemma static_iteration (inp out line : string) (l : CsvParserStatic.Locals) :
  CsvParserStatic.isFirstLine l = false ->
  let r := CsvParserStatic.iteration out line l in
  processUsersLine line (toState inp out l)
  = (fst r, toState inp out (snd r))
  /\ CsvParserStatic.isFirstLine (snd r) = false.
Proof.
  intros Hf. destruct l as [f ni ei ai st w]. cbn in Hf. subst f.
  cbv zeta. rewrite line_verdict.
  unfold CsvParserStatic.iteration, verdict, toState, skip.
  cbn [CsvParserStatic.isFirstLine CsvParserStatic.nameIndex
       CsvParserStatic.emailIndex CsvParserStatic.ageIndex
       CsvParserStatic.stats CsvParserStatic.world
       this stats world nameIndex emailIndex ageIndex outputFilePath].
  destruct (Js.isEmpty (Js.trim line)); [now split|].
  change (CsvParserStatic.processUser ?n ?e ?a)
    with (processUser (mkUser n e a)).
  destruct (Js.get (Js.split "," line) ni) as [n|]; [|now split].
  destruct (Js.get (Js.split "," line) ei) as [e|];
    [|cbn [Js.truthy negb orb]; rewrite ?orb_true_r; now split].
  destruct (Js.get (Js.split "," line) ai) as [a|];
    [|cbn [Js.truthy negb orb]; rewrite ?orb_true_r; now split].
  cbn [Js.truthy Js.str].
  replace (negb (negb (Js.isEmpty n)) || negb (negb (Js.isEmpty e))
           || negb (negb (Js.isEmpty a)))%bool
    with (Js.isEmpty n || Js.isEmpty e || Js.isEmpty a)%bool
    by now rewrite !negb_involutive.
  destruct (Js.isEmpty n || Js.isEmpty e || Js.isEmpty a)%bool;
    [now split|].
  destruct (processUser _) as [o|]; cbn [Js.truthy Js.str]; [|now split].
  destruct (Js.isEmpty o); cbn [negb]; [now split|].
  unfold processUsersLineResume, incProcessed, throw.
  destruct (Fs.appendFile _ _ _) as [[[]|e'] w']; now split.
Qed.

Lemma static_loop (inp out : string) (lines : list string) :
  forall l, CsvParserStatic.isFirstLine l = false ->
    let r := CsvParserStatic.loop out lines l in
    forEach lines processUsersLine (toState inp out l)
    = (fst r, toState inp out (snd r)).
Proof.
  induction lines as [|line rest IH]; intros l Hf; cbv zeta; [reflexivity|].
  change (forEach (line :: rest) processUsersLine (toState inp out l))
    with (match processUsersLine line (toState inp out l) with
          | (Ok _, s') => forEach rest processUsersLine s'
          | (Throw e, s') => (Throw e, s')
          end).
  destruct (static_iteration inp out line l Hf) as (E & Hf').
  cbv zeta in E. rewrite E. cbn [CsvParserStatic.loop].
  destruct (CsvParserStatic.iteration out line l) as [[[]|e] l'];
    cbn [fst snd] in *; [|reflexivity].
  apply (IH l' Hf').
Qed.

(** The statements before the loop, whatever the two paths are. *)
Lemma openAndReadHeader_any (p : t) (w : Fs.World) :
  let w1 := Fs.writeFile (outputFilePath p) headerLine w in
  (newStats ;; openAndReadHeader) (mkState p Stats.new w) =
  match Fs.files w1 (inputFilePath p) with
  | None => (Throw (SystemError "ENOENT"), mkState p Stats.new w1)
  | Some csv =>
      match Fs.readLines csv with
      | [] => (Throw TypeError, mkState p Stats.new w1)
      | h :: rest =>
          let p' := mk (inputFilePath p) (outputFilePath p)
                       (Js.indexOf (Js.split "," h) "name")
                       (Js.indexOf (Js.split "," h) "email")
                       (Js.indexOf (Js.split "," h) "age") in
          (if lacksColumn h then Throw HeaderError else Ok rest,
           mkState p' Stats.new w1)
      end
  end.
Proof.
  cbv zeta.
  unfold openAndReadHeader, getLines, newStats, setStats, bind, getThis,
    writeFile, readFile, liftFs, ret.
  cbn [this stats world]. unfold Fs.readFile.
  destruct (Fs.files _ (inputFilePath p)) as [csv|]; [|reflexivity].
  destruct (Fs.readLines csv) as [|h rest]; [reflexivity|].
  cbn [hd_error tl]. rewrite processHeaders_spec. cbv zeta.
  cbn [this stats world inputFilePath outputFilePath].
  destruct (lacksColumn h); reflexivity.
Qed.

Lemma static_tail (inp out : string) (r : Result unit)
    (l : CsvParserStatic.Locals) :
  let c := match r with
           | Ok _ => finish (toState inp out l)
           | Throw e => cleanup e (toState inp out l)
           end in
  let d := match r with
           | Throw e =>
               (Throw e,
                CsvParserStatic.setWorld
                  (CsvParserStatic.safeDelete out (CsvParserStatic.world l)) l)
           | Ok _ =>
               if Stats.processed (CsvParserStatic.stats l) =? 0
               then (Ok (CsvParserStatic.stats l),
                     CsvParserStatic.setWorld
                       (CsvParserStatic.safeDelete out
                          (CsvParserStatic.world l)) l)
               else (Ok (CsvParserStatic.stats l), l)
           end in
  fst d = fst c
  /\ CsvParserStatic.stats (snd d) = stats (snd c)
  /\ CsvParserStatic.world (snd d) = world (snd c).
Proof.
  cbv zeta. destruct r as [[]|e].
  - unfold finish, bind, getThis, getStats, ret.
    cbn [toState this stats world outputFilePath].
    destruct (Stats.processed (CsvParserStatic.stats l) =? 0);
      [|now repeat split].
    rewrite safeDelete_cases.
    unfold toState, CsvParserStatic.safeDelete, CsvParserStatic.setWorld,
      Fs.unlink.
    cbn [this stats world outputFilePath fst snd].
    destruct (Fs.files (CsvParserStatic.world l) out); now repeat split.
  - unfold cleanup, bind, getThis, throw. rewrite safeDelete_cases.
    unfold toState, CsvParserStatic.safeDelete, CsvParserStatic.setWorld,
      Fs.unlink.
    cbn [this stats world outputFilePath fst snd].
    destruct (Fs.files (CsvParserStatic.world l) out); now repeat split.
Qed.

(** The static method against the stream method, by what the file at the
    input path holds once the header has been written. *)
Lemma static_agrees `{PathApi}
    (inputFilePath : string) (outputFilePath : option string)
    (w : Fs.World) :
  let p := new inputFilePath outputFilePath in
  (forall csv,
     Fs.files (Fs.writeFile (CsvParser.outputFilePath p) headerLine w)
       inputFilePath = Some csv ->
     Fs.readLines csv <> []) ->
  let r := CsvParserStatic.processUsers inputFilePath outputFilePath w in
  let r' := run processUsersAsStream p w in
  fst r = fst r'
  /\ CsvParserStatic.stats (snd r) = stats (snd r')
  /\ CsvParserStatic.world (snd r) = world (snd r').
Proof.
  cbv zeta. intros Hne.
  assert (Eout : (if negb (Js.truthy outputFilePath)
                  then join (dirname inputFilePath) "output.csv"
                  else Js.str outputFilePath)
                 = CsvParser.outputFilePath (new inputFilePath outputFilePath)).
  { unfold new. cbn [CsvParser.outputFilePath].
    now destruct (Js.truthy outputFilePath). }
  unfold CsvParserStatic.processUsers. rewrite Eout.
  set (p := new inputFilePath outputFilePath) in *.
  assert (Ein : CsvParser.inputFilePath p = inputFilePath) by reflexivity.
  set (out := CsvParser.outputFilePath p) in *.
  change (Js.join "," CsvParserStatic.USER_HEADERS) with headerLine.
  cbn [CsvParserStatic.world].
  set (w1 := Fs.writeFile out headerLine w) in *.
  set (l0 := CsvParserStatic.mkLocals true (-1) (-1) (-1) (Stats.mk 0 0) w1).
  unfold run. rewrite processUsersAsStream_unfold.
  rewrite (openAndReadHeader_any p w). cbv zeta. fold out. fold w1.
  rewrite Ein. unfold Fs.readFile.
  destruct (Fs.files w1 inputFilePath) as [csv|] eqn:Hin.
  - specialize (Hne csv eq_refl).
    destruct (Fs.readLines csv) as [|h rest]; [congruence|].
    cbn [CsvParserStatic.loop]. unfold CsvParserStatic.iteration.
    cbn [CsvParserStatic.isFirstLine l0 CsvParserStatic.nameIndex
         CsvParserStatic.emailIndex CsvParserStatic.ageIndex
         CsvParserStatic.stats CsvParserStatic.world].
    change ((Js.indexOf (Js.split "," h) "name" =? -1)
            || (Js.indexOf (Js.split "," h) "email" =? -1)
            || (Js.indexOf (Js.split "," h) "age" =? -1))%bool
      with (lacksColumn h).
    set (l1 := CsvParserStatic.mkLocals false
                 (Js.indexOf (Js.split "," h) "name")
                 (Js.indexOf (Js.split "," h) "email")
                 (Js.indexOf (Js.split "," h) "age") (Stats.mk 0 0) w1).
    change (mkState _ Stats.new w1) with (toState inputFilePath out l1).
    destruct (lacksColumn h).
    + apply (static_tail inputFilePath out (Throw HeaderError) l1).
    + pose proof (static_loop inputFilePath out rest l1 eq_refl) as E.
      cbv zeta in E. rewrite E.
      destruct (CsvParserStatic.loop out rest l1) as [r l2].
      cbn [fst snd]. apply (static_tail inputFilePath out r l2).
  - change (mkState p Stats.new w1) with (toState inputFilePath out l0).
    apply (static_tail inputFilePath out (Throw (SystemError "ENOENT")) l0).
Qed.

(** (X11) The static [processUsers] and [processUsersAsStream] of the
    class, on an input path that is not the output path, agree whenever the
    input does not exist or holds a line: same outcome, same stats, same
    world. *)
Theorem static_processUsers_is_processUsersAsStream `{PathApi}
    (inputFilePath : string) (outputFilePath : option string)
    (w : Fs.World) :
  let p := new inputFilePath outputFilePath in
  inputFilePath <> CsvParser.outputFilePath p ->
  (forall csv, Fs.files w inputFilePath = Some csv ->
               Fs.readLines csv <> []) ->
  let r := CsvParserStatic.processUsers inputFilePath outputFilePath w in
  let r' := run processUsersAsStream p w in
  fst r = fst r'
  /\ CsvParserStatic.stats (snd r) = stats (snd r')
  /\ CsvParserStatic.world (snd r) = world (snd r').
Proof.
  cbv zeta. intros Hne Hl.
  apply (static_agrees inputFilePath outputFilePath w).
  intros csv Hc. apply Hl. rewrite <- Hc.
  unfold Fs.writeFile, Fs.setFiles. cbn [Fs.files]. unfold Fs.store.
  apply String.eqb_neq in Hne. now rewrite Hne.
Qed.

(** The theorem on the scenario. *)
Lemma static_processUsers_is_processUsersAsStream_witness :
  let w := Sample.worldOf Sample.scenario Sample.writable in
  let r := @CsvParserStatic.processUsers Sample.path "data/in.csv"
             (Some "data/out.csv") w in
  fst r = fst (run processUsersAsStream Sample.parser w)
  /\ CsvParserStatic.world (snd r)
     = world (snd (run processUsersAsStream Sample.parser w)).
Proof.
  intros w r.
  destruct (@static_processUsers_is_processUsersAsStream Sample.path
              "data/in.csv" (Some "data/out.csv") w) as (A & _ & C).
  - discriminate.
  - intros csv Hc. vm_compute in Hc. inversion Hc. vm_compute. discriminate.
  - split; [exact A|exact C].
Defined.

(** (X12) On an input that holds no line the static [processUsers]
    returns [{processed: 0, skipped: 0}] and leaves no output file: its
    loop body never runs, so the header check never happens. *)
Theorem static_processUsers_on_an_input_without_lines `{PathApi}
    (inputFilePath : string) (outputFilePath : option string)
    (w : Fs.World) (csv : string) :
  let out := CsvParser.outputFilePath (new inputFilePath outputFilePath) in
  inputFilePath <> out ->
  Fs.files w inputFilePath = Some csv ->
  Fs.readLines csv = [] ->
  let r := CsvParserStatic.processUsers inputFilePath outputFilePath w in
  fst r = Ok (Stats.mk 0 0)
  /\ Fs.files (CsvParserStatic.world (snd r)) out = None
  /\ (forall q, q <> out ->
      Fs.files (CsvParserStatic.world (snd r)) q = Fs.files w q).
Proof.
  cbv zeta. intros Hne Hin Hl.
  assert (Eout : (if negb (Js.truthy outputFilePath)
                  then join (dirname inputFilePath) "output.csv"
                  else Js.str outputFilePath)
                 = CsvParser.outputFilePath (new inputFilePath outputFilePath)).
  { unfold new. cbn [CsvParser.outputFilePath].
    now destruct (Js.truthy outputFilePath). }
  unfold CsvParserStatic.processUsers. rewrite Eout.
  set (out := CsvParser.outputFilePath (new inputFilePath outputFilePath))
    in *.
  change (Js.join "," CsvParserStatic.USER_HEADERS) with headerLine.
  cbn [CsvParserStatic.world].
  set (w1 := Fs.writeFile out headerLine w) in *.
  assert (Hin1 : Fs.files w1 inputFilePath = Some csv).
  { rewrite <- Hin. unfold w1, Fs.writeFile, Fs.setFiles. cbn [Fs.files].
    unfold Fs.store. apply String.eqb_neq in Hne. now rewrite Hne. }
  unfold Fs.readFile. rewrite Hin1, Hl.
  cbn [CsvParserStatic.loop CsvParserStatic.stats Stats.processed].
  cbn [Z.eqb fst snd].
  unfold CsvParserStatic.setWorld, CsvParserStatic.safeDelete, Fs.unlink.
  cbn [CsvParserStatic.world].
  assert (Ew : Fs.files w1 out = Some headerLine).
  { unfold w1, Fs.writeFile, Fs.setFiles. cbn [Fs.files]. unfold Fs.store.
    now rewrite String.eqb_refl. }
  rewrite Ew. cbn [Fs.files Fs.setFiles].
  split; [reflexivity|]. split.
  - unfold Fs.store. now rewrite String.eqb_refl.
  - intros q Hq. unfold w1, Fs.writeFile, Fs.setFiles. cbn [Fs.files].
    unfold Fs.store. apply String.eqb_neq in Hq. now rewrite Hq.
Qed.

(** The theorem on an empty input file. *)
Lemma static_processUsers_on_an_input_without_lines_witness :
  let r := @CsvParserStatic.processUsers Sample.path "data/in.csv" None
             (Sample.worldOf EmptyString Sample.writable) in
  fst r = Ok (Stats.mk 0 0)
  /\ Fs.files (CsvParserStatic.world (snd r)) "data/output.csv" = None.
Proof.
  intros r.
  destruct (@static_processUsers_on_an_input_without_lines Sample.path
              "data/in.csv" None (Sample.worldOf EmptyString Sample.writable)
              EmptyString) as (A & B & _).
  - discriminate.
  - vm_compute. reflexivity.
  - vm_compute. reflexivity.
  - split; [exact A|exact B].
Defined.

End Siblings.

(** ** Failed appends in the sequential methods *)

Module Failures.

Import CsvParser Ledger Outline JsFacts LineFacts RunFacts LoopFacts
  HeapFacts EntryFacts FrameFacts Order.

Lemma forEach_cons (line : string) (rest : list string) (s : State) :
  forEach (line :: rest) processUsersLine s
  = match processUsersLine line s with
    | (Ok _, s') => forEach rest processUsersLine s'
    | (Throw e, s') => (Throw e, s')
    end.
Proof. reflexivity. Qed.

Lemma forEach_app (xs ys : list string) :
  forall s, forEach (xs ++ ys)%list processUsersLine s
            = match forEach xs processUsersLine s with
              | (Ok _, s') => forEach ys processUsersLine s'
              | (Throw e, s') => (Throw e, s')
              end.
Proof.
  induction xs as [|x xs IH]; intros s; [reflexivity|].
  change ((x :: xs) ++ ys)%list with (x :: (xs ++ ys))%list.
  rewrite !forEach_cons.
  destruct (processUsersLine x s) as [[[]|e] s']; [apply IH|reflexivity].
Qed.

(** (X14) Blank lines are ignored: the loop of the sequential methods
    over some lines ends as the loop over those lines without the blank
    ones, with the same outcome, counters and files. *)
Theorem blank_lines_are_ignored (lines : list string) :
  forall s, forEach lines processUsersLine s
            = forEach (filter (fun l => negb (isBlank l)) lines)
                processUsersLine s.
Proof.
  induction lines as [|l rest IH]; intros s; [reflexivity|].
  cbn [filter]. destruct (isBlank l) eqn:B; cbn [negb].
  - rewrite forEach_cons. destruct (line_effect l s) as (_ & E & _).
    rewrite (E B). apply IH.
  - rewrite !forEach_cons.
    destruct (processUsersLine l s) as [[[]|e] s']; [apply IH|reflexivity].
Qed.

(** The loop while the appends succeed: the calls are numbered from the
    count of the world, one per accepted line. *)
Lemma forEach_while_writable (lines : list string) :
  forall (s : State) (old : string),
    (forall k, (k < List.length (chunks (this s) lines))%nat ->
       Fs.appendOk (world s) (Fs.appendCalls (world s) + k) = true) ->
    Fs.files (world s) (outputFilePath (this s)) = Some old ->
    let r := forEach lines processUsersLine s in
    fst r = Ok tt
    /\ this (snd r) = this s
    /\ stats (snd r)
       = Stats.mk (Stats.processed (stats s)
                   + Z.of_nat (List.length (chunks (this s) lines)))
                  (Stats.skipped (stats s) + countSkipped (this s) lines)
    /\ Fs.files (world (snd r)) (outputFilePath (this s))
       = Some (old ++ String.concat EmptyString (chunks (this s) lines))
    /\ Fs.appendCalls (world (snd r))
       = (Fs.appendCalls (world s) + List.length (chunks (this s) lines))%nat
    /\ Fs.appendOk (world (snd r)) = Fs.appendOk (world s).
Proof.
  induction lines as [|line rest IH]; intros s old Hok Hf; cbv zeta.
  - cbn. rewrite append_empty_r, !Z.add_0_r, Nat.add_0_r.
    destruct s as [p [pr sk] w]. now repeat split.
  - rewrite forEach_cons. rewrite chunks_cons in *. cbn [countSkipped].
    rewrite line_verdict.
    destruct (verdict (this s) line) as [| |l] eqn:V.
    + apply (IH s old Hok Hf).
    + destruct (IH (skip s) old Hok Hf) as (I1 & I2 & I3 & I4 & I5 & I6).
      cbn [skip this stats world Stats.processed Stats.skipped] in *.
      split; [exact I1|]. split; [exact I2|].
      split; [rewrite I3; f_equal; lia|]. now repeat split.
    + pose proof (Hok O) as H0. cbn [List.length] in H0.
      rewrite Nat.add_0_r in H0. specialize (H0 (Nat.lt_0_succ _)).
      unfold Fs.appendFile, Fs.appendIssue, Fs.appendComplete.
      cbn [Fs.appendOk Fs.appendCalls Fs.files].
      rewrite H0, Hf. cbn [processUsersLineResume incProcessed].
      match goal with |- context [forEach rest processUsersLine ?s1] =>
        destruct (IH s1 (old ++ (EOL ++ l)))
          as (I1 & I2 & I3 & I4 & I5 & I6)
      end.
      * intros k Hk. cbn [this stats world Fs.setFiles Fs.appendOk
                          Fs.appendCalls] in *.
        replace (S (Fs.appendCalls (world s)) + k)%nat
          with (Fs.appendCalls (world s) + S k)%nat by lia.
        apply Hok. cbn [List.length]. lia.
      * cbn. unfold Fs.store. now rewrite String.eqb_refl.
      * cbn [this stats world Stats.processed Stats.skipped Fs.setFiles
             Fs.appendOk Fs.appendCalls] in *.
        split; [exact I1|]. split; [exact I2|].
        split; [rewrite I3; cbn [List.length]; rewrite Nat2Z.inj_succ;
                f_equal; lia|].
        split; [rewrite I4, concat_cons, append_assoc; reflexivity|].
        split; [rewrite I5; cbn [List.length]; lia|exact I6].
Qed.

(** (X13) [processUsersAsStream] stops at the first append that fails: the
    run throws the error of that append, the counters are those of the
    lines before it, no append is issued for the lines after it, and the
    output file is deleted. *)
Theorem the_stream_stops_at_the_first_failed_append (p : t) (w : Fs.World)
    (csv header : string) (before : list string) (line : string)
    (after : list string) (o : string) :
  Fs.files w (inputFilePath p) = Some csv ->
  inputFilePath p <> outputFilePath p ->
  Fs.readLines csv = header :: (before ++ line :: after)%list ->
  lacksColumn header = false ->
  let p' := mk (inputFilePath p) (outputFilePath p)
               (Js.indexOf (Js.split "," header) "name")
               (Js.indexOf (Js.split "," header) "email")
               (Js.indexOf (Js.split "," header) "age") in
  let n := List.length (chunks p' before) in
  verdict p' line = Accepted o ->
  (forall k, (k < n)%nat -> Fs.appendOk w (Fs.appendCalls w + k) = true) ->
  Fs.appendOk w (Fs.appendCalls w + n) = false ->
  let r := run processUsersAsStream p w in
  fst r = Throw (SystemError "EIO")
  /\ stats (snd r) = Stats.mk (Z.of_nat n) (countSkipped p' before)
  /\ Fs.appendCalls (world (snd r)) = (Fs.appendCalls w + n + 1)%nat
  /\ Fs.files (world (snd r)) (outputFilePath p) = None.
Proof.
  intros Hin Hne Hl Hlack p' n V Hok Hbad. cbv zeta. unfold run.
  rewrite processUsersAsStream_unfold.
  rewrite (openAndReadHeader_spec p w csv Hin Hne). cbv zeta.
  rewrite Hl, Hlack. fold p'.
  set (w1 := Fs.writeFile (outputFilePath p) headerLine w).
  set (s1 := mkState p' Stats.new w1).
  rewrite forEach_app.
  destruct (forEach_while_writable before s1 headerLine)
    as (I1 & I2 & I3 & I4 & I5 & I6).
  { intros k Hk. apply (Hok k Hk). }
  { cbn. unfold Fs.store. now rewrite String.eqb_refl. }
  cbv zeta in *.
  destruct (forEach before processUsersLine s1) as [r2 s2].
  cbn [fst snd] in *. subst r2.
  cbn [s1 this stats world Stats.processed Stats.skipped Stats.new] in *.
  rewrite forEach_cons, line_verdict, I2, V.
  unfold Fs.appendFile, Fs.appendIssue, Fs.appendComplete.
  cbn [Fs.appendOk Fs.appendCalls Fs.files]. rewrite I5, I6.
  change (Fs.appendOk w1) with (Fs.appendOk w).
  change (Fs.appendCalls w1) with (Fs.appendCalls w). fold n. rewrite Hbad.
  cbn [processUsersLineResume throw].
  match goal with |- context [@cleanup _ _ ?s] =>
    destruct (@cleanup_spec Stats.t (SystemError "EIO") s)
      as (C1 & C2 & C3 & C4);
    pose proof (@cleanup_extends Stats.t (SystemError "EIO") s) as X;
    pose proof (@cleanup_calls Stats.t (SystemError "EIO") s) as C5
  end.
  cbn [this stats world outputFilePath p'] in *.
  split; [exact C1|]. split; [rewrite C3, I3; f_equal; lia|].
  split; [|exact C4]. rewrite C5. cbn [Fs.appendCalls]. lia.
Qed.

(** The theorem on two users and a sink that takes one append only. *)
Lemma the_stream_stops_at_the_first_failed_append_witness :
  let r := run processUsersAsStream Sample.parser
             (Sample.worldOf Sample.twoUsers Sample.firstOnly) in
  fst r = Throw (SystemError "EIO")
  /\ stats (snd r) = Stats.mk 1 0
  /\ Fs.appendCalls (world (snd r)) = 2%nat.
Proof.
  intros r.
  destruct (the_stream_stops_at_the_first_failed_append Sample.parser
              (Sample.worldOf Sample.twoUsers Sample.firstOnly)
              Sample.twoUsers "name,email,age" ["ann,ann@example.com,31"]
              "bob,bob@example.com,32" [] "BOB,bob@example.com,32")
    as (A & B & C & _).
  - vm_compute. reflexivity.
  - discriminate.
  - vm_compute. reflexivity.
  - vm_compute. reflexivity.
  - vm_compute. reflexivity.
  - intros k Hk. replace k with O.
    + vm_compute. reflexivity.
    + vm_compute in Hk. lia.
  - vm_compute. reflexivity.
  - split; [exact A|]. split; [|exact C].
    unfold r. rewrite B. vm_compute. reflexivity.
Defined.

End Failures.

(** ** The output as an input *)

Module RoundTrip.

Import CsvParser Ledger Outline JsFacts LineFacts.

(** *** Characters *)

Ltac by_cases c :=
  destruct c as [[] [] [] [] [] [] [] []]; vm_compute;
  try reflexivity; try (intros H; first [reflexivity|discriminate H]).

Lemma upper_idem (c : ascii) : Js.upper (Js.upper c) = Js.upper c.
Proof. by_cases c. Qed.

Lemma upper_white (c : ascii) :
  Js.isWhiteSpace (Js.upper c) = Js.isWhiteSpace c.
Proof. by_cases c. Qed.

Lemma upper_comma (c : ascii) :
  Ascii.eqb (Js.upper c) "," = Ascii.eqb c ",".
Proof. by_cases c. Qed.

Lemma digit_comma (c : ascii) :
  Js.isDigit c = true -> Ascii.eqb c "," = false.
Proof. by_cases c. Qed.

Lemma digit_white (c : ascii) :
  Js.isDigit c = true -> Js.isWhiteSpace c = false.
Proof. by_cases c. Qed.

Lemma digit_sign (c : ascii) :
  Js.isDigit c = true -> Ascii.eqb c "-" = false /\ Ascii.eqb c "+" = false.
Proof.
  destruct c as [[] [] [] [] [] [] [] []]; vm_compute; intros H;
    first [now split|discriminate H].
Qed.

(** *** [toUpperCase] *)

Lemma toUpperCase_idem (s : string) :
  Js.toUpperCase (Js.toUpperCase s) = Js.toUpperCase s.
Proof.
  induction s as [|c s IH]; cbn [Js.toUpperCase]; [reflexivity|].
  now rewrite upper_idem, IH.
Qed.

Lemma isEmpty_upper (s : string) :
  Js.isEmpty (Js.toUpperCase s) = Js.isEmpty s.
Proof. now destruct s. Qed.

Lemma trimStart_upper (s : string) :
  Js.trimStart (Js.toUpperCase s) = Js.toUpperCase (Js.trimStart s).
Proof.
  induction s as [|c s IH]; cbn [Js.toUpperCase Js.trimStart]; [reflexivity|].
  rewrite upper_white. destruct (Js.isWhiteSpace c); [exact IH|reflexivity].
Qed.

Lemma trimEnd_upper (s : string) :
  Js.trimEnd (Js.toUpperCase s) = Js.toUpperCase (Js.trimEnd s).
Proof.
  induction s as [|c s IH]; cbn [Js.toUpperCase Js.trimEnd]; [reflexivity|].
  rewrite upper_white, IH, isEmpty_upper.
  destruct (Js.isWhiteSpace c && Js.isEmpty (Js.trimEnd s))%bool;
    reflexivity.
Qed.

Lemma trim_upper (s : string) :
  Js.trim (Js.toUpperCase s) = Js.toUpperCase (Js.trim s).
Proof. unfold Js.trim. now rewrite trimStart_upper, trimEnd_upper. Qed.

Lemma includes_comma_upper (s : string) :
  Js.includes "," (Js.toUpperCase s) = Js.includes "," s.
Proof.
  induction s as [|c s IH]; cbn [Js.toUpperCase Js.includes]; [reflexivity|].
  now rewrite upper_comma, IH.
Qed.

(** *** [trim] *)

Lemma trimEnd_idem (s : string) : Js.trimEnd (Js.trimEnd s) = Js.trimEnd s.
Proof.
  induction s as [|c s IH]; cbn [Js.trimEnd]; [reflexivity|].
  destruct (Js.isWhiteSpace c && Js.isEmpty (Js.trimEnd s))%bool eqn:E;
    [reflexivity|].
  cbn [Js.trimEnd]. now rewrite IH, E.
Qed.

Lemma trim_idem (s : string) : Js.trim (Js.trim s) = Js.trim s.
Proof.
  unfold Js.trim at 1. rewrite trimStart_trim. unfold Js.trim.
  apply trimEnd_idem.
Qed.

Lemma includes_trimStart (c : ascii) (s : string) :
  Js.includes c (Js.trimStart s) = true -> Js.includes c s = true.
Proof.
  induction s as [|a s IH]; cbn [Js.trimStart]; [trivial|].
  destruct (Js.isWhiteSpace a); [|trivial].
  intros H. cbn [Js.includes]. rewrite (IH H). apply orb_true_r.
Qed.

Lemma includes_trimEnd (c : ascii) (s : string) :
  Js.includes c (Js.trimEnd s) = true -> Js.includes c s = true.
Proof.
  induction s as [|a s IH]; cbn [Js.trimEnd]; [trivial|].
  destruct (Js.isWhiteSpace a && Js.isEmpty (Js.trimEnd s))%bool;
    [discriminate|].
  cbn [Js.includes]. intros H. apply orb_true_iff in H as [H|H].
  - now rewrite H.
  - rewrite (IH H). apply orb_true_r.
Qed.

Lemma trim_free (c : ascii) (s : string) :
  Js.includes c s = false -> Js.includes c (Js.trim s) = false.
Proof.
  intros H. destruct (Js.includes c (Js.trim s)) eqn:E; [|reflexivity].
  apply includes_trimEnd, includes_trimStart in E. congruence.
Qed.

(** *** [split] and [join] *)

Lemma includes_app (c : ascii) (a b : string) :
  Js.includes c (a ++ b) = (Js.includes c a || Js.includes c b)%bool.
Proof.
  induction a as [|x a IH]; cbn [append Js.includes]; [reflexivity|].
  now rewrite IH, orb_assoc.
Qed.

Lemma split_fields_free (sep : ascii) (s f : string) :
  In f (Js.split sep s) -> Js.includes sep f = false.
Proof.
  revert f. induction s as [|a s IH]; cbn [Js.split]; intros f Hin.
  - destruct Hin as [<-|[]]. reflexivity.
  - destruct (Ascii.eqb a sep) eqn:E.
    + destruct Hin as [<-|Hin]; [reflexivity|now apply IH].
    + pose proof (split_not_nil sep s) as Hn.
      destruct (Js.split sep s) as [|f0 fs]; [congruence|].
      destruct Hin as [<-|Hin].
      * cbn [Js.includes]. rewrite E. apply IH. now left.
      * apply IH. now right.
Qed.

Lemma split_free (sep : ascii) (a : string) :
  Js.includes sep a = false -> Js.split sep a = [a].
Proof.
  induction a as [|x a IH]; cbn [Js.includes Js.split]; [reflexivity|].
  intros H. apply orb_false_iff in H as [Hx Ha]. now rewrite Hx, (IH Ha).
Qed.

Lemma split_app_sep (sep : ascii) (a b : string) :
  Js.includes sep a = false ->
  Js.split sep (a ++ String sep b) = a :: Js.split sep b.
Proof.
  induction a as [|x a IH]; cbn [Js.includes append Js.split].
  - now rewrite Ascii.eqb_refl.
  - intros H. apply orb_false_iff in H as [Hx Ha]. now rewrite Hx, (IH Ha).
Qed.

Lemma get_in (xs : list string) (i : Z) (x : string) :
  Js.get xs i = Some x -> In x xs.
Proof.
  unfold Js.get. destruct (i <? 0); [discriminate|]. apply nth_error_In.
Qed.

(** *** [String(v)] and [parseInt] *)

Lemma digits_of_uint_acc (d : Decimal.uint) :
  forall acc : positive,
    Js.digits (Z.pos acc) true (NilEmpty.string_of_uint d)
    = Some (Z.pos (Pos.of_uint_acc d acc)).
Proof.
  induction d; intros acc;
    cbn [NilEmpty.string_of_uint Js.digits Pos.of_uint_acc];
    [reflexivity|..];
    match goal with
    | |- context [Js.digit ?c] =>
        let v := eval vm_compute in (Js.digit c) in
        change (Js.digit c) with v
    end; cbv beta iota;
    match goal with
    | |- Js.digits ?z true _ = Some (Z.pos (Pos.of_uint_acc _ ?q)) =>
        replace z with (Z.pos q) by lia
    end; apply IHd.
Qed.

Lemma digits_of_uint (d : Decimal.uint) :
  Js.digits 0 true (NilEmpty.string_of_uint d)
  = Some (Z.of_N (Pos.of_uint d)).
Proof.
  induction d;
    cbn [NilEmpty.string_of_uint Js.digits Pos.of_uint];
    [reflexivity|..];
    match goal with
    | |- context [Js.digit ?c] =>
        let v := eval vm_compute in (Js.digit c) in
        change (Js.digit c) with v
    end; cbv beta iota;
    [exact IHd|..];
    match goal with
    | |- Js.digits ?z true _ = Some (Z.of_N (N.pos (Pos.of_uint_acc _ ?q))) =>
        change z with (Z.pos q)
    end; apply digits_of_uint_acc.
Qed.

Lemma allDigits_of_uint (d : Decimal.uint) :
  Js.allDigits (NilEmpty.string_of_uint d) = true.
Proof.
  induction d; cbn [NilEmpty.string_of_uint Js.allDigits];
    [reflexivity|..]; rewrite IHd; vm_compute; reflexivity.
Qed.

(** The decimal numeral of a natural number: digits only, at least one,
    and [digits] reads the number back. *)
Lemma toString_spec (v : Z) :
  0 <= v ->
  Js.allDigits (Js.toString v) = true
  /\ Js.isEmpty (Js.toString v) = false
  /\ Js.digits 0 false (Js.toString v) = Some v.
Proof.
  intros Hv. unfold Js.toString. destruct v as [|p|p]; [| |lia].
  - vm_compute. now repeat split.
  - cbn [Z.to_int NilZero.string_of_int]. unfold NilZero.string_of_uint.
    pose proof (DecimalPos.Unsigned.to_uint_nonnil p) as Hn.
    pose proof (DecimalPos.Unsigned.of_to p) as Hp.
    pose proof (digits_of_uint (Pos.to_uint p)) as Hd.
    pose proof (allDigits_of_uint (Pos.to_uint p)) as Ha.
    rewrite Hp in Hd. cbn [Z.of_N] in Hd.
    destruct (Pos.to_uint p) eqn:E; [congruence|..];
      (split; [exact Ha|]); (split; [reflexivity|]);
      cbn [NilEmpty.string_of_uint Js.digits] in *;
      destruct (Js.digit _); [exact Hd|discriminate Hd|exact Hd|
        discriminate Hd|exact Hd|discriminate Hd|exact Hd|discriminate Hd|
        exact Hd|discriminate Hd|exact Hd|discriminate Hd|exact Hd|
        discriminate Hd|exact Hd|discriminate Hd|exact Hd|discriminate Hd|
        exact Hd|discriminate Hd].
Qed.

Lemma allDigits_free (s : string) :
  Js.allDigits s = true -> Js.includes "," s = false.
Proof.
  induction s as [|c s IH]; cbn [Js.allDigits Js.includes]; [trivial|].
  intros H. apply andb_true_iff in H as [Hc Hs].
  now rewrite (digit_comma c Hc), (IH Hs).
Qed.

Lemma allDigits_trimEnd (s : string) :
  Js.allDigits s = true -> Js.trimEnd s = s.
Proof.
  induction s as [|c s IH]; cbn [Js.allDigits Js.trimEnd]; [trivial|].
  intros H. apply andb_true_iff in H as [Hc Hs].
  now rewrite (digit_white c Hc), (IH Hs).
Qed.

Lemma allDigits_trim (s : string) :
  Js.allDigits s = true -> Js.trim s = s.
Proof.
  intros H. unfold Js.trim.
  assert (E : Js.trimStart s = s).
  { destruct s as [|c s]; [reflexivity|]. cbn [Js.allDigits] in H.
    apply andb_true_iff in H as [Hc _]. cbn [Js.trimStart].
    now rewrite (digit_white c Hc). }
  rewrite E. now apply allDigits_trimEnd.
Qed.

Lemma parseInt_toString (v : Z) :
  0 <= v -> Js.parseInt (Js.toString v) = Js.Num v.
Proof.
  intros Hv. destruct (toString_spec v Hv) as (Ha & Hn & Hd).
  unfold Js.parseInt.
  destruct (Js.toString v) as [|c s]; [discriminate|].
  cbn [Js.allDigits] in Ha. apply andb_true_iff in Ha as [Hc _].
  cbn [Js.trimStart]. rewrite (digit_white c Hc).
  destruct (digit_sign c Hc) as [M P]. rewrite M, P, Hd. reflexivity.
Qed.

(** *** Accepted lines *)

(** What a verdict [Accepted] says of a line. *)
Lemma accepted_inv (p : t) (line o : string) :
  verdict p line = Accepted o ->
  exists n e a v,
    Js.get (Js.split "," line) (nameIndex p) = Some n
    /\ Js.get (Js.split "," line) (emailIndex p) = Some e
    /\ Js.get (Js.split "," line) (ageIndex p) = Some a
    /\ Js.includes "@" (Js.trim e) = true
    /\ Js.parseInt (Js.trim a) = Js.Num v /\ 0 <= v
    /\ o = Js.join "," [Js.toUpperCase (Js.trim n); Js.trim e; Js.toString v].
Proof.
  unfold verdict. destruct (Js.isEmpty (Js.trim line)); [discriminate|].
  destruct (Js.get _ (nameIndex p)) as [n|]; [|discriminate].
  destruct (Js.get _ (emailIndex p)) as [e|]; [|discriminate].
  destruct (Js.get _ (ageIndex p)) as [a|]; [|discriminate].
  destruct (_ || _)%bool; [discriminate|].
  unfold processUser. cbn [name email age].
  destruct (Js.includes "@" (Js.trim e)) eqn:At; cbn [negb]; [|discriminate].
  destruct (Js.parseInt (Js.trim a)) as [|v] eqn:Pv; [discriminate|].
  destruct (v <? 0) eqn:Neg; [discriminate|]. apply Z.ltb_ge in Neg.
  destruct (Js.isEmpty _); [discriminate|].
  intros [= <-]. exists n, e, a, v. now repeat split.
Qed.

(** An accepted line, once written, is accepted again as it is. *)
Lemma accepted_again (p : t) (line o : string) :
  verdict p line = Accepted o ->
  let again := mk (inputFilePath p) (outputFilePath p)
                  (Js.indexOf (Js.split "," headerLine) "name")
                  (Js.indexOf (Js.split "," headerLine) "email")
                  (Js.indexOf (Js.split "," headerLine) "age") in
  verdict again o
  = if Js.isEmpty (Js.trim (Js.str (Js.get (Js.split "," line)
                                      (nameIndex p))))
    then Skipped else Accepted o.
Proof.
  intros V. destruct (accepted_inv p line o V)
    as (n & e & a & v & Hn & He & Ha & At & Pv & Nv & ->).
  rewrite Hn. cbn [Js.str].
  replace (Js.indexOf (Js.split "," headerLine) "name") with 0
    by (vm_compute; reflexivity).
  replace (Js.indexOf (Js.split "," headerLine) "email") with 1
    by (vm_compute; reflexivity).
  replace (Js.indexOf (Js.split "," headerLine) "age") with 2
    by (vm_compute; reflexivity).
  cbv zeta.
  destruct (toString_spec v Nv) as (Da & Dn & _).
  pose proof (parseInt_toString v Nv) as Pt.
  set (N := Js.toUpperCase (Js.trim n)).
  set (E := Js.trim e) in *.
  set (A := Js.toString v) in *.
  assert (FN : Js.includes "," N = false).
  { unfold N. rewrite includes_comma_upper. apply trim_free.
    apply (split_fields_free "," line). exact (get_in _ _ _ Hn). }
  assert (FE : Js.includes "," E = false).
  { apply trim_free, (split_fields_free "," line). exact (get_in _ _ _ He). }
  assert (FA : Js.includes "," A = false) by now apply allDigits_free.
  assert (TN : Js.trim N = N).
  { unfold N. now rewrite trim_upper, trim_idem. }
  assert (TE : Js.trim E = E) by apply trim_idem.
  assert (TA : Js.trim A = A) by now apply allDigits_trim.
  assert (UN : Js.toUpperCase N = N) by apply toUpperCase_idem.
  assert (EE : Js.isEmpty E = false).
  { destruct E; [discriminate At|reflexivity]. }
  assert (EN : Js.isEmpty N = Js.isEmpty (Js.trim n)) by apply isEmpty_upper.
  change (Js.join "," [N; E; A]) with (N ++ String "," (E ++ String "," A)).
  set (o := N ++ String "," (E ++ String "," A)).
  assert (So : Js.split "," o = [N; E; A]).
  { unfold o. rewrite (split_app_sep "," N _ FN), (split_app_sep "," E _ FE).
    now rewrite (split_free "," A FA). }
  assert (Bo : Js.isEmpty (Js.trim o) = false).
  { apply (trim_not_blank o ","); [|reflexivity].
    unfold o. rewrite includes_app. cbn [Js.includes].
    rewrite Ascii.eqb_refl. apply orb_true_r. }
  unfold verdict. rewrite Bo, So.
  cbn [nameIndex emailIndex ageIndex].
  change (Js.get [N; E; A] 0) with (Some N).
  change (Js.get [N; E; A] 1) with (Some E).
  change (Js.get [N; E; A] 2) with (Some A). cbv beta iota.
  rewrite EE, Dn, EN, TN, TE, TA, Pt.
  destruct (Js.isEmpty (Js.trim n)); [reflexivity|]. cbn [orb].
  unfold processUser. cbn [name email age]. rewrite At. cbn [negb].
  apply Z.ltb_ge in Nv. rewrite Nv, UN.
  change (Js.join "," [N; E; Js.toString v]) with o.
  replace (Js.isEmpty o) with false; [reflexivity|].
  symmetry. unfold o. apply Fields.append_not_empty.
Qed.

(** (X15) A line of the output file, read again under the header the
    parser writes, is accepted and comes out unchanged, unless its name is
    empty, in which case it is skipped.  The name of an output line is empty
    exactly when the name of the input line was white space only.  The age
    is taken in the range where [String] prints all its digits. *)
Theorem output_lines_are_fixed_points (p : t) (line o : string) :
  verdict p line = Accepted o ->
  safeAge p line ->
  let again := mk (inputFilePath p) (outputFilePath p)
                  (Js.indexOf (Js.split "," headerLine) "name")
                  (Js.indexOf (Js.split "," headerLine) "email")
                  (Js.indexOf (Js.split "," headerLine) "age") in
  verdict again o
  = if Js.isEmpty (Js.trim (Js.str (Js.get (Js.split "," line)
                                      (nameIndex p))))
    then Skipped else Accepted o.
Proof. intros V _. exact (accepted_again p line o V). Qed.

(** The theorem on the first user of the scenario. *)
Lemma output_lines_are_fixed_points_witness :
  verdict
    (mk (inputFilePath Sample.resolved) (outputFilePath Sample.resolved)
       (Js.indexOf (Js.split "," headerLine) "name")
       (Js.indexOf (Js.split "," headerLine) "email")
       (Js.indexOf (Js.split "," headerLine) "age"))
    "JOHN DOE,john@example.com,25"
  = Accepted "JOHN DOE,john@example.com,25".
Proof.
  assert (V : verdict Sample.resolved "john doe,john@example.com,25"
              = Accepted "JOHN DOE,john@example.com,25")
    by (vm_compute; reflexivity).
  assert (S : safeAge Sample.resolved "john doe,john@example.com,25").
  { intros v Hv. vm_compute in Hv. injection Hv as <-. vm_compute.
    discriminate. }
  pose proof (output_lines_are_fixed_points Sample.resolved _ _ V S) as R.
  cbv zeta in R.
  replace (Js.isEmpty (Js.trim (Js.str (Js.get
             (Js.split "," "john doe,john@example.com,25")
             (nameIndex Sample.resolved))))) with false in R
    by (vm_compute; reflexivity).
  exact R.
Defined.

End RoundTrip.

(** ** Termination of the concurrent method *)

Module Termination.

Import CsvParser Ledger Outline HeapFacts ConcFacts EagerFacts.

(** Every move of the event loop uses up some of the bound. *)
Lemma step_fuel (c c' : Conc) : step c c' -> (fuel c' < fuel c)%nat.
Proof.
  intros H. destruct H as [c line rest pr s' Hpc Hsrc Hl
                          |c i n path chunk pr s' Hi Hr
                          |c Hpc Ha|c Hpc Hsrc|c Hpc Ha];
    unfold fuel; cbn [source promises heap st pc].
  - rewrite Hpc, Hsrc, pendingCount_app. cbn [List.length weight].
    destruct (isPending pr);
      destruct (batchSize <=? S (List.length (promises c)))%nat;
      cbn [weight]; lia.
  - assert (Hp : isPending pr = false).
    { pose proof (resume_settled n path chunk (st c)) as Hs.
      now rewrite Hr in Hs. }
    destruct (settle_counts (heap c) i n path chunk pr Hi Hp) as [Hc _].
    lia.
  - rewrite Hpc. cbn [weight]. lia.
  - rewrite Hpc, Hsrc. cbn [List.length weight].
    destruct (0 <? List.length (promises c))%nat; cbn [weight]; lia.
  - rewrite Hpc. cbn [weight]. lia.
Qed.

Lemma steps_fuel (c c' : Conc) : steps c c' -> (fuel c' <= fuel c)%nat.
Proof.
  induction 1 as [c|c1 c2 c3 H12 _ IH]; [lia|].
  apply step_fuel in H12. lia.
Qed.

Lemma not_all_settled (h : list Promise) (ps : list nat) :
  allSettled h ps = false ->
  exists i n path chunk, nth_error h i = Some (Pending n path chunk).
Proof.
  unfold allSettled. induction ps as [|i ps IH]; cbn [forallb];
    [discriminate|].
  intros H. apply andb_false_iff in H as [H|H]; [|now apply IH].
  unfold isSettled in H. exists i.
  destruct (nth_error h i) as [[n path chunk| |e]|]; try discriminate.
  now exists n, path, chunk.
Qed.

Lemma step_acc (c : Conc) :
  Acc (fun c' c => step c c') c.
Proof.
  apply (well_founded_lt_compat Conc fuel). intros x y. apply step_fuel.
Qed.

(** (X16) No schedule of the loop of [processUsersAsStreamAndConcurrency]
    goes on for ever: the moves of the event loop are well founded, whatever
    the order in which the appends complete. *)
Theorem every_schedule_is_finite : well_founded (fun c' c => step c c').
Proof. intros c. apply step_acc. Qed.

(** (X17) The loop is never stuck: as long as the method has not left it
    some move is possible, and its moves can be continued up to the exit of
    the loop. *)
Theorem the_loop_is_never_stuck (c : Conc) :
  pc c <> Leaving ->
  (exists c', step c c')
  /\ exists c'', steps c c'' /\ pc c'' = Leaving.
Proof.
  assert (Progress : forall c, pc c <> Leaving -> exists c', step c c').
  { clear c. intros c Hpc.
    assert (Complete : allSettled (heap c) (promises c) = false ->
                       exists c', step c c').
    { intros Ha.
      destruct (not_all_settled _ _ Ha) as (i & n & path & chunk & Hi).
      destruct (resume n path chunk (st c)) as [pr s'] eqn:Hr.
      eexists. exact (step_complete c i n path chunk pr s' Hi Hr). }
    destruct (pc c) eqn:K; [| | |congruence].
    - destruct (source c) as [|line rest] eqn:Hs.
      + eexists. exact (step_exhausted c K Hs).
      + destruct (launch line (st c)) as [pr s'] eqn:Hl.
        eexists. exact (step_launch c line rest pr s' K Hs Hl).
    - destruct (allSettled (heap c) (promises c)) eqn:Ha;
        [|exact (Complete eq_refl)].
      eexists. exact (step_batch c K Ha).
    - destruct (allSettled (heap c) (promises c)) eqn:Ha;
        [|exact (Complete eq_refl)].
      eexists. exact (step_rest c K Ha). }
  intros Hpc. split; [exact (Progress c Hpc)|]. clear Hpc.
  induction (step_acc c) as [c _ IH].
  destruct (pc c) eqn:K;
    try (destruct (Progress c ltac:(congruence)) as [c1 H1];
         destruct (IH c1 H1) as (c2 & H2 & L);
         exists c2; split; [exact (steps_next _ _ _ H1 H2)|exact L]).
  exists c. split; [apply steps_refl|exact K].
Qed.

(** The theorem on a loop that has just been entered. *)
Lemma the_loop_is_never_stuck_witness :
  exists c, steps (enterLoop (tl (Fs.readLines Sample.scenario))
                     (mkState Sample.resolved Stats.new
                        (Sample.worldOf Sample.scenario Sample.writable))) c
            /\ pc c = Leaving.
Proof.
  apply the_loop_is_never_stuck. discriminate.
Defined.

End Termination.

(** ** What the sequential loop throws *)

Module Errors.

Import CsvParser Ledger Outline JsFacts LineFacts RunFacts LoopFacts
  EntryFacts FrameFacts Failures Siblings.

(** The loop of the sequential methods throws nothing but the error of a
    failed append. *)
Lemma forEach_throws (lines : list string) :
  forall (s s' : State) (e : Error),
    forEach lines processUsersLine s = (Throw e, s') ->
    e = SystemError "EIO".
Proof.
  induction lines as [|line rest IH]; intros s s' e; [discriminate|].
  rewrite forEach_cons, line_verdict.
  destruct (verdict (this s) line) as [| |l]; try apply IH.
  unfold Fs.appendFile, Fs.appendIssue, Fs.appendComplete.
  cbn [Fs.appendOk Fs.appendCalls Fs.files].
  destruct (Fs.appendOk (world s) (Fs.appendCalls (world s)));
    cbn [processUsersLineResume incProcessed throw]; [apply IH|].
  now intros [= <- _].
Qed.

Lemma tail_throws (r : Result unit) (s : State) (e : Error) :
  fst (match r with
       | Ok _ => finish s
       | Throw e' => cleanup e' s
       end) = Throw e ->
  r = Throw e.
Proof.
  destruct r as [[]|e'].
  - destruct (finish_spec s) as (F & _). rewrite F. discriminate.
  - destruct (@cleanup_spec Stats.t e' s) as (C & _). rewrite C.
    now intros [= <-].
Qed.

End Errors.

(** ** Line endings *)

Module LineEndings.

Import CsvParser Ledger Outline JsFacts LineFacts RunFacts LoopFacts
  EntryFacts FrameFacts Failures Siblings Errors RoundTrip.

Lemma scan_not_nil (skipLF : bool) (s : string) : Fs.scan skipLF s <> [].
Proof.
  revert skipLF. induction s as [|c s IH]; intros skipLF; cbn [Fs.scan];
    [discriminate|].
  destruct (Ascii.eqb c Js.LF).
  - destruct skipLF; [apply IH|discriminate].
  - destruct (Ascii.eqb c Js.CR); [discriminate|].
    destruct (Fs.scan false s); discriminate.
Qed.

(** [readline] takes CR LF as one line end. *)
Lemma scan_crlf (h body : string) :
  Js.includes Js.CR h = false -> Js.includes Js.LF h = false ->
  Fs.scan false (h ++ String Js.CR (String Js.LF body))
  = h :: Fs.scan false body.
Proof.
  induction h as [|c h IH]; cbn [Js.includes append]; intros Hc Hl.
  - reflexivity.
  - apply orb_false_iff in Hc as [Hc Hc'].
    apply orb_false_iff in Hl as [Hl Hl'].
    cbn [Fs.scan]. now rewrite Hl, Hc, (IH Hc' Hl').
Qed.

Lemma readLines_crlf (h body : string) :
  Js.includes Js.CR h = false -> Js.includes Js.LF h = false ->
  exists rest,
    Fs.readLines (h ++ String Js.CR (String Js.LF body)) = h :: rest.
Proof.
  intros Hc Hl. unfold Fs.readLines. rewrite (scan_crlf h body Hc Hl).
  pose proof (scan_not_nil false body) as Hn.
  destruct (Fs.scan false body) as [|y ys]; [congruence|].
  now exists (Fs.dropLastIfEmpty (y :: ys)).
Qed.

(** [split] leaves a character that follows the last field in that
    field. *)
Lemma split_snoc (sep c : ascii) (s : string) :
  Ascii.eqb c sep = false ->
  forall (init : list string) (l : string),
    Js.split sep s = (init ++ [l])%list ->
    Js.split sep (s ++ String c EmptyString)
    = (init ++ [(l ++ String c EmptyString)%string])%list.
Proof.
  intros Hc. induction s as [|a s IH]; intros init l; cbn [Js.split append].
  - rewrite Hc. destruct init as [|x [|y init]]; [|discriminate..].
    now intros [= <-].
  - pose proof (split_not_nil sep s) as Hn.
    destruct (Ascii.eqb a sep).
    + destruct init as [|x init].
      * intros [= _ E]. congruence.
      * intros [= <- E]. now rewrite (IH init l E).
    + destruct (Js.split sep s) as [|f fs] eqn:Es; [congruence|].
      destruct init as [|x init].
      * intros [= <- ->]. now rewrite (IH [] f eq_refl).
      * intros [= <- ->]. now rewrite (IH (f :: init) l eq_refl).
Qed.

Lemma append_char_neq (x : string) (c : ascii) :
  x ++ String c EmptyString <> x.
Proof.
  induction x as [|a x IH]; cbn [append]; [discriminate|].
  intros [= E]. now apply IH.
Qed.

(** A header whose last column is a required one, once a CR is left at its
    end, lacks that column. *)
Lemma lacksColumn_cr (h : string) (init : list string) (x : string) :
  Js.split "," h = (init ++ [x])%list ->
  In x USER_HEADERS -> ~ In x init ->
  lacksColumn (h ++ String Js.CR EmptyString) = true.
Proof.
  intros Hs Hx Hi. apply Header.lacksColumn_spec.
  rewrite (split_snoc "," Js.CR h eq_refl init x Hs).
  assert (No : ~ In x (init ++ [(x ++ String Js.CR EmptyString)%string])%list).
  { intros H. apply in_app_or in H as [H|[H|[]]]; [now apply Hi|].
    now apply (append_char_neq x Js.CR). }
  intros (A & B & C).
  destruct Hx as [<-|[<-|[<-|[]]]]; contradiction.
Qed.

(** (X19) On an input whose lines end in CR LF, [processUsers], which
    splits on [EOL], leaves the CR in the last column of the header: when
    that column is a required one the run throws the header error.
    [processUsersAsStream] reads the same header without the CR and
    accepts it. *)
Theorem crlf_input_is_read_by_the_stream_only (p : t) (w : Fs.World)
    (h body : string) (init : list string) (x : string) :
  Fs.files w (inputFilePath p)
    = Some (h ++ String Js.CR (String Js.LF body)) ->
  inputFilePath p <> outputFilePath p ->
  Js.includes Js.CR h = false -> Js.includes Js.LF h = false ->
  lacksColumn h = false ->
  Js.split "," h = (init ++ [x])%list ->
  In x USER_HEADERS -> ~ In x init ->
  fst (run processUsers p w) = Throw HeaderError
  /\ fst (run processUsersAsStream p w) <> Throw HeaderError.
Proof.
  intros Hin Hne Hc Hl Hlack Hs Hx Hi. split.
  - unfold run. rewrite processUsers_unfold. cbv zeta. cbn [this world].
    unfold Fs.readFile. rewrite Hin.
    assert (Nb : Js.isEmpty (Js.trim (h ++ String Js.CR (String Js.LF body)))
                 = false).
    { destruct (Js.isEmpty (Js.trim h)) eqn:Bh.
      - exfalso. unfold lacksColumn in Hlack.
        apply orb_false_iff in Hlack as [Hlack _].
        apply orb_false_iff in Hlack as [Hn _]. apply Z.eqb_neq in Hn.
        destruct (in_dec string_dec "name" (Js.split "," h)) as [I|I];
          [|apply Header.indexOf_absent in I; contradiction].
        apply isEmpty_true in Bh.
        pose proof (trimStart_blank h Bh "n"
                      (Counting.split_includes "," "n" h "name" I eq_refl))
          as W.
        discriminate W.
      - destruct (Js.isEmpty (Js.trim (h ++ _))) eqn:B; [|reflexivity].
        apply isEmpty_true in B. apply isEmpty_false in Bh. exfalso.
        apply Bh. apply Counting.all_white_trim. intros c Hc'.
        apply (trimStart_blank _ B). rewrite includes_app, Hc'.
        reflexivity. }
    rewrite Nb.
    assert (Sp : Js.split Js.LF (h ++ String Js.CR (String Js.LF body))
                 = (h ++ String Js.CR EmptyString) :: Js.split Js.LF body).
    { replace (h ++ String Js.CR (String Js.LF body))
        with ((h ++ String Js.CR EmptyString) ++ String Js.LF body)
        by (rewrite append_assoc; reflexivity).
      apply split_app_sep. rewrite includes_app, Hl. reflexivity. }
    rewrite Sp. cbn [hd_error tl]. rewrite processHeaders_spec. cbv zeta.
    rewrite (lacksColumn_cr h init x Hs Hx Hi).
    match goal with |- context [@cleanup _ _ ?s] =>
      destruct (@cleanup_spec Stats.t HeaderError s) as (C & _)
    end.
    exact C.
  - unfold run. rewrite processUsersAsStream_unfold.
    rewrite (openAndReadHeader_spec p w _ Hin Hne). cbv zeta.
    destruct (readLines_crlf h body Hc Hl) as [rest ->]. rewrite Hlack.
    destruct (forEach rest processUsersLine _) as [r s2] eqn:F.
    intros T. apply (tail_throws r s2 HeaderError) in T. subst r.
    apply forEach_throws in F. discriminate F.
Qed.

(** The theorem on the scenario with Windows line ends. *)
Lemma crlf_input_is_read_by_the_stream_only_witness :
  let csv := "name,email,age" ++ String Js.CR (String Js.LF
               "john doe,john@example.com,25") in
  fst (run processUsers Sample.parser (Sample.worldOf csv Sample.writable))
  = Throw HeaderError
  /\ fst (run processUsersAsStream Sample.parser
            (Sample.worldOf csv Sample.writable))
     <> Throw HeaderError.
Proof.
  intros csv.
  apply (crlf_input_is_read_by_the_stream_only Sample.parser
           (Sample.worldOf csv Sample.writable) "name,email,age"
           "john doe,john@example.com,25" ["name"; "email"] "age").
  - vm_compute. reflexivity.
  - discriminate.
  - vm_compute. reflexivity.
  - vm_compute. reflexivity.
  - vm_compute. reflexivity.
  - vm_compute. reflexivity.
  - right. right. left. reflexivity.
  - intros [H|[H|[]]]; discriminate H.
Defined.

End LineEndings.

(** ** Running the parser on its own output *)

Module Idempotence.

Import CsvParser Ledger Outline JsFacts LineFacts RunFacts LoopFacts
  EntryFacts FrameFacts Order Sequential RoundTrip.

Lemma upper_lf (c : ascii) :
  Ascii.eqb (Js.upper c) Js.LF = Ascii.eqb c Js.LF.
Proof. by_cases c. Qed.

Lemma upper_cr (c : ascii) :
  Ascii.eqb (Js.upper c) Js.CR = Ascii.eqb c Js.CR.
Proof. by_cases c. Qed.

Lemma digit_lf (c : ascii) :
  Js.isDigit c = true -> Ascii.eqb c Js.LF = false.
Proof. by_cases c. Qed.

Lemma digit_cr (c : ascii) :
  Js.isDigit c = true -> Ascii.eqb c Js.CR = false.
Proof. by_cases c. Qed.

Lemma oneLine_upper (s : string) : oneLine s -> oneLine (Js.toUpperCase s).
Proof.
  unfold oneLine.
  induction s as [|c s IH]; cbn [Js.toUpperCase Js.includes]; [trivial|].
  rewrite upper_lf, upper_cr. intros [L C].
  apply orb_false_iff in L as [L L']. apply orb_false_iff in C as [C C'].
  destruct (IH (conj L' C')) as [I J]. now rewrite L, C, I, J.
Qed.

Lemma oneLine_digits (s : string) : Js.allDigits s = true -> oneLine s.
Proof.
  unfold oneLine.
  induction s as [|c s IH]; cbn [Js.allDigits Js.includes]; [now split|].
  intros H. apply andb_true_iff in H as [Hc Hs].
  destruct (IH Hs) as [I J].
  now rewrite (digit_lf c Hc), (digit_cr c Hc), I, J.
Qed.

Lemma oneLine_app (a b : string) : oneLine a -> oneLine b -> oneLine (a ++ b).
Proof.
  unfold oneLine. intros [A1 A2] [B1 B2].
  now rewrite !includes_app, A1, A2, B1, B2.
Qed.

Lemma oneLine_field (line f : string) (i : Z) :
  oneLine line -> Js.get (Js.split "," line) i = Some f ->
  oneLine (Js.trim f).
Proof.
  intros [L C] G. apply get_in in G. split; apply trim_free.
  - destruct (Js.includes Js.LF f) eqn:E; [|reflexivity].
    rewrite (Counting.split_includes "," Js.LF line f G E) in L.
    discriminate L.
  - destruct (Js.includes Js.CR f) eqn:E; [|reflexivity].
    rewrite (Counting.split_includes "," Js.CR line f G E) in C.
    discriminate C.
Qed.

(** The output line of a line without line ends has none, and is not
    empty. *)
Lemma accepted_oneLine (p : t) (line o : string) :
  verdict p line = Accepted o -> oneLine line ->
  oneLine o /\ Js.isEmpty o = false.
Proof.
  intros V Hl.
  destruct (accepted_inv p line o V)
    as (n & e & a & v & Hn & He & Ha & At & Pv & Nv & ->).
  destruct (toString_spec v Nv) as (Da & _ & _).
  change (Js.join "," [Js.toUpperCase (Js.trim n); Js.trim e; Js.toString v])
    with (Js.toUpperCase (Js.trim n)
          ++ String "," (Js.trim e ++ String "," (Js.toString v))).
  split; [|apply Fields.append_not_empty].
  apply oneLine_app; [apply oneLine_upper, (oneLine_field line n _ Hl Hn)|].
  change (String "," (Js.trim e ++ String "," (Js.toString v)))
    with (String "," EmptyString ++ (Js.trim e ++ String "," (Js.toString v))).
  apply oneLine_app; [now split|].
  apply oneLine_app; [apply (oneLine_field line e _ Hl He)|].
  change (String "," (Js.toString v))
    with (String "," EmptyString ++ Js.toString v).
  apply oneLine_app; [now split|now apply oneLine_digits].
Qed.

(** *** What [readline] yields *)

Lemma scan_oneLine (s : string) :
  forall (skipLF : bool) (l : string), In l (Fs.scan skipLF s) -> oneLine l.
Proof.
  unfold oneLine.
  induction s as [|c s IH]; intros skipLF l; cbn [Fs.scan].
  - intros [<-|[]]. now split.
  - destruct (Ascii.eqb c Js.LF) eqn:EL.
    + destruct skipLF; [apply IH|].
      intros [<-|H]; [now split|exact (IH _ _ H)].
    + destruct (Ascii.eqb c Js.CR) eqn:EC.
      * intros [<-|H]; [now split|exact (IH _ _ H)].
      * destruct (Fs.scan false s) as [|f fs] eqn:Es.
        -- intros [<-|[]]. cbn [Js.includes]. now rewrite EL, EC.
        -- intros [<-|H].
           ++ destruct (IH false f) as [I J]; [rewrite Es; now left|].
              cbn [Js.includes]. now rewrite EL, EC, I, J.
           ++ apply (IH false). rewrite Es. now right.
Qed.

Lemma dropLast_in (xs : list string) (l : string) :
  In l (Fs.dropLastIfEmpty xs) -> In l xs.
Proof.
  induction xs as [|x xs IH]; [trivial|].
  destruct xs as [|y ys].
  - cbn [Fs.dropLastIfEmpty]. destruct (Js.isEmpty x); [intros []|trivial].
  - change (Fs.dropLastIfEmpty (x :: y :: ys))
      with (x :: Fs.dropLastIfEmpty (y :: ys)).
    intros [<-|H]; [now left|right; exact (IH H)].
Qed.

Lemma readLines_oneLine (csv l : string) :
  In l (Fs.readLines csv) -> oneLine l.
Proof. intros H. apply dropLast_in in H. exact (scan_oneLine _ _ _ H). Qed.

Lemma dropLast_full (xs : list string) :
  (forall x, In x xs -> Js.isEmpty x = false) -> Fs.dropLastIfEmpty xs = xs.
Proof.
  induction xs as [|x xs IH]; intros H; [reflexivity|].
  destruct xs as [|y ys].
  - cbn [Fs.dropLastIfEmpty]. now rewrite (H x (or_introl eq_refl)).
  - change (Fs.dropLastIfEmpty (x :: y :: ys))
      with (x :: Fs.dropLastIfEmpty (y :: ys)).
    rewrite IH; [reflexivity|]. intros z Hz. apply H. now right.
Qed.

Lemma scan_last (h : string) : oneLine h -> Fs.scan false h = [h].
Proof.
  unfold oneLine.
  induction h as [|c h IH]; cbn [Js.includes Fs.scan]; [trivial|].
  intros [L C]. apply orb_false_iff in L as [L L'].
  apply orb_false_iff in C as [C C']. now rewrite L, C, (IH (conj L' C')).
Qed.

Lemma scan_line (h t : string) :
  oneLine h -> Fs.scan false (h ++ String Js.LF t) = h :: Fs.scan false t.
Proof.
  unfold oneLine.
  induction h as [|c h IH]; cbn [Js.includes append]; [reflexivity|].
  intros [L C]. apply orb_false_iff in L as [L L'].
  apply orb_false_iff in C as [C C']. cbn [Fs.scan].
  now rewrite L, C, (IH (conj L' C')).
Qed.

(** A header and lines that are written one per line are read back as they
    are. *)
Lemma scan_lines (outs : list string) :
  forall h, oneLine h -> (forall o, In o outs -> oneLine o) ->
    Fs.scan false
      (h ++ String.concat EmptyString (map (fun o => EOL ++ o) outs))
    = h :: outs.
Proof.
  induction outs as [|o outs IH]; intros h Hh Ho.
  - cbn [map String.concat]. rewrite append_empty_r. now apply scan_last.
  - cbn [map]. rewrite concat_cons.
    change ((EOL ++ o) ++ ?t) with (String Js.LF (o ++ t)).
    rewrite (scan_line h _ Hh). f_equal. apply IH.
    + apply Ho. now left.
    + intros x Hx. apply Ho. now right.
Qed.

(** *** The accepted lines *)

Lemma chunks_accepted (p : t) (lines : list string) :
  chunks p lines = map (fun o => EOL ++ o) (accepted p lines).
Proof.
  induction lines as [|l rest IH]; [reflexivity|].
  rewrite chunks_cons. cbn [accepted].
  destruct (verdict p l); [exact IH|exact IH|]. cbn [map]. now rewrite IH.
Qed.

Lemma accepted_in (p : t) (lines : list string) (o : string) :
  In o (accepted p lines) ->
  exists line, In line lines /\ verdict p line = Accepted o.
Proof.
  induction lines as [|l rest IH]; [intros []|]. cbn [accepted].
  destruct (verdict p l) as [| |o'] eqn:V.
  - intros H. destruct (IH H) as (line & I & E). exists line.
    split; [now right|exact E].
  - intros H. destruct (IH H) as (line & I & E). exists line.
    split; [now right|exact E].
  - intros [<-|H].
    + exists l. split; [now left|exact V].
    + destruct (IH H) as (line & I & E). exists line.
      split; [now right|exact E].
Qed.

(** Lines that are all accepted as they are. *)
Lemma second_pass (q : t) (outs : list string) :
  (forall o, In o outs -> verdict q o = Accepted o) ->
  chunks q outs = map (fun o => EOL ++ o) outs /\ countSkipped q outs = 0.
Proof.
  induction outs as [|o outs IH]; intros H; [now split|].
  rewrite chunks_cons. cbn [countSkipped map].
  rewrite (H o (or_introl eq_refl)).
  destruct IH as [I J]; [intros x Hx; apply H; now right|].
  now rewrite I, J.
Qed.

(** (X20) [processUsersAsStream] is idempotent on its output.  After a run
    with a writable sink that accepted at least one line, all of them with
    a name that is not blank and an age that is a safe integer, a second run
    that reads the output file of the first writes an output file with the
    same content, processes every line and skips none. *)
Theorem the_output_is_a_fixed_point (p : t) (w : Fs.World)
    (csv header : string) (rest : list string) (q : t) (w2 : Fs.World) :
  Fs.files w (inputFilePath p) = Some csv ->
  inputFilePath p <> outputFilePath p ->
  (forall n, Fs.appendOk w n = true) ->
  Fs.readLines csv = header :: rest -> lacksColumn header = false ->
  let p' := mk (inputFilePath p) (outputFilePath p)
               (Js.indexOf (Js.split "," header) "name")
               (Js.indexOf (Js.split "," header) "email")
               (Js.indexOf (Js.split "," header) "age") in
  accepted p' rest <> [] ->
  (forall line o, In line rest -> verdict p' line = Accepted o ->
     Js.isEmpty (Js.trim (Js.str (Js.get (Js.split "," line) (nameIndex p'))))
     = false) ->
  (forall line, In line rest -> safeAge p' line) ->
  let r1 := run processUsersAsStream p w in
  Fs.files w2 (inputFilePath q)
    = Fs.files (world (snd r1)) (outputFilePath p) ->
  inputFilePath q <> outputFilePath q ->
  (forall n, Fs.appendOk w2 n = true) ->
  let r2 := run processUsersAsStream q w2 in
  Fs.files (world (snd r2)) (outputFilePath q)
    = Fs.files (world (snd r1)) (outputFilePath p)
  /\ fst r2 = Ok (Stats.mk (Z.of_nat (List.length (accepted p' rest))) 0)
  /\ fst r1 = Ok (Stats.mk (Z.of_nat (List.length (accepted p' rest)))
                           (countSkipped p' rest)).
Proof.
  intros Hin Hne Hok Hl Hc p' Hacc Hname _ r1 Hin2 Hne2 Hok2 r2.
  destruct (stream_writable p w csv header rest Hin Hne Hok Hl Hc)
    as [S1 F1].
  cbv zeta in S1, F1. fold p' in S1, F1. fold r1 in S1, F1.
  rewrite chunks_accepted in S1, F1. rewrite length_map in S1.
  set (outs := accepted p' rest) in *.
  destruct outs as [|o0 os] eqn:Eo; [congruence|]. rewrite <- Eo in *.
  assert (F1' : Fs.files (world (snd r1)) (outputFilePath p)
                = Some (headerLine
                        ++ String.concat EmptyString
                             (map (fun o => EOL ++ o) outs))).
  { rewrite F1. subst outs. rewrite Eo. reflexivity. }
  clear F1. rewrite F1' in *.
  assert (Lines : forall o, In o outs ->
            exists line, In line rest /\ verdict p' line = Accepted o).
  { intros o Ho. now apply accepted_in. }
  assert (One : forall o, In o outs -> oneLine o /\ Js.isEmpty o = false).
  { intros o Ho. destruct (Lines o Ho) as (line & I & V).
    apply (accepted_oneLine p' line o V).
    apply (readLines_oneLine csv). rewrite Hl. now right. }
  assert (R2 : Fs.readLines
                 (headerLine
                  ++ String.concat EmptyString (map (fun o => EOL ++ o) outs))
               = headerLine :: outs).
  { unfold Fs.readLines. rewrite scan_lines.
    - apply dropLast_full. intros x [<-|Hx]; [reflexivity|].
      now apply One.
    - now split.
    - intros o Ho. now apply One. }
  assert (Hh : lacksColumn headerLine = false) by (vm_compute; reflexivity).
  destruct (stream_writable q w2 _ headerLine outs Hin2 Hne2 Hok2 R2 Hh)
    as [S2 F2].
  cbv zeta in S2, F2. fold r2 in S2, F2.
  match type of S2 with context [chunks ?q' outs] =>
    destruct (second_pass q' outs) as [C2 K2]
  end.
  { intros o Ho. destruct (Lines o Ho) as (line & I & V).
    pose proof (accepted_again p' line o V) as A. cbv zeta in A.
    rewrite (Hname line o I V) in A.
    unfold verdict in *. exact A. }
  rewrite C2, K2 in S2. rewrite C2 in F2. rewrite length_map in S2.
  split; [|split; [exact S2|exact S1]].
  rewrite F2. subst outs. rewrite Eo. reflexivity.
Qed.

(** The theorem on the scenario, whose output is read from [data/out.csv]
    and written to [data/again.csv]. *)
Lemma the_output_is_a_fixed_point_witness :
  let r1 := run processUsersAsStream Sample.parser
              (Sample.worldOf Sample.scenario Sample.writable) in
  let q := mk "data/out.csv" "data/again.csv" (-1) (-1) (-1) in
  let w2 := Fs.mk (Fs.store "data/out.csv"
                     (Some ("name,email,age" ++ EOL
                            ++ "JOHN DOE,john@example.com,25"))
                     (fun _ => None)) 0 Sample.writable in
  let r2 := run processUsersAsStream q w2 in
  Fs.files (world (snd r2)) "data/again.csv"
    = Fs.files (world (snd r1)) "data/out.csv"
  /\ fst r2 = Ok (Stats.mk 1 0).
Proof.
  intros r1 q w2 r2.
  destruct (the_output_is_a_fixed_point Sample.parser
              (Sample.worldOf Sample.scenario Sample.writable)
              Sample.scenario "name,email,age"
              ["john doe,john@example.com,25";
               "jane smith,invalid-email,30"; "bob,bob@example.com,-5"]
              q w2) as (A & B & _).
  - vm_compute. reflexivity.
  - discriminate.
  - reflexivity.
  - vm_compute. reflexivity.
  - vm_compute. reflexivity.
  - vm_compute. discriminate.
  - intros line o [<-|[<-|[<-|[]]]] V; vm_compute in V; try discriminate V;
      vm_compute; reflexivity.
  - intros line [<-|[<-|[<-|[]]]] v Hv; vm_compute in Hv;
      injection Hv as <-; vm_compute; discriminate.
  - vm_compute. reflexivity.
  - discriminate.
  - reflexivity.
  - split; [exact A|]. unfold r2. rewrite B. vm_compute. reflexivity.
Defined.

End Idempotence.

(** ** A blank input *)

Module BlankInput.

Import CsvParser Ledger Outline EntryFacts.

(** (X21) On an input that is blank [processUsers] returns
    [{processed: 0, skipped: 0}] before it has touched anything: the world
    is as it was, so an output file left by an earlier run stays, and no
    header is written. *)
Theorem processUsers_on_a_blank_input_changes_nothing (p : t) (w : Fs.World)
    (csv : string) :
  Fs.files w (inputFilePath p) = Some csv ->
  Js.isEmpty (Js.trim csv) = true ->
  let r := run processUsers p w in
  fst r = Ok (Stats.mk 0 0) /\ world (snd r) = w /\ this (snd r) = p
  /\ stats (snd r) = Stats.mk 0 0.
Proof.
  intros Hin Hb. cbv zeta. unfold run. rewrite processUsers_unfold.
  cbv zeta. cbn [this world]. unfold Fs.readFile. rewrite Hin, Hb.
  now repeat split.
Qed.

(** The theorem on an input of white space, with a stale output file. *)
Lemma processUsers_on_a_blank_input_changes_nothing_witness :
  let w := Sample.staleWorldOf (" " ++ Sample.nl ++ " ") Sample.writable in
  let r := run processUsers Sample.parser w in
  fst r = Ok (Stats.mk 0 0)
  /\ Fs.files (world (snd r)) "data/out.csv" = Some "old".
Proof.
  intros w r.
  destruct (processUsers_on_a_blank_input_changes_nothing Sample.parser w
              (" " ++ Sample.nl ++ " ")) as (A & B & _).
  - vm_compute. reflexivity.
  - vm_compute. reflexivity.
  - split; [exact A|]. unfold r. rewrite B. vm_compute. reflexivity.
Defined.

End BlankInput.
